(** * TINerator / LaGriT meshing front end: [generate_triplane.py]

    A shallow embedding of the orchestration code of
    [src/tinerator/tinerator/generate_triplane.py] and the properties of its
    specification that can be settled on it.

    Conventions of the embedding.
    - Python floats are modelled by exact rationals [Q]; float equality
      ([==], [!=]) is [Qeq_bool].  Rounding is not modelled.
    - Python exceptions are the constructors of [exn]; a computation that
      may raise returns a [res].
    - Code that talks to the LaGriT session threads an explicit state through
      the monad [M]; the state survives a raised exception, as the session
      and the file system do in Python. *)

From Stdlib Require Import ZArith QArith Lia Lqa List String Ascii DecimalString DecimalNat
  Permutation Sorted.
From stdpp Require Import base gmap strings list.
Import ListNotations.

(** ** Python results and the state-and-exception monad *)

Inductive exn : Type :=
| AssertionError (msg : string)
| ValueError (msg : string)
| IndexError
| TypeError
| KeyError (key : string)
| ZeroDivisionError
| KernelError (msg : string).

Inductive res (A : Type) : Type :=
| Ok (a : A)
| Raise (e : exn).
Arguments Ok {A} a.
Arguments Raise {A} e.

Definition is_ok {A} (r : res A) : bool :=
  match r with Ok _ => true | Raise _ => false end.

Definition M (S A : Type) : Type := S -> res A * S.

Definition mret {S A} (a : A) : M S A := fun s => (Ok a, s).

Definition mbind {S A B} (c : M S A) (k : A -> M S B) : M S B :=
  fun s => match c s with
           | (Ok a, s') => k a s'
           | (Raise e, s') => (Raise e, s')
           end.

Definition mraise {S A} (e : exn) : M S A := fun s => (Raise e, s).

Definition mlift {S A} (r : res A) : M S A := fun s => (r, s).

Definition mmodify {S} (f : S -> S) : M S unit := fun s => (Ok tt, f s).

Notation "x <- c ;; k" := (mbind c (fun x => k))
  (at level 62, c at next level, right associativity).
Notation "c ;;; k" := (mbind c (fun _ => k))
  (at level 62, right associativity).

(** [for x in xs: body x] *)
Fixpoint mfor {S A} (xs : list A) (body : A -> M S unit) : M S unit :=
  match xs with
  | [] => mret tt
  | x :: rest => body x ;;; mfor rest body
  end.

(** An invariant of the state that a program keeps, however it ends. *)
Definition preserves {S A} (I : S -> Prop) (c : M S A) : Prop :=
  forall s, I s -> I (snd (c s)).

(** From every state that satisfies [I] the program returns, in a state
    that satisfies [I], a value that satisfies [Q]. *)
Definition succeeds {S A} (I : S -> Prop) (c : M S A) (Q : A -> Prop) : Prop :=
  forall s, I s -> exists a s', c s = (Ok a, s') /\ I s' /\ Q a.

(** [enumerate(xs)], counting from [i] *)
Fixpoint enumerate_from {A} (i : nat) (xs : list A) : list (nat * A) :=
  match xs with
  | [] => []
  | x :: rest => (i, x) :: enumerate_from (S i) rest
  end.
Definition enumerate {A} (xs : list A) : list (nat * A) := enumerate_from 0 xs.

(** ['%d' % n] for a non-negative integer *)
Definition fmt_d (n : nat) : string := NilEmpty.string_of_uint (Nat.to_uint n).

(** ** [stackLayers] (lines 268-310) *)

Module StackLayers.

Record node : Type := Node { xic : Q; yic : Q; zic : Q }.

(** A mesh object of the session, reduced to its geometry: a surface is
    its node sequence, a stacked mesh is the sequence of the layer
    surfaces it was built from, in the order they were given. *)
Inductive mo : Type :=
| Surface (nodes : list node)
| Stacked (layers : list (list node)).

(** The LaGriT session as this function sees it: the mesh files on disk
    and the mesh objects alive in the session, by handle. *)
Record kernel : Type := Kernel { files : gmap string mo; cmos : gmap string mo }.

Definition sub_zic (value : Q) (n : node) : node :=
  {| xic := xic n; yic := yic n; zic := (zic n - value)%Q |}.

(** Modelled from the spec: the Mesh Kernel primitives of PyLaGriT (the
    package [pylagrit] is not under src/).  [read] loads a mesh file into
    a session object; [math('sub','zic',value=v)] is the kernel command
    [math/sub/<mo>/zic/1,0,0/<mo>/zic/v], which overwrites the attribute
    [zic] of the object with [zic - v] (compare line 731, where the same
    verb adds 2 to [itetclr] of [cmo_bndry] in place before that attribute
    is interpolated); [dump] serialises the current state of the object;
    stacking reads the ordered layer surfaces.  [stackLayers] makes no
    copy of the surface (the method for that is [copy], as at line 778):
    it reads one object before its loop and passes that object to every
    [math] and [dump]. *)
Definition lg_read (file name : string) : M kernel unit :=
  fun k => match files k !! file with
           | Some m => (Ok tt, {| files := files k; cmos := <[name := m]> (cmos k) |})
           | None => (Raise (KernelError "read"), k)
           end.

Definition mo_math_sub_zic (name : string) (value : Q) : M kernel unit :=
  mmodify (fun k =>
    {| files := files k;
       cmos := alter (fun m => match m with
                               | Surface ns => Surface (map (sub_zic value) ns)
                               | Stacked ls => Stacked (map (map (sub_zic value)) ls)
                               end) name (cmos k) |}).

Definition mo_dump (name file : string) : M kernel unit :=
  fun k => match cmos k !! name with
           | Some m => (Ok tt, {| files := <[file := m]> (files k); cmos := cmos k |})
           | None => (Raise (KernelError "dump"), k)
           end.

Definition mo_delete (name : string) : M kernel unit :=
  mmodify (fun k => {| files := files k; cmos := delete name (cmos k) |}).

Definition lg_create (name : string) : M kernel unit :=
  mmodify (fun k => {| files := files k; cmos := <[name := Surface []]> (cmos k) |}).

Fixpoint read_surfaces (fs : gmap string mo) (names : list string) : option (list (list node)) :=
  match names with
  | [] => Some []
  | f :: rest =>
      match fs !! f, read_surfaces fs rest with
      | Some (Surface ns), Some ls => Some (ns :: ls)
      | _, _ => None
      end
  end.

(** [stack.stack_layers(filelist, flip_opt=True, nlayers=..., matids=...,
    xy_subset=...)]: the sub-layer counts, material ids and footprint go
    to the kernel and do not move the layer surfaces. *)
Definition mo_stack_layers (name : string) (filelist : list string)
    (nlayers : list string) (matids : option (list Z)) (xy_subset : option string)
    : M kernel unit :=
  fun k => match read_surfaces (files k) filelist with
           | Some ls => (Ok tt, {| files := files k; cmos := <[name := Stacked ls]> (cmos k) |})
           | None => (Raise (KernelError "stack/layers"), k)
           end.

Definition mo_stack_fill (src name : string) : M kernel unit :=
  fun k => match cmos k !! src with
           | Some m => (Ok tt, {| files := files k; cmos := <[name := m]> (cmos k) |})
           | None => (Raise (KernelError "stack/fill"), k)
           end.

(** [resetpts_itp] and [addatt('cell_vol',keyword='volume')] leave the
    geometry alone. *)
Definition mo_resetpts_itp (name : string) : M kernel unit := mret tt.
Definition mo_addatt (name att : string) : M kernel unit := mret tt.

(** ['layer%d.inp' % n] *)
Definition layer_file (n : nat) : string := "layer" +:+ fmt_d n +:+ ".inp".

(** Lines 284-287. [layers[0]] raises [IndexError] on an empty list and
    [[0] + matids] raises [TypeError] when [matids] is the default
    [None]; the bare [assert] carries no message. *)
Definition normalize (layers : list Q) (matids : option (list Z))
    : res (list Q * option (list Z)) :=
  match layers with
  | [] => Raise IndexError
  | l0 :: _ =>
      if negb (Qeq_bool l0 0) then
        match matids with
        | None => Raise TypeError
        | Some m =>
            let layers' := 0%Q :: layers in
            let matids' := 0%Z :: m in
            if Nat.eqb (length layers') (length matids')
            then Ok (layers', Some matids')
            else Raise (AssertionError EmptyString)
        end
      else Ok (layers, matids)
  end.

(** Line 289 *)
Definition stack_files (layers : list Q) : list string :=
  map (fun i => layer_file (length layers - i)) (seq 0 (length layers)).

(** Lines 295-297: one session object, [motmp_top], is altered and
    dumped once per entry of [layers]. *)
Definition dump_layers (layers : list Q) : M kernel unit :=
  mfor (enumerate layers) (fun '(i, offset) =>
    mo_math_sub_zic "motmp_top" offset ;;;
    mo_dump "motmp_top" (layer_file (i + 1))).

Definition stackLayers (infile outfile : string) (layers : list Q)
    (matids : option (list Z)) (xy_subset : option string)
    (nlayers : option (list string)) : M kernel string :=
  normalized <- mlift (normalize layers matids) ;;
  let '(layers, matids) := normalized in
  let stack_files := stack_files layers in
  let nlayers := match nlayers with
                 | None => repeat EmptyString (length stack_files - 1)
                 | Some l => l
                 end in
  lg_read infile "motmp_top" ;;;
  dump_layers layers ;;;
  mo_delete "motmp_top" ;;;
  lg_create "stack" ;;;
  mo_stack_layers "stack" stack_files nlayers matids xy_subset ;;;
  mo_dump "stack" "tmp_layers.inp" ;;;
  mo_stack_fill "stack" "CMO_PRISM" ;;;
  mo_resetpts_itp "CMO_PRISM" ;;;
  mo_addatt "CMO_PRISM" "cell_vol" ;;;
  mo_dump "CMO_PRISM" outfile ;;;
  mret "CMO_PRISM".

(** Thickness of the stack in the column of node [j]: the height of that
    node in the top surface minus its height in the bottom surface.  The
    file list of line 289 names the deepest surface first. *)
Definition column_extent (layers : list (list node)) (j : nat) : option Q :=
  match head layers, last layers with
  | Some bottom, Some top =>
      match bottom !! j, top !! j with
      | Some nb, Some nt => Some (zic nt - zic nb)%Q
      | _, _ => None
      end
  | _, _ => None
  end.

(** The surface [s] lowered by [d]: same nodes, same planar position. *)
Definition lowered (d : Q) (s s' : list node) : Prop :=
  Forall2 (fun n n' => xic n' = xic n /\ yic n' = yic n /\ (zic n' == zic n - d)%Q) s s'.

(** The depths at which the loop of lines 295-297 dumps its surfaces: the
    object is lowered again at every pass, so each depth is the sum of
    the thicknesses up to and including its own. *)
Fixpoint running_sums (depth : Q) (layers : list Q) : list Q :=
  match layers with
  | [] => []
  | l :: rest => (depth + l)%Q :: running_sums (depth + l)%Q rest
  end.

(** The surfaces the loop dumps, starting from the surface [cur]. *)
Fixpoint dumped_surfaces (cur : list node) (layers : list Q) : list (list node) :=
  match layers with
  | [] => []
  | l :: rest => map (sub_zic l) cur :: dumped_surfaces (map (sub_zic l) cur) rest
  end.

(** [setatt('itetclr', ...)] colours the elements and leaves the geometry
    alone. *)
Definition mo_setatt (name att value : string) : M kernel unit := mret tt.

(** Lines 312-349.  No value is returned. *)
Definition generateSingleColumnPrism (infile outfile : string) (layers : list Q)
    (matids : option (list Z)) (xy_subset : option string)
    (nlayers : option (list string)) : M kernel unit :=
  let stack_files := stack_files layers in
  let nlayers := match nlayers with
                 | None => repeat EmptyString (length stack_files - 1)
                 | Some l => l
                 end in
  lg_read infile "motmp_top" ;;;
  mo_setatt "motmp_top" "itetclr" "2" ;;;
  mo_setatt "motmp_top" "itetclr" "1,1,0 1" ;;;
  dump_layers layers ;;;
  mo_delete "motmp_top" ;;;
  lg_create "stack" ;;;
  mo_stack_layers "stack" stack_files nlayers matids xy_subset ;;;
  mo_dump "stack" "tmp_layers.inp" ;;;
  mo_stack_fill "stack" "CMO_PRISM" ;;;
  mo_resetpts_itp "CMO_PRISM" ;;;
  mo_addatt "CMO_PRISM" "cell_vol" ;;;
  mo_dump "CMO_PRISM" outfile.

End StackLayers.

(** ** [getFacesetsFromCoordinates] (lines 798-847) *)

Module FacesetCoords.

(** A row of [boundary[:,:2]], or one query coordinate. *)
Definition point : Type := Q * Q.

(** The argument [coords]: an array of coordinates, or a dict of such
    arrays (in insertion order, keys distinct). *)
Inductive coords_arg : Type :=
| CoordArray (cs : list point)
| CoordDict (d : list (string * list point)).

(** [fs.sort(reverse=True)] *)
Fixpoint insert_desc (x : nat) (l : list nat) : list nat :=
  match l with
  | [] => [x]
  | y :: rest => if Nat.ltb y x then x :: l else y :: insert_desc x rest
  end.
Definition sort_reverse (l : list nat) : list nat := fold_right insert_desc [] l.

(** [a[lo:hi] = v] on a one-dimensional array, for non-negative bounds *)
Definition slice_assign (lo hi : nat) (v : Z) (a : list Z) : list Z :=
  imap (fun p x => if Nat.leb lo p && Nat.ltb p hi then v else x) a.

(** Lines 840-841.  [fs[-1]] is the last entry of the sorted list, read
    only when the list is non-empty. *)
Definition fill_ranges (fs : list nat) (mat_ids : list Z) : list Z :=
  fold_left (fun acc i => slice_assign (List.last fs 0%nat) (nth i fs 0%nat) (Z.of_nat i + 2) acc)
            (seq 0 (length fs)) mat_ids.

Section WithArgmin.

(** [distance.cdist([c], boundary[:,:2]).argmin()]: the index of a
    boundary point nearest to [c]; SciPy and NumPy are outside the
    repository, and the call raises on an empty boundary. *)
Variable cdist_argmin : point -> list point -> res nat.

(** Lines 832-834 *)
Fixpoint nearest_indices (cs : list point) (boundary : list point) : res (list nat) :=
  match cs with
  | [] => Ok []
  | c :: rest =>
      match cdist_argmin c boundary with
      | Raise e => Raise e
      | Ok ind =>
          match nearest_indices rest boundary with
          | Raise e => Raise e
          | Ok fs => Ok (ind :: fs)
          end
      end
  end.

(** Body of the loop over keys, lines 828-843 *)
Definition mat_ids_for (cs : list point) (boundary : list point) : res (list Z) :=
  let mat_ids := repeat 1%Z (length boundary) in
  match nearest_indices cs boundary with
  | Raise e => Raise e
  | Ok fs => Ok (fill_ranges (sort_reverse fs) mat_ids)
  end.

Fixpoint facesets_of (d : list (string * list point)) (boundary : list point)
    : res (list (string * list Z)) :=
  match d with
  | [] => Ok []
  | (key, cs) :: rest =>
      match mat_ids_for cs boundary with
      | Raise e => Raise e
      | Ok mat_ids =>
          match facesets_of rest boundary with
          | Raise e => Raise e
          | Ok facesets => Ok ((key, mat_ids) :: facesets)
          end
      end
  end.

Definition getFacesetsFromCoordinates (coords : coords_arg) (boundary : list point)
    : res (list (string * list Z)) :=
  let coords := match coords with
                | CoordArray cs => [("all"%string, cs)]
                | CoordDict d => d
                end in
  facesets_of coords boundary.

End WithArgmin.

(** An instance of the library call in exact arithmetic: the first index
    at which the squared Euclidean distance is least. *)
Definition sqdist (p q : point) : Q :=
  ((fst p - fst q) * (fst p - fst q) + (snd p - snd q) * (snd p - snd q))%Q.

Fixpoint argmin_from (best : nat) (bestv : Q) (i : nat) (vs : list Q) : nat :=
  match vs with
  | [] => best
  | v :: rest =>
      if Qlt_le_dec v bestv then argmin_from i v (S i) rest
      else argmin_from best bestv (S i) rest
  end.

Definition argmin_exact (c : point) (boundary : list point) : res nat :=
  match map (sqdist c) boundary with
  | [] => Raise (ValueError "attempt to get argmin of an empty sequence")
  | v :: rest => Ok (argmin_from 0 v 1 rest)
  end.

(** Ten boundary points on a line, one unit apart. *)
Definition line10 : list point :=
  map (fun i => (inject_Z (Z.of_nat i), 0%Q)) (seq 0 10).

(** The id of boundary position [p] for the marker indices [fs]: below
    the least marker it is 1; from there on it is 1 plus the number of
    markers that lie beyond [p]. *)
Definition marker_id (fs : list nat) (p : nat) : Z :=
  if forallb (fun f => Nat.ltb p f) fs then 1%Z
  else (1 + Z.of_nat (length (List.filter (fun f => Nat.ltb p f) fs)))%Z.

(** The value at one position while the loop of lines 840-841 runs over
    the markers [s]. *)
Definition pass (lo p : nat) (s : list nat) (v : Z) (i : nat) : Z :=
  if Nat.leb lo p && Nat.ltb p (nth i s 0) then (Z.of_nat i + 2)%Z else v.

(** The number of markers of [s] that lie strictly beyond position [p]. *)
Definition beyond (p : nat) (s : list nat) : nat :=
  length (List.filter (fun f => Nat.ltb p f) s).

End FacesetCoords.

(** ** The no-data fill of [addElevation] and [addAttribute] *)

Module Raster.

(** A float: a finite number, or NaN.  NaN equals nothing, itself included. *)
Inductive pyfloat : Type :=
| Fin (q : Q)
| NaN.

Definition float_eqb (a b : pyfloat) : bool :=
  match a, b with
  | Fin x, Fin y => Qeq_bool x y
  | _, _ => false
  end.

Definition isnan (a : pyfloat) : bool :=
  match a with NaN => true | Fin _ => false end.

(** A two-dimensional array, row by row. *)
Definition grid (A : Type) : Type := list (list A).

(** A grid position [(x, y)]: column and row. *)
Definition pos : Type := nat * nat.

(** [a == v], element by element *)
Definition eq_mask (v : pyfloat) (a : grid pyfloat) : grid bool :=
  map (map (fun x => float_eqb x v)) a.

(** The mask of [np.ma.masked_invalid(a)] *)
Definition invalid_mask (a : grid pyfloat) : grid bool := map (map isnan) a.

(** [a[mask] = v] *)
Definition assign_where {A} (mask : grid bool) (v : A) (a : grid A) : grid A :=
  zip_with (zip_with (fun (m : bool) x => if m then v else x)) mask a.

(** [xx, yy = np.meshgrid(np.arange(0, a.shape[1]), np.arange(0, a.shape[0]))],
    the two coordinate arrays kept together *)
Definition meshgrid {A} (a : grid A) : grid pos :=
  imap (fun y row => imap (fun x _ => (x, y)) row) a.

(** [a[~mask]]: the unmasked entries, in row-major order *)
Definition select_unmasked {A} (mask : grid bool) (a : grid A) : list A :=
  concat (zip_with (fun mrow row =>
                      map snd (List.filter (fun p => negb (fst p)) (zip mrow row)))
                   mask a).

Fixpoint res_map {A B} (f : A -> res B) (l : list A) : res (list B) :=
  match l with
  | [] => Ok []
  | x :: rest =>
      match f x with
      | Raise e => Raise e
      | Ok y => match res_map f rest with
                | Raise e => Raise e
                | Ok ys => Ok (y :: ys)
                end
      end
  end.

Definition sqdist (p q : pos) : Z :=
  ((Z.of_nat (fst p) - Z.of_nat (fst q)) * (Z.of_nat (fst p) - Z.of_nat (fst q))
   + (Z.of_nat (snd p) - Z.of_nat (snd q)) * (Z.of_nat (snd p) - Z.of_nat (snd q)))%Z.

Section WithTree.

(** The nearest-neighbour query of SciPy's k-d tree: the index, among the
    data points, of one that is nearest to the query point.  Which of
    several equally near points is returned is SciPy's choice. *)
Variable nearest_index : list pos -> pos -> nat.

(** [interpolate.griddata(points, values, xi, method='nearest')]: the value
    of the nearest data point at every position of [xi]; it cannot be
    built without data points. *)
Definition griddata_nearest (points : list pos) (values : list pyfloat) (xi : grid pos)
    : res (grid pyfloat) :=
  match points with
  | [] => Raise (ValueError "griddata: no data points")
  | _ :: _ =>
      res_map (res_map (fun q => match values !! nearest_index points q with
                                 | Some v => Ok v
                                 | None => Raise IndexError
                                 end)) xi
  end.

(** Lines 122-135 of [addElevation].  Line 135 compares with NaN, which
    no float equals. *)
Definition fill_elevation (no_data_value : pyfloat) (dem : grid pyfloat) : res (grid pyfloat) :=
  let _dem := dem in
  let _dem := assign_where (eq_mask no_data_value _dem) NaN _dem in
  let mask := invalid_mask _dem in
  let xxyy := meshgrid _dem in
  let x1y1 := select_unmasked mask xxyy in
  let newarr := select_unmasked mask _dem in
  match griddata_nearest x1y1 newarr xxyy with
  | Raise e => Raise e
  | Ok _dem => Ok (assign_where (eq_mask NaN _dem) no_data_value _dem)
  end.

(** Lines 199-213 of [addAttribute]: the same steps, but the points are
    selected with the mask of line 200, taken before NaN is written. *)
Definition fill_attribute (no_data_value : pyfloat) (data : grid pyfloat) : res (grid pyfloat) :=
  let mask := eq_mask no_data_value data in
  let data := assign_where mask NaN data in
  let xxyy := meshgrid data in
  let x1y1 := select_unmasked mask xxyy in
  let newarr := select_unmasked mask data in
  match griddata_nearest x1y1 newarr xxyy with
  | Raise e => Raise e
  | Ok data => Ok (assign_where (eq_mask NaN data) no_data_value data)
  end.

End WithTree.

(** The data model's rasters: every cell is a finite number. *)
Definition all_finite (a : grid pyfloat) : Prop :=
  Forall (Forall (fun v => isnan v = false)) a.

(** Some cell is not the sentinel. *)
Definition has_valid_cell (no_data_value : pyfloat) (a : grid pyfloat) : Prop :=
  Exists (Exists (fun v => float_eqb v no_data_value = false)) a.


(** What the fill relies on: the query answers with the index of a data
    point, and no data point is nearer than that one. *)
Definition is_nearest_query (nearest_index : list pos -> pos -> nat) : Prop :=
  forall (points : list pos) (q : pos),
    points <> [] ->
    exists p, points !! nearest_index points q = Some p /\
              forall p', In p' points -> (sqdist p q <= sqdist p' q)%Z.

(** The unmasked cells of a row and of a grid with their positions, in
    row-major order; [g] and [G] number the columns and the rows. *)
Fixpoint valid_cells_row (nd : pyfloat) (g : nat -> pos) (r : list pyfloat)
    : list (pos * pyfloat) :=
  match r with
  | [] => []
  | v :: rest =>
      (if float_eqb v nd then [] else [(g 0%nat, v)]) ++ valid_cells_row nd (g ∘ S) rest
  end.

Fixpoint valid_cells (nd : pyfloat) (G : nat -> nat -> pos) (a : grid pyfloat)
    : list (pos * pyfloat) :=
  match a with
  | [] => []
  | r :: rest => valid_cells_row nd (G 0%nat) r ++ valid_cells nd (G ∘ S) rest
  end.

(** The value that the nearest-neighbour query finds for position [q]
    among the unmasked cells of [a]. *)
Definition fill_value (nearest_index : list pos -> pos -> nat) (nd : pyfloat)
    (a : grid pyfloat) (q : pos) : pyfloat :=
  let cells := valid_cells nd (fun y x => (x, y)) a in
  default NaN (map snd cells !! nearest_index (map fst cells) q).

(** An instance in exact arithmetic: the first index at which the squared
    distance is least. *)
Fixpoint argmin_from (best : nat) (bestv : Z) (i : nat) (vs : list Z) : nat :=
  match vs with
  | [] => best
  | v :: rest =>
      if (v <? bestv)%Z then argmin_from i v (S i) rest
      else argmin_from best bestv (S i) rest
  end.

Definition nearest_first (points : list pos) (q : pos) : nat :=
  match map (fun p => sqdist p q) points with
  | [] => 0%nat
  | v :: rest => argmin_from 0 v 1 rest
  end.

(** The cell at column [x] of row [y]. *)
Definition cell (a : list (list pyfloat)) (y x : nat) : option pyfloat :=
  match a !! y with
  | Some row => row !! x
  | None => None
  end.

(** [out] is [a] with its no-data cells filled from the nearest valid
    cells: the same shape, every valid cell as it was, and in every cell
    the value of a valid cell of [a] than which no valid cell is nearer. *)
Definition filled_from_nearest (nd : pyfloat) (a out : grid pyfloat) : Prop :=
  map length out = map length a /\
  (forall y x v, cell a y x = Some v -> float_eqb v nd = false -> cell out y x = Some v) /\
  (forall y x u, cell out y x = Some u ->
     exists y0 x0,
       cell a y0 x0 = Some u /\ float_eqb u nd = false /\
       forall y1 x1 v1, cell a y1 x1 = Some v1 -> float_eqb v1 nd = false ->
                        (sqdist (x0, y0) (x, y) <= sqdist (x1, y1) (x, y))%Z).





End Raster.

(** ** The session of the remaining functions *)

(** The other functions drive LaGriT through [pylagrit] calls whose effect
    on the mesh is the kernel's business.  They are embedded as programs
    over a [world] made of the NumPy arrays they share with their caller
    (a heap, so that aliasing and in-place writes are visible) and the
    sequence of outside effects they cause, in order: calls into the
    session, file writes and removals, runs of a LaGriT script. *)

Module Session.

(** A row of the boundary array: x and y. *)
Definition point : Type := Q * Q.

Inductive ndarray : Type :=
| Ints (xs : list Z)
| Pairs (rows : list (Z * Z)).

(** Arguments of a [pylagrit] call, positional or keyword. *)
#[local] Unset Elimination Schemes.
Inductive arg : Type :=
| AStr (s : string)
| AInt (z : Z)
| ANum (q : Q)
| ABool (b : bool)
| ANone
| AList (l : list arg)
| AKw (key : string) (v : arg).
#[local] Set Elimination Schemes.

(** Lines of an AVS line-mesh file, as [_writeLineAVS] writes them. *)
Inductive avs_line : Type :=
| Header (nnodes nlines natts catts : nat)
| NodeLine (i : nat) (x y : Q)
| CellLine (i : nat) (mat_id : Z) (n1 n2 : Z)
| AttCount (n : nat)
| AttTypes (decls : list string)
| AttRow (i : nat) (vals : list Z)
| Blank.

(** Lines of a LaGriT control script. *)
Inductive lgline : Type :=
| Define (name : string) (value : arg)
| Perturb (selection : string) (dx dy dz : string)
| Line (text : string).

Inductive event : Type :=
| Call (ret : option string) (obj meth : string) (args : list arg)
| FileOpen (path : string)
| FileWrite (path : string) (line : avs_line)
| RasterWrite (path : string) (cells : Raster.grid Raster.pyfloat)
| FileRemove (path : string)
| CallLaGriT (script : list lgline).

Record world : Type := World { heap : list ndarray; trace : list event }.

Definition emit (e : event) : M world unit :=
  mmodify (fun w => {| heap := heap w; trace := trace w ++ [e] |}).

(** [obj.meth(args)] and [ret = obj.meth(args)] *)
Definition call (obj meth : string) (args : list arg) : M world unit :=
  emit (Call None obj meth args).
Definition call_as (ret obj meth : string) (args : list arg) : M world unit :=
  emit (Call (Some ret) obj meth args).

Definition massert (b : bool) (msg : string) : M world unit :=
  if b then mret tt else mraise (AssertionError msg).

(** *** NumPy arrays on the heap *)

Definition alloc (a : ndarray) : M world nat :=
  fun w => (Ok (length (heap w)), {| heap := heap w ++ [a]; trace := trace w |}).

Definition load (l : nat) : M world ndarray :=
  fun w => match heap w !! l with
           | Some a => (Ok a, w)
           | None => (Raise TypeError, w)
           end.

Definition load_ints (l : nat) : M world (list Z) :=
  a <- load l ;;
  match a with Ints xs => mret xs | Pairs _ => mraise TypeError end.

Definition load_pairs (l : nat) : M world (list (Z * Z)) :=
  a <- load l ;;
  match a with Pairs rows => mret rows | Ints _ => mraise TypeError end.

(** [np.shape(a)[0]] *)
Definition shape0 (l : nat) : M world nat :=
  a <- load l ;;
  mret (match a with Ints xs => length xs | Pairs rows => length rows end).

(** [a[i]] for a non-negative [i] *)
Definition getitem {A} (xs : list A) (i : nat) : M world A :=
  match xs !! i with
  | Some x => mret x
  | None => mraise IndexError
  end.

(** [np.empty((n,2),dtype=np.int)]: fresh storage; what it holds before
    it is written is not specified, zeros stand for it. *)
Definition np_empty_pairs (n : Z) : M world nat :=
  if (n <? 0)%Z then mraise (ValueError "negative dimensions are not allowed")
  else alloc (Pairs (repeat (0, 0)%Z (Z.to_nat n))).

(** [a[i] = row], in place; a negative [i] counts from the end. *)
Definition setitem_row (l : nat) (i : Z) (row : Z * Z) : M world unit :=
  fun w =>
    match heap w !! l with
    | Some (Pairs rows) =>
        let n := Z.of_nat (length rows) in
        let j := if (i <? 0)%Z then (i + n)%Z else i in
        if ((0 <=? j) && (j <? n))%Z
        then (Ok tt, {| heap := <[l := Pairs (<[Z.to_nat j := row]> rows)]> (heap w);
                        trace := trace w |})
        else (Raise IndexError, w)
    | _ => (Raise TypeError, w)
    end.

(** *** [generateLineConnectivity] (lines 19-33) *)

Definition generateLineConnectivity (nodes : list point) (connect_ends : bool)
    : M world nat :=
  let delta := (if connect_ends then 0 else -1)%Z in
  let size := length nodes in
  connectivity <- np_empty_pairs (Z.of_nat size + delta) ;;
  mfor (seq 0 (size - 1)) (fun i =>
    setitem_row connectivity (Z.of_nat i) (Z.of_nat i + 1, Z.of_nat i + 2)%Z) ;;;
  (if connect_ends then setitem_row connectivity (-1) (Z.of_nat size, 1%Z) else mret tt) ;;;
  mret connectivity.

(** *** [_writeLineAVS] (lines 35-99) *)

(** The assertions of lines 59-61 and 80-82, one per key. *)
Definition check_atts (atts : list (string * nat)) (count : nat) (msg : string -> string)
    : M world unit :=
  mfor atts (fun '(key, a) =>
    n <- shape0 a ;;
    massert (Nat.leb count n) (msg key)).

(** One attribute row: the index and the value of every attribute. *)
Fixpoint att_values (atts : list (string * nat)) (i : nat) : M world (list Z) :=
  match atts with
  | [] => mret []
  | (key, a) :: rest =>
      xs <- load_ints a ;;
      v <- getitem xs i ;;
      vs <- att_values rest i ;;
      mret (v :: vs)
  end.

Definition write_atts (outfile : string) (atts : list (string * nat)) (count : nat)
    (msg : string -> string) : M world unit :=
  check_atts atts count msg ;;;
  emit (FileWrite outfile (AttCount (length atts))) ;;;
  emit (FileWrite outfile (AttTypes (map (fun '(key, _) => key +:+ ", integer") atts))) ;;;
  mfor (seq 0 count) (fun i =>
    vs <- att_values atts i ;;
    emit (FileWrite outfile (AttRow (i + 1) vs))).

Definition _writeLineAVS (boundary : list point) (outfile : string)
    (connections material_id : option nat) (node_atts cell_atts : option (list (string * nat)))
    : M world unit :=
  let nnodes := length boundary in
  nlines <- match connections with Some c => shape0 c | None => mret 0%nat end ;;
  let natts := match node_atts with Some d => length d | None => 0%nat end in
  let catts := match cell_atts with Some d => length d | None => 0%nat end in
  match material_id with
  | Some m => n <- shape0 m ;;
              massert (Nat.leb nlines n) "Mismatch count between material ID and cells"
  | None => mret tt
  end ;;;
  emit (FileOpen outfile) ;;;
  emit (FileWrite outfile (Header nnodes nlines natts catts)) ;;;
  mfor (enumerate boundary) (fun '(i, p) =>
    emit (FileWrite outfile (NodeLine (i + 1) (fst p) (snd p)))) ;;;
  mfor (seq 0 nlines) (fun i =>
    mat_id <- match material_id with
              | Some m => xs <- load_ints m ;; getitem xs i
              | None => mret 1%Z
              end ;;
    rows <- match connections with
            | Some c => load_pairs c
            | None => mraise TypeError
            end ;;
    row <- getitem rows i ;;
    emit (FileWrite outfile (CellLine (i + 1) mat_id (fst row) (snd row)))) ;;;
  match node_atts with
  | Some ((_ :: _) as d) =>
      write_atts outfile d nnodes (fun key =>
        "Length of node attribute " +:+ key +:+ " does not match length of points array")
  | _ => mret tt
  end ;;;
  match cell_atts with
  | Some ((_ :: _) as d) =>
      write_atts outfile d nlines (fun key =>
        "Length of cell attribute " +:+ key +:+ " does not match length of elem array")
  | _ => mret tt
  end ;;;
  emit (FileWrite outfile Blank).

(** *** [buildUniformTriplane] (lines 384-472) *)

(** Line 419 *)
Definition length_scales (min_edge : Q) : list Q :=
  rev (map (fun i => (min_edge * inject_Z i)%Q) [1; 2; 4; 8; 16; 32; 64]%Z).

(** Lines 446-452, the body of the loop over the length scales *)
Definition refine_pass (ln : Q) : M world unit :=
  call "motri" "refine" [AKw "refine_option" (AStr "rivara"); AKw "refine_type" (AStr "edge");
                         AKw "values" (AList [ANum ln]);
                         AKw "inclusive_flag" (AStr "inclusive")] ;;;
  mfor (seq 0 3) (fun _ =>
    call "motri" "recon" [AInt 0] ;;;
    call "motri" "smooth" []) ;;;
  call "motri" "rmpoint_compress" [AKw "resetpts_itp" (ABool false)].

Definition buildUniformTriplane (boundary : list point) (outfile : option string)
    (counterclockwise : bool) (connectivity : option nat) (min_edge : Q)
    : M world string :=
  connectivity <- match connectivity with
                  | None => generateLineConnectivity boundary false
                  | Some c => mret c
                  end ;;
  _writeLineAVS boundary "poly_1.inp" (Some connectivity) None None None ;;;
  let length_scales := length_scales min_edge in
  call_as "mo_tmp" "lg" "read" [AStr "poly_1.inp"] ;;;
  call_as "motri" "lg" "create" [AKw "elem_type" (AStr "triplane")] ;;;
  call "motri" "setatt" [AStr "ipolydat"; AStr "no"] ;;;
  call "lg" "sendline" [AStr "copypts / motri / mo_tmp"] ;;;
  call "motri" "setatt" [AStr "imt"; AInt 1] ;;;
  call "mo_tmp" "delete" [] ;;;
  call "motri" "select" [] ;;;
  (if counterclockwise
   then call "motri" "triangulate" [AKw "order" (AStr "counterclockwise")]
   else call "motri" "triangulate" [AKw "order" (AStr "clockwise")]) ;;;
  call "motri" "setatt" [AStr "itetclr"; AInt 1] ;;;
  call "motri" "setatt" [AStr "motri"; AInt 1] ;;;
  call "motri" "resetpts_itp" [] ;;;
  call "lg" "sendline" [AStr "cmo/copy/mo/motri"] ;;;
  call "motri" "select" [] ;;;
  mfor length_scales refine_pass ;;;
  mfor (seq 0 6) (fun _ =>
    call "motri" "smooth" [] ;;;
    call "motri" "recon" [AInt 0] ;;;
    call "motri" "rmpoint_compress" [AKw "resetpts_itp" (ABool true)]) ;;;
  call "motri" "rmpoint_compress" [AKw "resetpts_itp" (ABool false)] ;;;
  call "motri" "recon" [AInt 1] ;;;
  call "motri" "smooth" [] ;;;
  call "motri" "recon" [AInt 0] ;;;
  call "motri" "recon" [AInt 1] ;;;
  call "motri" "setatt" [AStr "ipolydat"; AStr "yes"] ;;;
  match outfile with
  | Some f => if String.eqb f EmptyString then mret tt else call "motri" "dump" [AStr f]
  | None => mret tt
  end ;;;
  mret "motri".

(** The round of the specification, in its words: one longest-edge
    (Rivara) bisection pass at threshold [ln], then three times
    {reconnection, smoothing}, then a point compaction. *)
Definition spec_round (ln : Q) : list event :=
  [Call None "motri" "refine"
     [AKw "refine_option" (AStr "rivara"); AKw "refine_type" (AStr "edge");
      AKw "values" (AList [ANum ln]); AKw "inclusive_flag" (AStr "inclusive")];
   Call None "motri" "recon" [AInt 0]; Call None "motri" "smooth" [];
   Call None "motri" "recon" [AInt 0]; Call None "motri" "smooth" [];
   Call None "motri" "recon" [AInt 0]; Call None "motri" "smooth" [];
   Call None "motri" "rmpoint_compress" [AKw "resetpts_itp" (ABool false)]].

Definition is_refine (e : event) : bool :=
  match e with
  | Call _ _ meth _ => String.eqb meth "refine"
  | _ => false
  end.

Definition is_file_event (e : event) : bool :=
  match e with
  | FileOpen _ | FileWrite _ _ | RasterWrite _ _ | FileRemove _ => true
  | _ => false
  end.

(** Four corners of a square, clockwise. *)
Definition square4 : list point := [(0, 0); (0, 100); (100, 100); (100, 0)]%Q.

(** *** [buildRefinedTriplane] (lines 475-619) *)

Section WithNumpy.

(** [numpy.sqrt], [numpy.cos] and [numpy.arcsin] on floats *)
Variables np_sqrt np_cos np_arcsin : Q -> Q.

(** The value of the local [cmd] at line 619, line by line. *)
Definition refined_cmd (outfile : string) (h delta slope refine_dist : Q) : list lgline :=
  let h_extrude := (0.5 * h)%Q in
  let h_radius := np_sqrt ((0.5 * h_extrude) ^ 2 + (0.5 * h_extrude) ^ 2)%Q in
  let h_trans := (-0.5 * h_extrude + h_radius * np_cos (np_arcsin delta))%Q in
  let counterclockwise := false in
  [ Define "ID" (AStr "1");
    Define "OUTFILE_GMV" (AStr "mesh_1.gmv");
    Define "OUTFILE_AVS" (AStr outfile);
    Define "OUTFILE_LG" (AStr "mesh_1.lg");
    Define "POLY_FILE" (AStr "poly_1.inp");
    Define "LINE_FILE" (AStr "intersections_1.inp");
    Define "QUAD_FILE" (AStr "tmp_quad_1.inp");
    Define "EXCAVATE_FILE" (AStr "tmp_excavate_1.inp");
    Define "PRE_FINAL_FILE" (AStr "tmp_pre_final_1.inp");
    Define "PRE_FINAL_MASSAGE" (AStr "tmp_pre_final_massage_1.gmv");
    Define "H_SCALE" (ANum h);
    Define "H_EPS" (ANum (h * (1 # 10000000))%Q);
    Define "H_SCALE2" (ANum (1.5 * h)%Q);
    Define "H_EXTRUDE" (ANum h_extrude);
    Define "H_TRANS" (ANum h_trans);
    Define "H_PRIME" (ANum (0.8 * h)%Q);
    Define "H_PRIME2" (ANum (0.3 * h)%Q);
    Define "H_SCALE3" (ANum (3 * h)%Q);
    Define "H_SCALE8" (ANum (8 * h)%Q);
    Define "H_SCALE16" (ANum (16 * h)%Q);
    Define "H_SCALE32" (ANum (32 * h)%Q);
    Define "H_SCALE64" (ANum (64 * h)%Q);
    Define "PURTURB8" (ANum (8 * 0.05 * h)%Q);
    Define "PURTURB16" (ANum (16 * 0.05 * h)%Q);
    Define "PURTURB32" (ANum (32 * 0.05 * h)%Q);
    Define "PURTURB64" (ANum (64 * 0.05 * h)%Q);
    Define "PARAM_A" (ANum slope);
    Define "PARAM_B" (ANum (h * (1 - slope * refine_dist))%Q);
    Define "PARAM_A2" (ANum (0.5 * slope)%Q);
    Define "PARAM_B2" (ANum (h * (1 - 0.5 * slope * refine_dist))%Q);
    Define "THETA" (AStr "0.000000000000");
    Define "X1" (AStr "-0.000000000000");
    Define "Y1" (AStr "-0.000000000000");
    Define "Z1" (AStr "-0.000000000000");
    Define "X2" (AStr "0.000000000000");
    Define "Y2" (AStr "0.000000000000");
    Define "Z2" (AStr "0.000000000000");
    Define "FAMILY" (AStr "2");
    Define "OUTPUT_INTER_ID_SSINT" (AStr "id_tri_node_1.list");
    Line "read / POLY_FILE / mo_poly_work";
    Line "read / LINE_FILE / mo_line_work ";
    Line "cmo / create / mo_pts / / / triplane ";
    Line "copypts / mo_pts / mo_poly_work ";
    Line "cmo / select / mo_pts ";
    (if counterclockwise
     then Line "triangulate / counterclockwise # change to clockwise based on bndry"
     else Line "triangulate / clockwise # change to clockwise based on bndry");
    Line "cmo / setatt / mo_pts / imt / 1 0 0 / ID ";
    Line "cmo / setatt / mo_pts / itetclr / 1 0 0 / ID ";
    Line "resetpts / itp ";
    Line "cmo / delete / mo_poly_work ";
    Line "cmo / select / mo_pts ";
    Line "massage / H_SCALE64 / H_EPS  / H_EPS";
    Line "recon 0; smooth;recon 0;smooth;recon 0;smooth;recon 0";
    Line "resetpts / itp";
    Line "pset / p_move / attribute / itp / 1 0 0 / 0 / eq";
    Perturb "pset get p_move" "PERTURB64" "PERTURB64" "0.0";
    Line "recon 0; smooth;recon 0;smooth;recon 0;smooth;recon 0";
    Line "smooth;recon 0;smooth;recon 0;smooth;recon 0";
    Line "massage / H_SCALE32 / H_EPS / H_EPS";
    Line "resetpts / itp";
    Line "pset / p_move / attribute / itp / 1 0 0 / 0 / eq";
    Perturb "pset get p_move" "PERTURB32" "PERTURB32" "0.0";
    Line "recon 0; smooth;recon 0;smooth;recon 0;smooth;recon 0";
    Line "smooth;recon 0;smooth;recon 0;smooth;recon 0";
    Line "massage / H_SCALE16 / H_EPS  / H_EPS";
    Line "resetpts / itp";
    Line "pset / p_move / attribute / itp / 1 0 0 / 0 / eq";
    Perturb "pset get p_move" "PERTURB16" "PERTURB16" "0.0";
    Line "recon 0; smooth;recon 0;smooth;recon 0;smooth;recon 0";
    Line "smooth;recon 0;smooth;recon 0;smooth;recon 0";
    Line "massage / H_SCALE8 / H_EPS / H_EPS";
    Line "resetpts / itp";
    Line "pset / p_move / attribute / itp / 1 0 0 / 0 / eq";
    Perturb "pset get p_move" "PERTURB8" "PERTURB8" "0.0";
    Line "recon 0; smooth;recon 0;smooth;recon 0;smooth;recon 0";
    Line "smooth;recon 0;smooth;recon 0;smooth;recon 0";
    Line "cmo/addatt/ mo_pts /x_four/vdouble/scalar/nnodes ";
    Line "cmo/addatt/ mo_pts /fac_n/vdouble/scalar/nnodes ";
    Line "massage2/user_function2.lgi/H_PRIME/fac_n/1.e-5/1.e-5/1 0 0/strictmergelength ";
    Line "assign///maxiter_sm/1 ";
    Line "smooth;recon 0;smooth;recon 0;smooth;recon 0";
    Line "assign///maxiter_sm/10";
    Line "massage2/user_function.lgi/H_PRIME/fac_n/1.e-5/1.e-5/1 0 0/strictmergelength ";
    Line "cmo / DELATT / mo_pts / rf_field_name ";
    Line ("dump / " +:+ outfile +:+ " / mo_pts");
    Line "finish" ].

Definition buildRefinedTriplane (boundary feature : list point) (outfile : string)
    (h : Q) (connectivity : option nat) (delta slope refine_dist : Q) : M world unit :=
  connectivity <- match connectivity with
                  | None => generateLineConnectivity boundary false
                  | Some c => mret c
                  end ;;
  _writeLineAVS boundary "poly_1.inp" (Some connectivity) None None None ;;;
  _writeLineAVS feature "intersections_1.inp" None None None None ;;;
  let cmd := refined_cmd outfile h delta slope refine_dist in
  emit (CallLaGriT cmd).

End WithNumpy.

(** Modelled from the spec: the kernel runs the raw textual command
    script it is sent (the LaGriT executable is not under src/).  Its verb
    [define / NAME / value] binds a name; an argument of a later command
    that is a bound name stands for the value bound to it, and a name that
    no [define] binds has no value. *)
Fixpoint defined_value (name : string) (script : list lgline) : option arg :=
  match script with
  | [] => None
  | Define n v :: rest =>
      match defined_value name rest with
      | Some v' => Some v'
      | None => if String.eqb n name then Some v else None
      end
  | _ :: rest => defined_value name rest
  end.

(** The perturbation commands of a script, with their x and y arguments. *)
Definition perturbations (script : list lgline) : list (string * string) :=
  flat_map (fun l => match l with
                     | Perturb _ dx dy _ => [(dx, dy)]
                     | _ => []
                     end) script.

(** *** [addAttribute] (lines 168-266) *)

(** Python values that may be passed as [layers]. *)
#[local] Unset Elimination Schemes.
Inductive pyval : Type :=
| PInt (z : Z)
| PFloat (q : Q)
| PBool (b : bool)
| PStr (s : string)
| PNone
| PList (l : list pyval).
#[local] Set Elimination Schemes.

(** [isinstance(x,int)]; a Python [bool] is an [int]. *)
Definition isinstance_int (x : pyval) : bool :=
  match x with PInt _ | PBool _ => true | _ => false end.

(** [isinstance(x,(int,float))] *)
Definition isinstance_int_float (x : pyval) : bool :=
  match x with PInt _ | PBool _ | PFloat _ => true | _ => false end.

(** The items of [for x in v]: of a list its entries, of a string its
    characters; the other values are not iterable. *)
Definition py_iter (v : pyval) : res (list pyval) :=
  match v with
  | PList l => Ok l
  | PStr s => Ok (map (fun c => PStr (String c EmptyString)) (list_ascii_of_string s))
  | _ => Raise TypeError
  end.

(** The integer held by an [int] (or [bool]) *)
Definition int_value (x : pyval) : Z :=
  match x with
  | PInt z => z
  | PBool b => Z.b2z b
  | _ => 0%Z
  end.

(** [range(lo, hi)] *)
Definition py_range (lo hi : Z) : list Z :=
  map (fun i => (lo + Z.of_nat i)%Z) (seq 0 (Z.to_nat (hi - lo))).

(** ['%d' % z] *)
Definition fmt_dZ (z : Z) : string :=
  if (z <? 0)%Z then "-" +:+ fmt_d (Z.to_nat (- z)) else fmt_d (Z.to_nat z).

(** [a.filled()]: masked entries take NumPy's default fill value. *)
Definition np_filled (a : Raster.grid Raster.pyfloat) : Raster.grid Raster.pyfloat :=
  map (map (fun v => match v with
                     | Raster.NaN => Raster.Fin 100000000000000000000
                     | Raster.Fin _ => v
                     end)) a.

Section WithLibraries.

(** [scipy.misc.imresize(data, size, interp='nearest')] *)
Variable imresize : Raster.grid Raster.pyfloat -> Z * Z -> Raster.grid Raster.pyfloat.
(** The nearest-neighbour query behind [interpolate.griddata] *)
Variable nearest_index : list Raster.pos -> Raster.pos -> nat.
(** The five random letters of line 220 *)
Variable random_name : string.
(** [info['elements']], the element count the session reports *)
Variable elements : Z.

(** Lines 250-260, the body of the loop over the layers *)
Definition attribute_layer (attribute_name : string) (v : Z) (layer : pyval) : M world unit :=
  let start := (int_value layer - 1)%Z in
  let end_ := int_value layer in
  call "lg" "sendline" [AStr "cmo/setatt/ stacked_mesh eslayer 1"] ;;;
  call "lg" "sendline"
    [AStr ("cmo/setatt/ stacked_mesh eslayer/ " +:+ fmt_dZ (v * start) +:+ ","
           +:+ fmt_dZ (v * end_) +:+ " 2")] ;;;
  call_as "test_elt" "stacked_mesh" "eltset_attribute" [AStr "eslayer"; AInt 2] ;;;
  call "lg" "sendline"
    [AStr ("interpolate/map/stacked_mesh," +:+ attribute_name
           +:+ "/eltset,get,test_elt/extrusion,esatt")] ;;;
  call "stacked_mesh" "add"
    [AStr "add"; AStr attribute_name; AKw "value" (AInt (int_value layer * 10));
     AKw "stride" (AList [AStr "eltset"; AStr "get"; AStr "test_elt"]);
     AKw "attsrc" (AStr attribute_name)].

Definition addAttribute (data : Raster.grid Raster.pyfloat)
    (stacked_mesh_infile outfile : string) (dem_dimensions : list Z)
    (lower_left_corner cell_size : list Q) (number_of_layers : Z) (flip : string)
    (no_data_value : Raster.pyfloat) (attribute_name : option string) (layers : pyval)
    : M world string :=
  d1 <- getitem dem_dimensions 1 ;;
  d0 <- getitem dem_dimensions 0 ;;
  let data := imresize data (d1, d0) in
  data <- mlift (Raster.fill_attribute nearest_index no_data_value data) ;;
  let _array_out := "_temp_attrib_array.dat"%string in
  emit (RasterWrite _array_out (np_filled data)) ;;;
  let name := random_name in
  call_as "tmp_sheet" "lg" "read_sheetij"
    [AStr name; AStr _array_out; AList (map AInt dem_dimensions);
     AList (map ANum lower_left_corner); AList (map ANum cell_size);
     AKw "flip" (AStr flip)] ;;;
  call_as "extrusion" "tmp_sheet" "extrude" [ANum 10000] ;;;
  call "extrusion" "addatt" [AStr "esatt"; AKw "length" (AStr "nelements")] ;;;
  call "lg" "sendline"
    [AStr ("interpolate/voronoi/extrusion,esatt/1,0,0/" +:+ name +:+ ",elev")] ;;;
  call "tmp_sheet" "delete" [] ;;;
  call_as "stacked_mesh" "lg" "read" [AStr stacked_mesh_infile] ;;;
  attribute_name <- match attribute_name with
                    | Some n =>
                        call "stacked_mesh" "addatt" [AStr n; AKw "length" (AStr "nelements")] ;;;
                        mret n
                    | None => mret "itetclr"%string
                    end ;;
  call_as "info" "stacked_mesh" "information" [] ;;;
  v <- (if (number_of_layers =? 0)%Z then mraise ZeroDivisionError
        else mret (elements / number_of_layers)%Z) ;;
  call "lg" "sendline"
    [AStr "cmo/addatt/stacked_mesh/eslayer/VINT/scalar/nelements/linear/permanent/gxaf/0.0"] ;;;
  let layers := if isinstance_int_float layers then PList [layers]
                else match layers with
                     | PNone => PList (map PInt (py_range 1 (number_of_layers + 1)))
                     | _ => layers
                     end in
  items <- mlift (py_iter layers) ;;
  (if negb (forallb isinstance_int items)
   then mraise (ValueError "layers contains non-conforming data")
   else mret tt) ;;;
  mfor items (attribute_layer attribute_name v) ;;;
  call "extrusion" "delete" [] ;;;
  emit (FileRemove "_temp_attrib_array.dat") ;;;
  call "stacked_mesh" "dump" [AStr outfile] ;;;
  mret "stacked_mesh"%string.

(** What [addAttribute] has done when it reaches the check of line 247. *)
Definition events_before_check (filled : Raster.grid Raster.pyfloat)
    (stacked_mesh_infile : string) (dem_dimensions : list Z)
    (lower_left_corner cell_size : list Q) (flip : string)
    (attribute_name : option string) : list event :=
  [ RasterWrite "_temp_attrib_array.dat" (np_filled filled);
    Call (Some "tmp_sheet") "lg" "read_sheetij"
      [AStr random_name; AStr "_temp_attrib_array.dat"; AList (map AInt dem_dimensions);
       AList (map ANum lower_left_corner); AList (map ANum cell_size);
       AKw "flip" (AStr flip)];
    Call (Some "extrusion") "tmp_sheet" "extrude" [ANum 10000];
    Call None "extrusion" "addatt" [AStr "esatt"; AKw "length" (AStr "nelements")];
    Call None "lg" "sendline"
      [AStr ("interpolate/voronoi/extrusion,esatt/1,0,0/" +:+ random_name +:+ ",elev")];
    Call None "tmp_sheet" "delete" [];
    Call (Some "stacked_mesh") "lg" "read" [AStr stacked_mesh_infile] ]
  ++ match attribute_name with
     | Some n => [Call None "stacked_mesh" "addatt" [AStr n; AKw "length" (AStr "nelements")]]
     | None => []
     end
  ++ [ Call (Some "info") "stacked_mesh" "information" [];
       Call None "lg" "sendline"
         [AStr "cmo/addatt/stacked_mesh/eslayer/VINT/scalar/nelements/linear/permanent/gxaf/0.0"] ].

End WithLibraries.

(** A resampling for rasters that already have the requested size. *)
Definition imresize_same (data : Raster.grid Raster.pyfloat) (size : Z * Z)
    : Raster.grid Raster.pyfloat := data.

Definition is_kernel_call (e : event) : bool :=
  match e with
  | Call _ _ _ _ => true
  | _ => false
  end.

(** *** [generateComplexFacesets] (lines 621-796) *)

(** The argument [facesets]: an array of boundary material ids, or a dict
    holding such an array under ['all'] and possibly one under ['top'].
    Arrays are passed by reference. *)
Inductive facesets_arg : Type :=
| FsArray (a : nat)
| FsDict (d : gmap string nat).

(** [np.min(a)] *)
Definition np_min (xs : list Z) : res Z :=
  match xs with
  | [] => Raise (ValueError "zero-size array to reduction operation minimum which has no identity")
  | x :: rest => Ok (fold_left Z.min rest x)
  end.

(** [np.unique(a)]: the distinct values, in increasing order *)
Fixpoint insert_unique (x : Z) (l : list Z) : list Z :=
  match l with
  | [] => [x]
  | y :: rest =>
      if (x <? y)%Z then x :: l
      else if (x =? y)%Z then l
      else y :: insert_unique x rest
  end.
Definition np_unique (xs : list Z) : list Z := fold_right insert_unique [] xs.

(** [np.array(range(1, n+1))] *)
Definition np_range1 (n : nat) : list Z := map Z.of_nat (seq 1 n).

(** [np.all(a == b)] for two arrays of one length *)
Definition np_all_eq (a b : list Z) : bool :=
  Nat.eqb (length a) (length b) && forallb (fun p => (fst p =? snd p)%Z) (combine a b).

(** [deepcopy(a)], [a - c] and [a + c]: each makes a new array. *)
Definition np_deepcopy (a : nat) : M world nat :=
  xs <- load_ints a ;; alloc (Ints xs).
Definition np_sub_scalar (a : nat) (c : Z) : M world nat :=
  xs <- load_ints a ;; alloc (Ints (map (fun x => x - c)%Z xs)).
Definition np_add_scalar (a : nat) (c : Z) : M world nat :=
  xs <- load_ints a ;; alloc (Ints (map (fun x => x + c)%Z xs)).

(** ['ss%d_fs.faceset' % ss_id] *)
Definition faceset_file (ss_id : nat) : string := "ss" +:+ fmt_d ss_id +:+ "_fs.faceset".

Definition newline : string := String (ascii_of_nat 10) EmptyString.

(** Lines 776-789, the body of the loop over the faceset ids; it yields
    the file name it appends to [_all_facesets]. *)
Definition write_faceset (ss_id : nat) : M world string :=
  let fname := faceset_file ss_id in
  call_as "mo_tmp" "mo_surf" "copy" [] ;;;
  call "mo_tmp" "select" [] ;;;
  call_as "e_keep" "mo_tmp" "eltset_attribute"
    [AStr "id_side"; AInt (Z.of_nat ss_id); AKw "boolstr" (AStr "eq")] ;;;
  call_as "e_delete" "mo_tmp" "eltset_bool"
    [AKw "boolstr" (AStr "not"); AKw "eset_list" (AList [AStr "e_keep"])] ;;;
  call "mo_tmp" "rmpoint_eltset"
    [AStr "e_delete"; AKw "compress" (ABool true); AKw "resetpts_itp" (ABool false)] ;;;
  call "mo_tmp" "delatt" [AStr "layertyp"] ;;;
  call "mo_tmp" "delatt" [AStr "id_side"] ;;;
  call "lg" "sendline" [AStr ("dump / avs2 / " +:+ fname +:+ "/mo_tmp/ 0 0 0 2")] ;;;
  call "mo_tmp" "delete" [] ;;;
  mret fname.

Fixpoint write_facesets (ids : list nat) (_all_facesets : list string)
    : M world (list string) :=
  match ids with
  | [] => mret _all_facesets
  | ss_id :: rest =>
      fname <- write_faceset ss_id ;;
      write_facesets rest (_all_facesets ++ [fname])
  end.

(** Lines 661-667: the ids are shifted into a new array, which must hold
    exactly the values 1, 2, ..., without a gap. *)
Definition normalized_attributes (boundary_attributes : nat) : M world nat :=
  copy <- np_deepcopy boundary_attributes ;;
  least <- (xs <- load_ints boundary_attributes ;; mlift (np_min xs)) ;;
  shifted <- np_sub_scalar copy least ;;
  boundary_attributes <- np_add_scalar shifted 1 ;;
  ids <- load_ints boundary_attributes ;;
  massert (np_all_eq (np_unique ids) (np_range1 (length (np_unique ids))))
          "boundary_attributes cannot contain non-sequential values" ;;;
  mret boundary_attributes.

(** Lines 676-747: the exterior surface and the ids of its faces. *)
Definition surface_sides (mesh_file boundary_file : string) (has_top : bool) : M world unit :=
  call_as "cmo_in" "lg" "read" [AStr mesh_file] ;;;
  call "cmo_in" "resetpts_itp" [] ;;;
  call_as "cmo_bndry" "lg" "read" [AStr boundary_file] ;;;
  call "cmo_bndry" "resetpts_itp" [] ;;;
  call_as "mo_surf" "lg" "extract_surfmesh"
    [AKw "cmo_in" (AStr "cmo_in"); AKw "stride" (AList [AInt 1; AInt 0; AInt 0]);
     AKw "external" (ABool true); AKw "resetpts_itp" (ABool true)] ;;;
  call "mo_surf" "addatt"
    [AStr "id_side"; AKw "vtype" (AStr "vint"); AKw "rank" (AStr "scalar");
     AKw "length" (AStr "nelements")] ;;;
  call "mo_surf" "select" [] ;;;
  call "mo_surf" "settets_normal" [] ;;;
  call "mo_surf" "copyatt"
    [AStr "itetclr"; AKw "attname_sink" (AStr "id_side"); AKw "mo_src" (AStr "mo_surf")] ;;;
  mfor ["itetclr0"; "idnode0"; "idelem0"; "facecol"; "itetclr1"; "idface0";
        "nlayers"; "nnperlayer"; "neperlayer"; "ikey_utr"]%string
       (fun att => call "mo_surf" "delatt" [AStr att]) ;;;
  call "mo_surf" "select" [] ;;;
  call "mo_surf" "setatt" [AStr "id_side"; AInt 3] ;;;
  call_as "ptop" "mo_surf" "pset_attribute"
    [AStr "layertyp"; AInt (-2); AKw "comparison" (AStr "eq");
     AKw "stride" (AList [AInt 1; AInt 0; AInt 0])] ;;;
  call_as "pbot" "mo_surf" "pset_attribute"
    [AStr "layertyp"; AInt (-1); AKw "comparison" (AStr "eq");
     AKw "stride" (AList [AInt 1; AInt 0; AInt 0])] ;;;
  call_as "etop" "ptop" "eltset" [AKw "membership" (AStr "exclusive")] ;;;
  call_as "ebot" "pbot" "eltset" [AKw "membership" (AStr "exclusive")] ;;;
  call "mo_surf" "setatt"
    [AStr "id_side"; AInt 2; AKw "stride" (AList [AStr "eltset"; AStr "get"; AStr "etop"])] ;;;
  call "mo_surf" "setatt"
    [AStr "id_side"; AInt 1; AKw "stride" (AList [AStr "eltset"; AStr "get"; AStr "ebot"])] ;;;
  call "mo_surf" "copyatt"
    [AStr "id_side"; AKw "attname_sink" (AStr "itetclr"); AKw "mo_src" (AStr "mo_surf")] ;;;
  call "mo_surf" "select" [] ;;;
  call "mo_surf" "setatt" [AStr "imt"; AInt 1] ;;;
  call_as "esides" "mo_surf" "eltset_attribute" [AStr "id_side"; AInt 3] ;;;
  call_as "psides" "esides" "pset" [] ;;;
  call "mo_surf" "setatt"
    [AStr "imt"; AInt 2; AKw "stride" (AList [AStr "pset"; AStr "get"; AStr "ptop"])] ;;;
  call "mo_surf" "setatt"
    [AStr "imt"; AInt 1; AKw "stride" (AList [AStr "pset"; AStr "get"; AStr "pbot"])] ;;;
  call "mo_surf" "setatt"
    [AStr "imt"; AInt 3; AKw "stride" (AList [AStr "pset"; AStr "get"; AStr "psides"])] ;;;
  call "mo_surf" "select" [] ;;;
  call "mo_surf" "addatt"
    [AStr "zsave"; AKw "vtype" (AStr "vdouble"); AKw "rank" (AStr "scalar");
     AKw "length" (AStr "nnodes")] ;;;
  call "mo_surf" "copyatt"
    [AStr "zic"; AKw "mo_src" (AStr "mo_surf"); AKw "attname_sink" (AStr "zsave")] ;;;
  call "mo_surf" "setatt" [AStr "zic"; ANum 0] ;;;
  call "cmo_bndry" "setatt" [AStr "zic"; ANum 0] ;;;
  call "cmo_bndry" "math"
    [AStr "add"; AStr "itetclr"; AKw "value" (AInt 2);
     AKw "stride" (AList [AInt 1; AInt 0; AInt 0]); AKw "cmosrc" (AStr "cmo_bndry");
     AKw "attsrc" (AStr "itetclr")] ;;;
  call "mo_surf" "interpolate"
    [AStr "map"; AStr "id_side"; AStr "cmo_bndry"; AStr "itetclr";
     AKw "stride" (AList [AStr "eltset"; AStr "get"; AStr "esides"])] ;;;
  (if has_top then
     call "mo_surf" "addatt"
       [AStr "ioutlet"; AKw "vtype" (AStr "vint"); AKw "rank" (AStr "scalar");
        AKw "length" (AStr "nelements")] ;;;
     call "mo_surf" "addatt"
       [AStr "ilayer"; AKw "vtype" (AStr "vint"); AKw "rank" (AStr "scalar");
        AKw "length" (AStr "nelements")] ;;;
     call "mo_surf" "interpolate"
       [AStr "map"; AStr "ioutlet"; AStr "cmo_bndry"; AStr "ioutlet";
        AKw "stride" (AList [AStr "eltset"; AStr "get"; AStr "esides"])]
   else mret tt) ;;;
  call "mo_surf" "copyatt"
    [AStr "zsave"; AKw "mo_src" (AStr "mo_surf"); AKw "attname_sink" (AStr "zic")] ;;;
  call "mo_surf" "delatt" [AStr "zsave"] ;;;
  call "mo_surf" "setatt"
    [AStr "id_side"; AInt 2; AKw "stride" (AList [AStr "eltset"; AStr "get"; AStr "etop"])] ;;;
  call "mo_surf" "setatt"
    [AStr "id_side"; AInt 1; AKw "stride" (AList [AStr "eltset"; AStr "get"; AStr "ebot"])] ;;;
  call "mo_surf" "copyatt"
    [AStr "id_side"; AKw "attname_sink" (AStr "itetclr"); AKw "mo_src" (AStr "mo_surf")].

(** Lines 754-772: the faces of the top split get the next id. *)
Definition top_split (faceset_count : nat) : M world nat :=
  call "mo_surf" "select" [] ;;;
  call "mo_surf" "setatt" [AStr "ilayer"; ANum 0] ;;;
  call_as "elay_inc" "ptop" "eltset" [AKw "membership" (AStr "inclusive")] ;;;
  call "mo_surf" "setatt"
    [AStr "ilayer"; AInt 1;
     AKw "stride" (AList [AStr "eltset"; AStr "get"; AStr "elay_inc"])] ;;;
  call "mo_surf" "setatt"
    [AStr "ilayer"; AInt 0;
     AKw "stride" (AList [AStr "eltset"; AStr "get"; AStr "etop"])] ;;;
  call_as "e1" "mo_surf" "eltset_attribute"
    [AStr "ilayer"; AInt 1; AKw "boolstr" (AStr "eq")] ;;;
  call_as "e2" "mo_surf" "eltset_attribute"
    [AStr "ioutlet"; AInt 2; AKw "boolstr" (AStr "eq")] ;;;
  let faceset_count := (faceset_count + 1)%nat in
  call_as "e_out1" "mo_surf" "eltset_inter" [AList [AStr "e1"; AStr "e2"]] ;;;
  call "mo_surf" "setatt"
    [AStr "id_side"; AInt (Z.of_nat faceset_count);
     AKw "stride" (AList [AStr "eltset"; AStr "get"; AStr "e_out1"])] ;;;
  call "mo_surf" "delatt" [AStr "ioutlet"] ;;;
  call "mo_surf" "delatt" [AStr "ilayer"] ;;;
  mret faceset_count.

(** Lines 661-796, once the argument [facesets] has been taken apart.
    The local list [_cleanup] only collects file names and is never read;
    it is left out. *)
Definition classify_faces (outfile mesh_file : string) (boundary : list point)
    (boundary_attributes : nat) (cell_atts : option (list (string * nat)))
    (has_top : bool) : M world unit :=
  boundary_attributes <- normalized_attributes boundary_attributes ;;
  let boundary_file := "_boundary_line_colors.inp"%string in
  connections <- generateLineConnectivity boundary true ;;
  _writeLineAVS boundary boundary_file (Some connections) (Some boundary_attributes)
                None cell_atts ;;;
  surface_sides mesh_file boundary_file has_top ;;;
  let _all_facesets := [] in
  ids <- load_ints boundary_attributes ;;
  let faceset_count := (length (np_unique ids) + 2)%nat in
  faceset_count <- (if has_top then top_split faceset_count else mret faceset_count) ;;
  _all_facesets <- write_facesets (seq 1 faceset_count) _all_facesets ;;
  let cmd := "dump/exo/" +:+ outfile +:+ "/cmo_in///facesets &" +:+ newline
             +:+ String.concat (" &" +:+ newline) _all_facesets in
  call "lg" "sendline" [AStr cmd].

Definition generateComplexFacesets (outfile mesh_file : string) (boundary : list point)
    (facesets : facesets_arg) : M world unit :=
  sel <- match facesets with
         | FsDict d =>
             match d !! "all"%string with
             | None => mraise (KeyError "all")
             | Some all =>
                 match d !! "top"%string with
                 | Some top => mret (all, Some [("ioutlet"%string, top)], true)
                 | None => mret (all, None, false)
                 end
             end
         | FsArray a => mret (a, None, false)
         end ;;
  let '(boundary_attributes, cell_atts, has_top) := sel in
  classify_faces outfile mesh_file boundary boundary_attributes cell_atts has_top.

(** The array that holds the boundary material ids, and whether a top
    split is asked for (lines 653-659). *)
Definition facesets_all (facesets : facesets_arg) : option nat :=
  match facesets with
  | FsArray a => Some a
  | FsDict d => d !! "all"%string
  end.

Definition facesets_has_top (facesets : facesets_arg) : bool :=
  match facesets with
  | FsArray _ => false
  | FsDict d => match d !! "top"%string with Some _ => true | None => false end
  end.

(** The command that writes the faceset file of [ss_id] (line 787) *)
Definition faceset_dump (ss_id : nat) : event :=
  Call None "lg" "sendline"
    [AStr ("dump / avs2 / " +:+ faceset_file ss_id +:+ "/mo_tmp/ 0 0 0 2")].

Definition is_faceset_dump (e : event) : bool :=
  match e with
  | Call None obj meth [AStr s] =>
      String.eqb obj "lg" && String.eqb meth "sendline" && String.prefix "dump / avs2 / " s
  | _ => false
  end.

(** The assignment of the id [n] to the top-split faces (line 769) *)
Definition top_split_setatt (n : nat) : event :=
  Call None "mo_surf" "setatt"
    [AStr "id_side"; AInt (Z.of_nat n);
     AKw "stride" (AList [AStr "eltset"; AStr "get"; AStr "e_out1"])].

(** The command that bundles the mesh and the faceset files (lines 792-795) *)
Definition exodus_dump (outfile : string) (files : list string) : event :=
  Call None "lg" "sendline"
    [AStr ("dump/exo/" +:+ outfile +:+ "/cmo_in///facesets &" +:+ newline
           +:+ String.concat (" &" +:+ newline) files)].

(** The ids after the shift that makes the least of them 1 *)
Definition shifted_ids (least : Z) (xs : list Z) : list Z :=
  map (fun x => x + 1)%Z (map (fun x => x - least)%Z xs).

(** A boundary of three points. *)
Definition triangle3 : list point := [(0, 0); (0, 100); (100, 0)]%Q.

(** The ids are exactly 1, ..., k, in the words of the specification. *)
Definition ids_are_1_to (k : Z) (ids : list Z) : Prop :=
  forall v, In v ids <-> (1 <= v <= k)%Z.

(** Every array of [h0] is still there, with the same content. *)
Definition keeps (h0 : list ndarray) (w : world) : Prop :=
  forall l a, h0 !! l = Some a -> heap w !! l = Some a.

(** The program [c] succeeds with [a] from every world, leaves the heap as
    it is and adds exactly the events [evs]. *)
Definition emits {A} (c : M world A) (a : A) (evs : list event) : Prop :=
  forall w, c w = (Ok a, {| heap := heap w; trace := trace w ++ evs |}).

(** The trace of [w] is [t0] followed by events that all satisfy [P]. *)
Definition grown_by (P : event -> bool) (t0 : list event) (w : world) : Prop :=
  exists evs, trace w = t0 ++ evs /\ forallb P evs = true.

(** While a file is written the arrays stay as they are and only file
    events are added. *)
Definition writing (h : list ndarray) (t0 : list event) (w : world) : Prop :=
  heap w = h /\ grown_by is_file_event t0 w.

(** *** What the functions above leave in the heap and in the trace *)

(** The edges of the polyline over [n] nodes: node [i+1] to node [i+2]
    for every [i] below [n-1], and the closing edge from node [n] back to
    node 1 when the ends are connected. *)
Definition polyline_rows (n : nat) (connect_ends : bool) : list (Z * Z) :=
  map (fun i => (Z.of_nat i + 1, Z.of_nat i + 2)%Z) (seq 0 (n - 1))
  ++ (if connect_ends then [(Z.of_nat n, 1%Z)] else []).

(** The node lines and the cell lines of an AVS line file; a cell
    without material id carries 1 (line 54). *)
Definition avs_nodes (boundary : list point) : list avs_line :=
  imap (fun i p => NodeLine (i + 1) (fst p) (snd p)) boundary.

Definition avs_cells (material_id : option (list Z)) (rows : list (Z * Z)) : list avs_line :=
  imap (fun i row =>
          CellLine (i + 1)
                   (match material_id with Some ids => nth i ids 1%Z | None => 1%Z end)
                   (fst row) (snd row)) rows.

(** What writing a line file without attribute blocks adds to the trace:
    the file is opened, then come the header, one line per node, one line
    per cell and the closing empty line. *)
Definition avs_file (outfile : string) (boundary : list point)
    (material_id : option (list Z)) (rows : list (Z * Z)) : list event :=
  FileOpen outfile
  :: map (FileWrite outfile)
         (Header (length boundary) (length rows) 0 0
          :: avs_nodes boundary ++ avs_cells material_id rows ++ [Blank]).

(** From every world whose heap is [h] the program [c] returns [a], leaves
    the heap as it is and adds exactly the events [evs]. *)
Definition emits_on {A} (h : list ndarray) (c : M world A) (a : A) (evs : list event) : Prop :=
  forall w, heap w = h -> c w = (Ok a, {| heap := h; trace := trace w ++ evs |}).

(** An attribute block of an AVS line file (lines 57-76 and 78-97): the
    number of attributes, their declarations, and one row per node or
    cell with the value of every attribute there.  Without attributes
    there is no block. *)
Definition avs_att_block (atts : list (string * list Z)) (count : nat) : list avs_line :=
  match atts with
  | [] => []
  | _ :: _ =>
      AttCount (length atts)
      :: AttTypes (map (fun kv => fst kv +:+ ", integer") atts)
      :: map (fun i => AttRow (i + 1) (map (fun kv => nth i (snd kv) 0%Z) atts)) (seq 0 count)
  end.

(** The file up to and including its cell lines. *)
Definition avs_head (outfile : string) (boundary : list point)
    (material_id : option (list Z)) (rows : list (Z * Z)) (natts catts : nat) : list event :=
  FileOpen outfile
  :: map (FileWrite outfile)
         (Header (length boundary) (length rows) natts catts
          :: avs_nodes boundary ++ avs_cells material_id rows).

(** The whole file, attribute blocks included. *)
Definition avs_file_atts (outfile : string) (boundary : list point)
    (material_id : option (list Z)) (rows : list (Z * Z))
    (node_atts cell_atts : list (string * list Z)) : list event :=
  avs_head outfile boundary material_id rows (length node_atts) (length cell_atts)
  ++ map (FileWrite outfile)
         (avs_att_block node_atts (length boundary)
          ++ avs_att_block cell_atts (length rows) ++ [Blank]).

(** The dict [atts] of arrays holds the values [vals], key by key. *)
Definition atts_hold (h : list ndarray) (atts : option (list (string * nat)))
    (vals : list (string * list Z)) : Prop :=
  match atts with
  | None => vals = []
  | Some d =>
      Forall2 (fun kl kv => fst kv = fst kl /\ h !! snd kl = Some (Ints (snd kv))) d vals
  end.

Definition is_dump (e : event) : bool :=
  match e with
  | Call _ _ meth _ => String.eqb meth "dump"
  | _ => false
  end.

Definition is_remove (e : event) : bool :=
  match e with
  | FileRemove _ => true
  | _ => false
  end.

(** What [addAttribute] does after the last pass of its loop (lines
    262-265). *)
Definition attribute_closing (outfile : string) : list event :=
  [ Call None "extrusion" "delete" [];
    FileRemove "_temp_attrib_array.dat";
    Call None "stacked_mesh" "dump" [AStr outfile] ].

(** One pass of the loop of lines 250-260 for the integer [layer], with
    [v] elements per layer: every element is marked 1, the band from
    element [v * (layer - 1)] to element [v * layer] is marked 2 and
    selected, the extruded attribute is mapped onto the selection, and ten
    times the layer number is added there. *)
Definition layer_events (attribute_name : string) (v layer : Z) : list event :=
  [ Call None "lg" "sendline" [AStr "cmo/setatt/ stacked_mesh eslayer 1"];
    Call None "lg" "sendline"
      [AStr ("cmo/setatt/ stacked_mesh eslayer/ " +:+ fmt_dZ (v * (layer - 1)) +:+ ","
             +:+ fmt_dZ (v * layer) +:+ " 2")];
    Call (Some "test_elt") "stacked_mesh" "eltset_attribute" [AStr "eslayer"; AInt 2];
    Call None "lg" "sendline"
      [AStr ("interpolate/map/stacked_mesh," +:+ attribute_name
             +:+ "/eltset,get,test_elt/extrusion,esatt")];
    Call None "stacked_mesh" "add"
      [AStr "add"; AStr attribute_name; AKw "value" (AInt (layer * 10));
       AKw "stride" (AList [AStr "eltset"; AStr "get"; AStr "test_elt"]);
       AKw "attsrc" (AStr attribute_name)] ].

(** *** [addElevation] (lines 101-165) *)

(** A [tinerator.DEM] instance, as [addElevation] reads it. *)
Record DEM : Type := MkDEM {
  ncols : Z;
  nrows : Z;
  xll_corner : Q;
  yll_corner : Q;
  cell_size : Q;
  no_data_value : Raster.pyfloat;
  dem : Raster.grid Raster.pyfloat }.

(** [v <= 0.], [np.sign(v)] and [a - b] on floats; a comparison with NaN
    is false and arithmetic on NaN gives NaN. *)
Definition float_le0 (v : Raster.pyfloat) : bool :=
  match v with
  | Raster.Fin q => Qle_bool q 0
  | Raster.NaN => false
  end.

Definition np_sign (v : Raster.pyfloat) : Raster.pyfloat :=
  match v with
  | Raster.Fin q => Raster.Fin (inject_Z (Z.sgn (Qnum q)))
  | Raster.NaN => Raster.NaN
  end.

Definition float_sub (a b : Raster.pyfloat) : Raster.pyfloat :=
  match a, b with
  | Raster.Fin x, Raster.Fin y => Raster.Fin (x - y)
  | _, _ => Raster.NaN
  end.

(** A float passed to a [pylagrit] call; NaN has no rational and goes as
    Python prints it. *)
Definition arg_of_float (v : Raster.pyfloat) : arg :=
  match v with
  | Raster.Fin q => ANum q
  | Raster.NaN => AStr "nan"
  end.

(** Lines 146 and 147 *)
Definition dud_comparison (no_data_value : Raster.pyfloat) : string :=
  if float_le0 no_data_value then "le" else "ge".

Definition dud_value (no_data_value : Raster.pyfloat) : Raster.pyfloat :=
  float_sub no_data_value (np_sign no_data_value).

Section WithTree.

(** The nearest-neighbour query behind [interpolate.griddata] *)
Variable nearest_index : list Raster.pos -> Raster.pos -> nat.

Definition addElevation (dem_ : DEM) (triplane_path : string) (flip : string)
    (fileout : option string) : M world unit :=
  let dem_dimensions := [ncols dem_; nrows dem_] in
  let lower_left_corner := [xll_corner dem_; yll_corner dem_] in
  let cell_size := [cell_size dem_; cell_size dem_] in
  let fileout := match fileout with None => triplane_path | Some f => f end in
  _dem <- mlift (Raster.fill_elevation nearest_index (no_data_value dem_) (dem dem_)) ;;
  let _array_out := "_temp_elev_array.dat"%string in
  emit (RasterWrite _array_out (np_filled _dem)) ;;;
  call_as "tmp_sheet" "lg" "read_sheetij"
    [AStr "surfacemesh"; AStr _array_out; AList (map AInt dem_dimensions);
     AList (map ANum lower_left_corner); AList (map ANum cell_size);
     AKw "flip" (AStr flip)] ;;;
  let comp := dud_comparison (no_data_value dem_) in
  let dud_value := dud_value (no_data_value dem_) in
  call_as "pduds" "tmp_sheet" "pset_attribute"
    [AStr "zic"; arg_of_float dud_value; AKw "comparison" (AStr comp);
     AKw "name" (AStr "pduds")] ;;;
  call_as "eduds" "pduds" "eltset"
    [AKw "membership" (AStr "inclusive"); AKw "name" (AStr "eduds")] ;;;
  call "tmp_sheet" "rmpoint_eltset"
    [AStr "eduds"; AKw "compress" (ABool true); AKw "resetpts_itp" (ABool true)] ;;;
  call "tmp_sheet" "addatt" [AStr "z_elev"] ;;;
  call "tmp_sheet" "copyatt" [AStr "zic"; AStr "z_elev"; AStr "tmp_sheet"] ;;;
  call "tmp_sheet" "setatt" [AStr "zic"; ANum 0] ;;;
  call_as "triplane" "lg" "read" [AStr triplane_path; AKw "name" (AStr "triplanemesh")] ;;;
  call "triplane" "addatt" [AStr "z_new"] ;;;
  call "triplane" "interpolate"
    [AStr "continuous"; AStr "z_new"; AStr "tmp_sheet"; AStr "z_elev"] ;;;
  call "triplane" "copyatt" [AStr "z_new"; AStr "zic"] ;;;
  call "triplane" "delatt" [AStr "z_new"] ;;;
  call "tmp_sheet" "delete" [] ;;;
  call "triplane" "dump" [AStr fileout] ;;;
  emit (FileRemove _array_out).

End WithTree.

(** Modelled from the spec: the kernel's selection of nodes by an
    attribute predicate.  [pset_attribute('zic', value, comparison=comp)]
    selects the nodes whose [zic] is at most [value] for ['le'] and at
    least [value] for ['ge']; no number compares with NaN. *)
Definition pset_selects (comp : string) (value zic : Raster.pyfloat) : bool :=
  match zic, value with
  | Raster.Fin z, Raster.Fin v =>
      if String.eqb comp "le" then Qle_bool z v
      else if String.eqb comp "ge" then Qle_bool v z
      else false
  | _, _ => false
  end.

End Session.

(** ** [generateFaceSetsNaive] (lines 352-381) *)

Module NaiveFacesets.

(** What may be passed as [stacked_mesh]: a [pylagrit.PyLaGriT.MO] with
    its name in the session, or something else. *)
Inductive pyobj : Type :=
| MeshObject (name : string)
| OtherObject.

(** The outside effects of the function, in order. *)
Inductive effect : Type :=
| Written (path content : string)
| SendLine (cmd : string)
| Removed (path : string).

(** The paths that exist on disk, and what has been done so far. *)
Record session : Type := MkSession { disk : gset string; log : list effect }.

(** How a call ends: it falls off the end, or raises.  [os.remove] of a
    path that does not exist raises [FileNotFoundError]. *)
Inductive outcome : Type :=
| Returned
| Raised (e : exn)
| FileNotFoundError (path : string).

(** [with open(path,'w') as f: f.write(content)] *)
Definition write_file (path content : string) (s : session) : session :=
  {| disk := {[ path ]} ∪ disk s; log := log s ++ [Written path content] |}.

(** [for f in paths: os.remove(f)] *)
Fixpoint remove_all (paths : list string) (s : session) : outcome * session :=
  match paths with
  | [] => (Returned, s)
  | f :: rest =>
      if decide (f ∈ disk s)
      then remove_all rest {| disk := disk s ∖ {[ f ]}; log := log s ++ [Removed f] |}
      else (FileNotFoundError f, s)
  end.

(** The items of a string, as [list.extend] reads them: its characters. *)
Definition chars (s : string) : list string :=
  map (fun c => String c EmptyString) (list_ascii_of_string s).

Section WithKernel.

(** [Infiles.get_facesets3], a LaGriT script of [tinerator.lg_infiles] *)
Variable get_facesets3 : string.
(** The files on disk once the kernel has run a command line.  Which
    files a command makes or deletes is the kernel's business. *)
Variable lagrit : string -> gset string -> gset string.

Definition sendline (cmd : string) (s : session) : session :=
  {| disk := lagrit cmd (disk s); log := log s ++ [SendLine cmd] |}.

Definition generateFaceSetsNaive (stacked_mesh : pyobj) (outfile : string) (s : session)
    : outcome * session :=
  match stacked_mesh with
  | OtherObject => (Raised (ValueError "stacked_mesh must be a PyLaGriT mesh object"), s)
  | MeshObject name =>
      let tmp_infile := "infile_tmp_get_facesets3.mlgi"%string in
      let s := write_file tmp_infile get_facesets3 s in
      let s := sendline ("define CMO_PRISM " +:+ name) s in
      let s := sendline ("infile " +:+ tmp_infile) s in
      let s := sendline ("dump/exo/" +:+ outfile +:+ "/CMO_PRISM///faceets &") s in
      let s := sendline "fs1_bottom.avs fs2_top.avs fs3_sides_all.avs" s in
      let _cleanup := ["fs1_bottom.avs"; "fs2_top.avs"; "fs3_sides_all.avs"]%string in
      let _cleanup := _cleanup ++ chars tmp_infile in
      remove_all _cleanup s
  end.

End WithKernel.

End NaiveFacesets.

(** * Properties *)

(** ** Layer stacking *)

Section StackLayersFacts.
Import StackLayers.
Local Open Scope Q_scope.

Lemma lowered_refl (s : list node) : lowered 0 s (map (sub_zic 0) s).
Proof.
  induction s as [|n s IH]; constructor; auto.
  cbn. repeat split; reflexivity.
Qed.

Lemma lowered_step (d v : Q) (s s' : list node) :
  lowered d s s' -> lowered (d + v) s (map (sub_zic v) s').
Proof.
  induction 1 as [|n n' s s' (Hx & Hy & Hz) _ IH]; constructor; auto.
  cbn. repeat split; auto. rewrite Hz. ring.
Qed.

Lemma lowered_lookup (d : Q) (s s' : list node) (j : nat) (n : node) :
  lowered d s s' -> s !! j = Some n ->
  exists n', s' !! j = Some n' /\ zic n' == zic n - d.
Proof.
  intros H. revert j. induction H as [|a a' s s' (_ & _ & Hz) _ IH]; intros [|j] Hj;
    try discriminate.
  - injection Hj as <-. exists a'. split; [reflexivity | exact Hz].
  - apply IH, Hj.
Qed.

Lemma lowered_proper (d d' : Q) (s s' : list node) :
  d == d' -> lowered d s s' -> lowered d' s s'.
Proof.
  intros Hd. induction 1 as [|n n' s s' (Hx & Hy & Hz) _ IH]; constructor; auto.
  repeat split; auto. rewrite Hz, Hd. reflexivity.
Qed.

(** C1 (as the code has it).  With thicknesses [0, 10, 20] the single
    session object is lowered three times in a row, by 0, then 10, then
    20, and dumped after each step: the three layer surfaces lie 0, 10 and
    30 below the input surface (the running sum of the list), exactly
    three surfaces are stacked, and every column of the stack is 30 high. *)
Theorem stackLayers_0_10_20_running_sum
    (fs cm : gmap string mo) (infile outfile : string) (surf : list node)
    (matids : option (list Z)) (xy_subset : option string)
    (nlayers : option (list string)) :
  fs !! infile = Some (Surface surf) ->
  exists k' s1 s2 s3,
    stackLayers infile outfile [0; 10; 20] matids xy_subset nlayers (Kernel fs cm)
      = (Ok "CMO_PRISM"%string, k') /\
    cmos k' !! "CMO_PRISM"%string = Some (Stacked [s3; s2; s1]) /\
    lowered 0 surf s1 /\ lowered 10 surf s2 /\ lowered 30 surf s3 /\
    forall j n, surf !! j = Some n ->
      exists e, column_extent [s3; s2; s1] j = Some e /\ e == 30.
Proof.
  intros Hin.
  set (s1 := map (sub_zic 0) surf).
  set (s2 := map (sub_zic 10) s1).
  set (s3 := map (sub_zic 20) s2).
  assert (H1 : lowered 0 surf s1) by apply lowered_refl.
  assert (H2 : lowered 10 surf s2).
  { apply lowered_proper with (d := 0 + 10); [ring | apply lowered_step, H1]. }
  assert (H3 : lowered 30 surf s3).
  { apply lowered_proper with (d := 10 + 20); [ring | apply lowered_step, H2]. }
  eexists _, s1, s2, s3. split; [| split; [| repeat (split; [eassumption |])]].
  - unfold stackLayers, mbind, mlift, normalize. cbn [negb Qeq_bool].
    change (Qeq_bool 0 0) with true. cbn [negb].
    unfold lg_read at 1. cbn [files cmos]. rewrite Hin.
    unfold dump_layers, enumerate. cbn [enumerate_from mfor].
    unfold mbind, mmodify, mo_math_sub_zic, mo_dump, mret, mo_delete, lg_create,
      mo_stack_layers, mo_stack_fill, mo_resetpts_itp, mo_addatt.
    cbn [files cmos fst snd].
    repeat (rewrite ?alter_insert_eq, ?lookup_insert_eq; cbn [files cmos]).
    change (stack_files [0; 10; 20])
      with ["layer3.inp"; "layer2.inp"; "layer1.inp"]%string.
    cbn [read_surfaces].
    simplify_map_eq. cbn [files cmos]. simplify_map_eq. reflexivity.
  - cbn [cmos]. simplify_map_eq. reflexivity.
  - intros j n Hj.
    destruct (lowered_lookup _ _ _ _ _ H1 Hj) as (n1 & Hn1 & Hz1).
    destruct (lowered_lookup _ _ _ _ _ H3 Hj) as (n3 & Hn3 & Hz3).
    exists (zic n1 - zic n3). split.
    + unfold column_extent. cbn [head last]. rewrite Hn3, Hn1. reflexivity.
    + rewrite Hz1, Hz3. ring.
Qed.

Lemma stackLayers_0_10_20_running_sum_witness :
  exists k' s1 s2 s3,
    stackLayers "surface.inp" "stacked.inp" [0; 10; 20] (Some [1; 2; 3]%Z) None None
      (Kernel {[ "surface.inp"%string := Surface [Node 0 0 100; Node 1 0 105] ]} ∅)
      = (Ok "CMO_PRISM"%string, k') /\
    cmos k' !! "CMO_PRISM"%string = Some (Stacked [s3; s2; s1]) /\
    lowered 0 [Node 0 0 100; Node 1 0 105] s1 /\
    lowered 10 [Node 0 0 100; Node 1 0 105] s2 /\
    lowered 30 [Node 0 0 100; Node 1 0 105] s3 /\
    forall j n, [Node 0 0 100; Node 1 0 105] !! j = Some n ->
      exists e, column_extent [s3; s2; s1] j = Some e /\ e == 30.
Proof.
  apply (stackLayers_0_10_20_running_sum
           {[ "surface.inp"%string := Surface [Node 0 0 100; Node 1 0 105] ]} ∅
           "surface.inp" "stacked.inp" [Node 0 0 100; Node 1 0 105]
           (Some [1; 2; 3]%Z) None None).
  vm_compute. reflexivity.
Defined.

(** C1 as stated fails on a one-node surface at height 0: the third layer
    surface is dumped at height -30, which is not "lowered by its own
    offset 20", and the column is 30 high, not 20. *)
Lemma stackLayers_0_10_20_not_per_layer_offset :
  let surf := [Node 0 0 0] in
  let r := stackLayers "surface.inp" "stacked.inp" [0; 10; 20] (Some [1; 2; 3]%Z) None None
             (Kernel {[ "surface.inp"%string := Surface surf ]} ∅) in
  fst r = Ok "CMO_PRISM"%string /\
  files (snd r) !! "layer3.inp"%string = Some (Surface [Node 0 0 (-30)]) /\
  cmos (snd r) !! "CMO_PRISM"%string
    = Some (Stacked [[Node 0 0 (-30)]; [Node 0 0 (-10)]; [Node 0 0 0]]) /\
  ~ lowered 20 surf [Node 0 0 (-30)] /\
  exists e, column_extent [[Node 0 0 (-30)]; [Node 0 0 (-10)]; [Node 0 0 0]] 0 = Some e /\
            ~ e == 20.
Proof.
  cbv zeta. split; [| split; [| split; [| split]]].
  - vm_compute. reflexivity.
  - vm_compute. reflexivity.
  - vm_compute. reflexivity.
  - intros H. inversion H as [|? ? ? ? (_ & _ & Hz) _]; subst.
    cbn in Hz. revert Hz. unfold Qeq. cbn. lia.
  - eexists. split; [reflexivity|]. unfold Qeq. cbn. lia.
Qed.

(** C6 (as the code has it).  Lines 284-287 on a non-empty thickness list
    and a material-id list: every accepted call leaves a thickness list
    whose first entry is 0; when the first thickness is not 0, a 0 and a
    material id 0 are prepended and the call is accepted exactly when the
    two lists have the same length, a mismatch raising the assertion
    before the session is touched; when the first thickness is already 0
    the lists are passed on as they are and their lengths are not
    compared. *)
Theorem stackLayers_normalize_guarded (l0 : Q) (rest : list Q) (m : list Z) :
  (forall ls ms, normalize (l0 :: rest) (Some m) = Ok (ls, ms) ->
     exists h t, ls = h :: t /\ h == 0) /\
  (~ l0 == 0 ->
     (length (l0 :: rest) = length m ->
        normalize (l0 :: rest) (Some m) = Ok (0 :: l0 :: rest, Some (0%Z :: m))) /\
     (length (l0 :: rest) <> length m ->
        normalize (l0 :: rest) (Some m) = Raise (AssertionError EmptyString) /\
        forall infile outfile xy_subset nlayers k,
          stackLayers infile outfile (l0 :: rest) (Some m) xy_subset nlayers k
            = (Raise (AssertionError EmptyString), k))) /\
  (l0 == 0 -> normalize (l0 :: rest) (Some m) = Ok (l0 :: rest, Some m)).
Proof.
  unfold normalize.
  destruct (Qeq_bool l0 0) eqn:E; cbn [negb].
  - apply Qeq_bool_iff in E. split; [| split].
    + intros ls ms [= <- <-]. eauto.
    + contradiction.
    + reflexivity.
  - assert (Hne : ~ l0 == 0).
    { intros H. apply Qeq_bool_iff in H. congruence. }
    cbv zeta.
    change (Nat.eqb (length (0 :: l0 :: rest)) (length (0%Z :: m)))
      with (Nat.eqb (length (l0 :: rest)) (length m)).
    split; [| split].
    + intros ls ms. destruct (Nat.eqb _ _); [|discriminate].
      intros [= <- <-]. exists 0, (l0 :: rest). split; reflexivity.
    + intros _. split.
      * intros Hl. rewrite Hl, Nat.eqb_refl. reflexivity.
      * intros Hl. apply Nat.eqb_neq in Hl. rewrite Hl. split; [reflexivity |].
        intros infile outfile xy nl k. unfold stackLayers, mbind, mlift, normalize.
        rewrite E. cbn [negb]. cbv zeta.
        change (Nat.eqb (length (0 :: l0 :: rest)) (length (0%Z :: m)))
          with (Nat.eqb (length (l0 :: rest)) (length m)).
        rewrite Hl. reflexivity.
    + contradiction.
Qed.

Lemma stackLayers_normalize_guarded_witness :
  normalize [5; 10] (Some [1; 2]%Z) = Ok ([0; 5; 10], Some [0; 1; 2]%Z) /\
  normalize [5; 10] (Some [1]%Z) = Raise (AssertionError EmptyString) /\
  normalize [0; 10] (Some [1; 2]%Z) = Ok ([0; 10], Some [1; 2]%Z).
Proof.
  destruct (stackLayers_normalize_guarded 5 [10] [1; 2]%Z) as (_ & H1 & _).
  destruct (stackLayers_normalize_guarded 5 [10] [1]%Z) as (_ & H2 & _).
  destruct (stackLayers_normalize_guarded 0 [10] [1; 2]%Z) as (_ & _ & H3).
  split; [| split].
  - apply H1; [unfold Qeq; cbn; lia | reflexivity].
  - apply H2; [unfold Qeq; cbn; lia | cbn; lia].
  - apply H3. reflexivity.
Defined.

(** C6 as stated fails when the first thickness is already 0: two
    thicknesses with a single material id are accepted and the stack is
    built. *)
Lemma stackLayers_mismatch_accepted :
  length [0; 10] <> length [1%Z] /\
  normalize [0; 10] (Some [1%Z]) = Ok ([0; 10], Some [1%Z]) /\
  fst (stackLayers "surface.inp" "stacked.inp" [0; 10] (Some [1%Z]) None None
         (Kernel {[ "surface.inp"%string := Surface [Node 0 0 0] ]} ∅))
    = Ok "CMO_PRISM"%string.
Proof.
  split; [cbn; lia | split; vm_compute; reflexivity].
Qed.

End StackLayersFacts.

(** ** Faceset ids from coordinates *)

Section FacesetCoordsFacts.
Import FacesetCoords.

Lemma perm_of_two (a b : nat) (l : list nat) :
  Permutation l [a; b] -> l = [a; b] \/ l = [b; a].
Proof.
  intros H. apply Permutation_sym, Permutation_length_2_inv in H. exact H.
Qed.

Lemma perm_of_three (a b c : nat) (l : list nat) :
  Permutation l [a; b; c] ->
  l = [a; b; c] \/ l = [a; c; b] \/ l = [b; a; c] \/
  l = [b; c; a] \/ l = [c; a; b] \/ l = [c; b; a].
Proof.
  intros H.
  assert (Hin : In a l) by (eapply Permutation_in; [symmetry; exact H | left; reflexivity]).
  apply in_split in Hin as (l1 & l2 & ->).
  apply Permutation_sym, Permutation_cons_app_inv in H.
  apply Permutation_sym, perm_of_two in H.
  destruct l1 as [|x [|y [|z l1]]]; cbn in H |- *.
  - destruct H as [-> | ->]; auto.
  - destruct H as [[= -> ->] | [= -> ->]]; auto 7.
  - destruct H as [H | H]; injection H as -> -> ->; auto 7.
  - destruct H as [H | H]; discriminate H.
Qed.

(** C2 (as the code has it).  On a boundary of 10 points, when the
    nearest boundary indices of the query coordinates are 2, 7 and 9 in
    any order, every slice written by the loop starts at the least marker:
    pass 0 writes 2 on [2,9), pass 1 writes 3 on [2,7), pass 2 writes
    nothing.  The array is 1 outside [2,9), 3 on [2,7) and 2 on [7,9).
    With the markers 2 and 7 alone it is 1 everywhere except 2 on [2,7). *)
Theorem getFacesetsFromCoordinates_markers
    (cdist_argmin : point -> list point -> res nat)
    (boundary cs : list point) (fs : list nat) :
  length boundary = 10%nat ->
  nearest_indices cdist_argmin cs boundary = Ok fs ->
  (Permutation fs [2; 7; 9]%nat ->
     getFacesetsFromCoordinates cdist_argmin (CoordArray cs) boundary
     = Ok [("all"%string, [1; 1; 3; 3; 3; 3; 3; 2; 2; 1]%Z)]) /\
  (Permutation fs [2; 7]%nat ->
     getFacesetsFromCoordinates cdist_argmin (CoordArray cs) boundary
     = Ok [("all"%string, [1; 1; 2; 2; 2; 2; 2; 1; 1; 1]%Z)]).
Proof.
  intros Hlen Hfs.
  unfold getFacesetsFromCoordinates, facesets_of, mat_ids_for.
  rewrite Hfs, Hlen. split; intros Hp.
  - apply perm_of_three in Hp.
    destruct Hp as [-> | [-> | [-> | [-> | [-> | ->]]]]]; reflexivity.
  - apply perm_of_two in Hp. destruct Hp as [-> | ->]; reflexivity.
Qed.

Lemma getFacesetsFromCoordinates_markers_witness :
  getFacesetsFromCoordinates argmin_exact (CoordArray [(7, 1); (2, 1); (9, 3)]%Q) line10
    = Ok [("all"%string, [1; 1; 3; 3; 3; 3; 3; 2; 2; 1]%Z)] /\
  getFacesetsFromCoordinates argmin_exact (CoordArray [(7, 1); (2, 1)]%Q) line10
    = Ok [("all"%string, [1; 1; 2; 2; 2; 2; 2; 1; 1; 1]%Z)].
Proof.
  split.
  - apply (getFacesetsFromCoordinates_markers argmin_exact line10
             [(7, 1); (2, 1); (9, 3)]%Q [7; 2; 9]%nat);
      [reflexivity | vm_compute; reflexivity |].
    apply perm_trans with [2; 7; 9]%nat; [apply perm_swap | apply Permutation_refl].
  - apply (getFacesetsFromCoordinates_markers argmin_exact line10
             [(7, 1); (2, 1)]%Q [7; 2]%nat);
      [reflexivity | vm_compute; reflexivity | apply perm_swap].
Defined.

(** C2 as stated fails with three markers: the range [2,7) carries 3 and
    the range [7,9) carries 2, the reverse of the claimed numbering. *)
Lemma getFacesetsFromCoordinates_three_markers_reversed :
  nearest_indices argmin_exact [(2, 1); (7, 1); (9, 3)]%Q line10 = Ok [2; 7; 9]%nat /\
  getFacesetsFromCoordinates argmin_exact (CoordArray [(2, 1); (7, 1); (9, 3)]%Q) line10
    = Ok [("all"%string, [1; 1; 3; 3; 3; 3; 3; 2; 2; 1]%Z)] /\
  getFacesetsFromCoordinates argmin_exact (CoordArray [(2, 1); (7, 1); (9, 3)]%Q) line10
    <> Ok [("all"%string, [1; 1; 2; 2; 2; 2; 2; 3; 3; 1]%Z)].
Proof.
  split; [| split]; [vm_compute; reflexivity | vm_compute; reflexivity |].
  vm_compute. discriminate.
Qed.

End FacesetCoordsFacts.

(** ** Generic facts about session programs *)

Section MonadFacts.
Context {S : Type}.

Lemma mbind_ok_inv {A B} (c : M S A) (k : A -> M S B) (s s' : S) (b : B) :
  mbind c k s = (Ok b, s') ->
  exists a s1, c s = (Ok a, s1) /\ k a s1 = (Ok b, s').
Proof.
  unfold mbind. destruct (c s) as [[a | e] s1]; intros H.
  - eauto.
  - discriminate.
Qed.

Lemma preserves_ret {A} (I : S -> Prop) (a : A) : preserves I (mret a).
Proof. intros s H. exact H. Qed.

Lemma preserves_raise {A} (I : S -> Prop) (e : exn) : preserves I (@mraise S A e).
Proof. intros s H. exact H. Qed.

Lemma preserves_lift {A} (I : S -> Prop) (r : res A) : preserves I (mlift r).
Proof. intros s H. exact H. Qed.

Lemma preserves_bind_val {A B} (I : S -> Prop) (R : A -> Prop)
    (c : M S A) (k : A -> M S B) :
  (forall s, I s -> I (snd (c s)) /\ forall a, fst (c s) = Ok a -> R a) ->
  (forall a, R a -> preserves I (k a)) ->
  preserves I (mbind c k).
Proof.
  intros Hc Hk s Hs. unfold mbind. destruct (Hc s Hs) as [H1 H2].
  destruct (c s) as [[a | e] s1]; cbn in *.
  - apply Hk; auto.
  - exact H1.
Qed.

Lemma preserves_bind {A B} (I : S -> Prop) (c : M S A) (k : A -> M S B) :
  preserves I c -> (forall a, preserves I (k a)) -> preserves I (mbind c k).
Proof.
  intros Hc Hk. apply preserves_bind_val with (R := fun _ => True); auto.
Qed.

Lemma preserves_mfor {A} (I : S -> Prop) (xs : list A) (body : A -> M S unit) :
  (forall x, In x xs -> preserves I (body x)) -> preserves I (mfor xs body).
Proof.
  induction xs as [|x xs IH]; intros H; cbn [mfor].
  - apply preserves_ret.
  - apply preserves_bind; [apply H; left; reflexivity |].
    intros _. apply IH. intros y Hy. apply H. right. exact Hy.
Qed.
End MonadFacts.


(** ** The uniform triplane *)

Section SessionFacts.
Import Session.

Lemma grown_by_emit (P : event -> bool) (t0 : list event) (e : event) :
  P e = true -> preserves (grown_by P t0) (emit e).
Proof.
  intros He w (evs & Ht & Hall). exists (evs ++ [e]). cbn. split.
  - rewrite Ht, app_assoc. reflexivity.
  - rewrite forallb_app, Hall. cbn. rewrite He. reflexivity.
Qed.

Lemma grown_by_same_trace {A} (P : event -> bool) (t0 : list event) (c : M world A) :
  (forall w, trace (snd (c w)) = trace w) -> preserves (grown_by P t0) c.
Proof.
  intros H w (evs & Ht & Hall). exists evs. rewrite H. auto.
Qed.

Lemma trace_alloc a w : trace (snd (alloc a w)) = trace w.
Proof. reflexivity. Qed.

Lemma trace_load l w : trace (snd (load l w)) = trace w.
Proof. unfold load. destruct (heap w !! l); reflexivity. Qed.

Lemma trace_load_ints l w : trace (snd (load_ints l w)) = trace w.
Proof.
  unfold load_ints, mbind, load. destruct (heap w !! l) as [[?|?]|]; reflexivity.
Qed.

Lemma trace_load_pairs l w : trace (snd (load_pairs l w)) = trace w.
Proof.
  unfold load_pairs, mbind, load. destruct (heap w !! l) as [[?|?]|]; reflexivity.
Qed.

Lemma trace_shape0 l w : trace (snd (shape0 l w)) = trace w.
Proof.
  unfold shape0, mbind, load. destruct (heap w !! l) as [[?|?]|]; reflexivity.
Qed.

Lemma trace_getitem {A} (xs : list A) i w : trace (snd (getitem xs i w)) = trace w.
Proof. unfold getitem. destruct (xs !! i); reflexivity. Qed.

Lemma trace_massert b msg w : trace (snd (massert b msg w)) = trace w.
Proof. destruct b; reflexivity. Qed.

Lemma trace_np_empty_pairs n w : trace (snd (np_empty_pairs n w)) = trace w.
Proof. unfold np_empty_pairs. destruct (n <? 0)%Z; reflexivity. Qed.

Lemma trace_setitem_row l i row w : trace (snd (setitem_row l i row w)) = trace w.
Proof.
  unfold setitem_row. destruct (heap w !! l) as [[?|rows]|]; try reflexivity.
  cbv zeta. destruct (_ && _); reflexivity.
Qed.

Ltac grown_step :=
  first
    [ apply preserves_ret | apply preserves_raise
    | apply grown_by_emit; reflexivity
    | apply grown_by_same_trace; intros;
      first [ apply trace_alloc | apply trace_load | apply trace_load_ints
            | apply trace_load_pairs | apply trace_shape0 | apply trace_getitem
            | apply trace_massert | apply trace_np_empty_pairs | apply trace_setitem_row ]
    | apply preserves_bind; [| intros ?]
    | apply preserves_mfor; intros ? _
    | match goal with
      | |- preserves _ (match ?x with _ => _ end) => destruct x
      | |- preserves _ (if ?x then _ else _) => destruct x
      | |- preserves _ (let '(_, _) := ?x in _) => destruct x
      end ].

Lemma grown_by_generateLineConnectivity P t0 nodes connect_ends :
  preserves (grown_by P t0) (generateLineConnectivity nodes connect_ends).
Proof. unfold generateLineConnectivity. repeat grown_step. Qed.

Lemma grown_by_att_values P t0 atts i :
  preserves (grown_by P t0) (att_values atts i).
Proof.
  induction atts as [|[key a] atts IH]; cbn [att_values]; repeat grown_step.
  exact IH.
Qed.

Lemma grown_by_writeLineAVS t0 boundary outfile connections material_id node_atts cell_atts :
  preserves (grown_by is_file_event t0)
    (_writeLineAVS boundary outfile connections material_id node_atts cell_atts).
Proof.
  unfold _writeLineAVS, write_atts, check_atts, call.
  repeat (grown_step || apply grown_by_att_values).
Qed.

Lemma trace_generateLineConnectivity nodes connect_ends w :
  trace (snd (generateLineConnectivity nodes connect_ends w)) = trace w.
Proof.
  destruct (grown_by_generateLineConnectivity (fun _ => false) (trace w) nodes connect_ends w)
    as (evs & Ht & Hall).
  - exists []. rewrite app_nil_r. auto.
  - destruct evs; [rewrite app_nil_r in Ht; exact Ht | discriminate].
Qed.

Lemma forallb_weaken {A} (P Q : A -> bool) (l : list A) :
  (forall x, P x = true -> Q x = true) -> forallb P l = true -> forallb Q l = true.
Proof.
  intros H. rewrite !forallb_forall. auto.
Qed.

Lemma emits_ret {A} (a : A) : emits (mret a) a [].
Proof. intros [h t]. unfold mret. cbn. rewrite app_nil_r. reflexivity. Qed.

Lemma emits_emit (e : event) : emits (emit e) tt [e].
Proof. intros w. reflexivity. Qed.

Lemma emits_bind {A B} (c : M world A) (k : A -> M world B) a b e1 e2 :
  emits c a e1 -> emits (k a) b e2 -> emits (mbind c k) b (e1 ++ e2).
Proof.
  intros Hc Hk w. unfold mbind. rewrite Hc, Hk. cbn. rewrite app_assoc. reflexivity.
Qed.

Lemma emits_mfor {A} (xs : list A) (body : A -> M world unit) (f : A -> list event) :
  (forall x, emits (body x) tt (f x)) -> emits (mfor xs body) tt (flat_map f xs).
Proof.
  intros H. induction xs as [|x xs IH]; cbn [mfor flat_map].
  - apply emits_ret.
  - eapply emits_bind; [apply H | apply IH].
Qed.

Lemma emits_eq {A} (c : M world A) (a : A) (e e' : list event) :
  emits c a e -> e = e' -> emits c a e'.
Proof. intros H <-. exact H. Qed.

Ltac emits_step :=
  first [ apply emits_ret
        | apply emits_emit
        | eapply emits_bind; [| intros]
        | eapply emits_mfor; intros ].

(** One pass of the loop of lines 446-452 issues exactly the round of the
    specification. *)
Lemma emits_refine_pass (ln : Q) : emits (refine_pass ln) tt (spec_round ln).
Proof.
  unfold refine_pass, call. cbn [mfor seq].
  eapply emits_eq; [repeat emits_step | reflexivity].
Qed.

(** ** The feature-graded triplane *)

(** Whenever [buildRefinedTriplane] returns, the last thing it has done is
    to run the script [refined_cmd]. *)
Lemma buildRefinedTriplane_runs_cmd
    (np_sqrt np_cos np_arcsin : Q -> Q) (boundary feature : list point) (outfile : string)
    (h : Q) (connectivity : option nat) (delta slope refine_dist : Q) (w w' : world) :
  buildRefinedTriplane np_sqrt np_cos np_arcsin boundary feature outfile h connectivity
    delta slope refine_dist w = (Ok tt, w') ->
  exists t, trace w'
            = t ++ [CallLaGriT (refined_cmd np_sqrt np_cos np_arcsin outfile h delta slope
                                  refine_dist)].
Proof.
  intros H. unfold buildRefinedTriplane in H.
  apply mbind_ok_inv in H as (conn & w1 & _ & H).
  apply mbind_ok_inv in H as ([] & w2 & _ & H).
  apply mbind_ok_inv in H as ([] & w3 & _ & H).
  injection H as <-. exists (trace w3). reflexivity.
Qed.

(** C8 (what the code does).  The script defines the four magnitudes
    0.05 * s * h under the names PURTURB8 .. PURTURB64, and its four
    perturbation commands ask for PERTURB64, PERTURB32, PERTURB16 and
    PERTURB8 in both axes: names that the script defines nowhere, so that
    the magnitudes never reach the commands. *)
Theorem buildRefinedTriplane_perturb_names_undefined
    (np_sqrt np_cos np_arcsin : Q -> Q) (outfile : string) (h delta slope refine_dist : Q) :
  let cmd := refined_cmd np_sqrt np_cos np_arcsin outfile h delta slope refine_dist in
  (defined_value "PURTURB64" cmd = Some (ANum (64 * 0.05 * h)%Q) /\
   defined_value "PURTURB32" cmd = Some (ANum (32 * 0.05 * h)%Q) /\
   defined_value "PURTURB16" cmd = Some (ANum (16 * 0.05 * h)%Q) /\
   defined_value "PURTURB8" cmd = Some (ANum (8 * 0.05 * h)%Q)) /\
  perturbations cmd
    = [("PERTURB64", "PERTURB64"); ("PERTURB32", "PERTURB32");
       ("PERTURB16", "PERTURB16"); ("PERTURB8", "PERTURB8")]%string /\
  Forall (fun p => defined_value (fst p) cmd = None /\ defined_value (snd p) cmd = None)
         (perturbations cmd).
Proof.
  cbv zeta. split; [| split].
  - repeat split; reflexivity.
  - reflexivity.
  - repeat constructor.
Qed.

End SessionFacts.

(** ** The no-data fill *)

Section RasterFacts.
Import Raster.

Lemma float_eqb_NaN_r (v : pyfloat) : float_eqb v NaN = false.
Proof. destruct v; reflexivity. Qed.

Lemma assign_where_eq_mask_NaN (nd : pyfloat) (b : grid pyfloat) :
  assign_where (eq_mask NaN b) nd b = b.
Proof.
  unfold assign_where, eq_mask.
  induction b as [|row b IH]; cbn; [reflexivity |]. f_equal; [| exact IH].
  clear. induction row as [|v row IH]; cbn; [reflexivity |].
  rewrite float_eqb_NaN_r. f_equal. exact IH.
Qed.

Lemma invalid_mask_assign (nd : pyfloat) (a : grid pyfloat) :
  all_finite a ->
  invalid_mask (assign_where (eq_mask nd a) NaN a) = eq_mask nd a.
Proof.
  unfold all_finite, invalid_mask, assign_where, eq_mask.
  induction 1 as [|row a Hrow _ IH]; cbn; [reflexivity |]. f_equal; [| exact IH].
  clear -Hrow. induction Hrow as [|v row Hv _ IH]; cbn; [reflexivity |].
  f_equal; [| exact IH]. destruct (float_eqb v nd); [reflexivity | exact Hv].
Qed.

Lemma fill_elevation_attribute (nearest_index : list pos -> pos -> nat)
    (nd : pyfloat) (a : grid pyfloat) :
  all_finite a -> fill_elevation nearest_index nd a = fill_attribute nearest_index nd a.
Proof.
  intros Hfin. unfold fill_elevation, fill_attribute. cbv zeta.
  rewrite invalid_mask_assign by exact Hfin. reflexivity.
Qed.

Lemma select_row (nd : pyfloat) (g : nat -> pos) (r : list pyfloat) :
  let m := map (fun v => float_eqb v nd) r in
  let d := zip_with (fun (b : bool) x => if b then NaN else x) m r in
  map snd (List.filter (fun p => negb (fst p)) (zip m (imap (fun x _ => g x) d)))
    = map fst (valid_cells_row nd g r) /\
  map snd (List.filter (fun p => negb (fst p)) (zip m d))
    = map snd (valid_cells_row nd g r).
Proof.
  cbv zeta. revert g. induction r as [|v r IH]; intros g; cbn; [split; reflexivity |].
  destruct (IH (g ∘ S)) as [IH1 IH2].
  destruct (float_eqb v nd); cbn; split; try f_equal; assumption.
Qed.

Lemma select_grid (nd : pyfloat) (G : nat -> nat -> pos) (a : grid pyfloat) :
  let m := eq_mask nd a in
  let d := assign_where m NaN a in
  select_unmasked m (imap (fun y row => imap (fun x _ => G y x) row) d)
    = map fst (valid_cells nd G a) /\
  select_unmasked m d = map snd (valid_cells nd G a).
Proof.
  cbv zeta. unfold select_unmasked, eq_mask, assign_where.
  revert G. induction a as [|r a IH]; intros G; cbn; [split; reflexivity |].
  destruct (IH (G ∘ S)) as [IH1 IH2].
  destruct (select_row nd (G 0%nat) r) as [R1 R2]. cbv zeta in R1, R2.
  rewrite !map_app. split; f_equal; assumption.
Qed.

Lemma valid_cells_row_In (nd : pyfloat) (g : nat -> pos) (r : list pyfloat) p v :
  In (p, v) (valid_cells_row nd g r) <->
  exists x, r !! x = Some v /\ p = g x /\ float_eqb v nd = false.
Proof.
  revert g. induction r as [|v0 r IH]; intros g; cbn.
  - split; [intros [] | intros (x & Hx & _)]. destruct x; discriminate.
  - rewrite in_app_iff, IH. split.
    + intros [H | (x & Hx & -> & Hv)].
      * destruct (float_eqb v0 nd) eqn:E; [destruct H |].
        destruct H as [[= <- <-] | []]. exists 0%nat. auto.
      * exists (S x). auto.
    + intros ([|x] & Hx & -> & Hv).
      * injection Hx as ->. rewrite Hv. left. left. reflexivity.
      * right. exists x. auto.
Qed.

Lemma valid_cells_In (nd : pyfloat) (G : nat -> nat -> pos) (a : grid pyfloat) p v :
  In (p, v) (valid_cells nd G a) <->
  exists y x row, a !! y = Some row /\ row !! x = Some v /\ p = G y x /\
                  float_eqb v nd = false.
Proof.
  revert G. induction a as [|r a IH]; intros G; cbn.
  - split; [intros [] | intros (y & x & row & Hy & _)]. destruct y; discriminate.
  - rewrite in_app_iff, IH, valid_cells_row_In. split.
    + intros [(x & Hx & -> & Hv) | (y & x & row & Hy & Hx & -> & Hv)].
      * exists 0%nat, x, r. auto.
      * exists (S y), x, row. auto.
    + intros ([|y] & x & row & Hy & Hx & -> & Hv).
      * injection Hy as ->. left. exists x. auto.
      * right. exists y, x, row. auto.
Qed.

Lemma res_map_ok {A B} (f : A -> res B) (g : A -> B) (l : list A) :
  (forall x, f x = Ok (g x)) -> res_map f l = Ok (map g l).
Proof.
  intros H. induction l as [|x l IH]; cbn; [reflexivity |].
  rewrite H, IH. reflexivity.
Qed.

Lemma imap_shape {A A' B} (h : nat -> B) (l : list A) (l' : list A') :
  length l = length l' -> imap (fun i _ => h i) l = imap (fun i _ => h i) l'.
Proof.
  revert h l'. induction l as [|x l IH]; intros h [|x' l'] Hlen; try discriminate.
  - reflexivity.
  - cbn. f_equal. apply (IH (h ∘ S)). cbn in Hlen. lia.
Qed.

Lemma map_imap_row {A B} (g : pos -> B) (G : nat -> pos) (l : list A) :
  map g (imap (fun x _ => G x) l) = imap (fun x _ => g (G x)) l.
Proof.
  revert G. induction l as [|x l IH]; intros G; cbn; [reflexivity |].
  f_equal. apply (IH (G ∘ S)).
Qed.

(** Filling gives every position of the grid the value found by the
    query; the grid keeps its shape. *)
Lemma filled_shape {B} (nd : pyfloat) (g : pos -> B) (G : nat -> nat -> pos)
    (a : grid pyfloat) :
  map (map g) (imap (fun y row => imap (fun x _ => G y x) row)
                    (assign_where (eq_mask nd a) NaN a))
  = imap (fun y row => imap (fun x _ => g (G y x)) row) a.
Proof.
  unfold assign_where, eq_mask.
  revert G. induction a as [|r a IH]; intros G; cbn; [reflexivity |].
  f_equal; [| apply (IH (G ∘ S))].
  rewrite map_imap_row. apply imap_shape.
  rewrite length_zip_with, length_map. lia.
Qed.

Lemma has_valid_cell_cells (nd : pyfloat) (G : nat -> nat -> pos) (a : grid pyfloat) :
  has_valid_cell nd a -> valid_cells nd G a <> [].
Proof.
  unfold has_valid_cell. rewrite Exists_exists.
  intros (row & Hrow & Hex). apply Exists_exists in Hex as (v & Hv & Hvalid).
  apply list_elem_of_lookup in Hrow as (y & Hy).
  apply list_elem_of_lookup in Hv as (x & Hx).
  assert (Hin : In (G y x, v) (valid_cells nd G a)).
  { apply valid_cells_In. exists y, x, row. auto. }
  intros E. rewrite E in Hin. destruct Hin.
Qed.

Section WithQuery.
Variable nearest_index : list pos -> pos -> nat.
Hypothesis Hnearest : is_nearest_query nearest_index.

Lemma fill_value_near (nd : pyfloat) (a : grid pyfloat) (q : pos) :
  has_valid_cell nd a ->
  exists p v,
    map snd (valid_cells nd (fun y x => (x, y)) a)
      !! nearest_index (map fst (valid_cells nd (fun y x => (x, y)) a)) q = Some v /\
    fill_value nearest_index nd a q = v /\
    In (p, v) (valid_cells nd (fun y x => (x, y)) a) /\
    forall p' v', In (p', v') (valid_cells nd (fun y x => (x, y)) a) ->
                  (sqdist p q <= sqdist p' q)%Z.
Proof.
  intros Hvalid.
  pose proof (has_valid_cell_cells nd (fun y x => (x, y)) a Hvalid) as Hne.
  set (cells := valid_cells nd (fun y x => (x, y)) a) in *.
  destruct (Hnearest (map fst cells) q) as (p & Hp & Hmin).
  { destruct cells; [congruence | discriminate]. }
  rewrite list_lookup_fmap in Hp.
  destruct (cells !! nearest_index (map fst cells) q) as [[p0 v]|] eqn:E; [| discriminate].
  injection Hp as ->.
  exists p, v. split; [| split; [| split]].
  - rewrite list_lookup_fmap, E. reflexivity.
  - unfold fill_value. fold cells. rewrite list_lookup_fmap, E. reflexivity.
  - apply list_elem_of_In, list_elem_of_lookup. eauto.
  - intros p' v' Hin. apply Hmin. apply in_map_iff. exists (p', v'). auto.
Qed.

Lemma griddata_nearest_nonempty (points : list pos) (values : list pyfloat) (xi : grid pos) :
  points <> [] ->
  griddata_nearest nearest_index points values xi
  = res_map (res_map (fun q => match values !! nearest_index points q with
                               | Some v => Ok v
                               | None => Raise IndexError
                               end)) xi.
Proof. destruct points; [congruence | reflexivity]. Qed.

Lemma fill_attribute_ok (nd : pyfloat) (a : grid pyfloat) :
  has_valid_cell nd a ->
  fill_attribute nearest_index nd a
  = Ok (imap (fun y row => imap (fun x _ => fill_value nearest_index nd a (x, y)) row) a).
Proof.
  intros Hvalid. unfold fill_attribute. cbv zeta.
  destruct (select_grid nd (fun y x => (x, y)) a) as [Hp Hv]. cbv zeta in Hp, Hv.
  unfold meshgrid, grid, pos in *. rewrite Hp, Hv.
  pose proof (has_valid_cell_cells nd (fun y x => (x, y)) a Hvalid) as Hne.
  rewrite griddata_nearest_nonempty.
  2:{ destruct (valid_cells nd (fun y x => (x, y)) a); [congruence | discriminate]. }
  rewrite (res_map_ok _ (map (fill_value nearest_index nd a))).
  - rewrite assign_where_eq_mask_NaN. f_equal. apply filled_shape.
  - intros row. apply res_map_ok. intros q.
    destruct (fill_value_near nd a q Hvalid) as (p & v & Hlook & Hfv & _).
    unfold pos in *. rewrite Hlook, Hfv. reflexivity.
Qed.


Lemma sqdist_le_self (p q : pos) : (sqdist p q <= sqdist q q)%Z -> p = q.
Proof.
  destruct p as [px py], q as [qx qy]. unfold sqdist. cbn [fst snd].
  rewrite !Z.sub_diag. cbn [Z.mul Z.add].
  set (dx := (Z.of_nat px - Z.of_nat qx)%Z). set (dy := (Z.of_nat py - Z.of_nat qy)%Z).
  intros H.
  pose proof (Z.square_nonneg dx) as Hdx. pose proof (Z.square_nonneg dy) as Hdy.
  assert (Hx : (dx * dx = 0)%Z) by lia. assert (Hy : (dy * dy = 0)%Z) by lia.
  apply Z.mul_eq_0 in Hx, Hy. f_equal; lia.
Qed.

End WithQuery.


Lemma argmin_from_min (L pre vs : list Z) (best : nat) (bestv : Z) :
  L = pre ++ vs -> L !! best = Some bestv ->
  (forall v, In v pre -> (bestv <= v)%Z) ->
  exists m, L !! argmin_from best bestv (length pre) vs = Some m /\
            forall v, In v L -> (m <= v)%Z.
Proof.
  revert pre best bestv. induction vs as [|v vs IH]; intros pre best bestv HL Hbest Hpre.
  - cbn. exists bestv. split; [exact Hbest |]. rewrite HL, app_nil_r. exact Hpre.
  - cbn [argmin_from].
    assert (HL' : L = (pre ++ [v]) ++ vs) by (rewrite <- app_assoc; exact HL).
    assert (Hlen : length (pre ++ [v]) = S (length pre)) by (rewrite length_app; cbn; lia).
    destruct (Z.ltb_spec v bestv) as [Hlt | Hge]; rewrite <- Hlen.
    + apply IH; [exact HL' | |].
      * rewrite HL. rewrite lookup_app_r by lia. rewrite Nat.sub_diag. reflexivity.
      * intros u Hu. apply in_app_iff in Hu as [Hu | [<- | []]]; [| lia].
        specialize (Hpre u Hu). lia.
    + apply IH; [exact HL' | exact Hbest |].
      intros u Hu. apply in_app_iff in Hu as [Hu | [<- | []]]; [auto | lia].
Qed.

Lemma nearest_first_is_nearest : is_nearest_query nearest_first.
Proof.
  intros points q Hne. unfold nearest_first.
  destruct points as [|p0 points]; [congruence |]. cbn [map].
  destruct (argmin_from_min (map (fun p => sqdist p q) (p0 :: points)) [sqdist p0 q]
              (map (fun p => sqdist p q) points) 0%nat (sqdist p0 q))
    as (m & Hm & Hmin).
  - reflexivity.
  - reflexivity.
  - intros v [<- | []]. lia.
  - cbn [length] in Hm. rewrite list_lookup_fmap in Hm.
    destruct ((p0 :: points) !! argmin_from 0 (sqdist p0 q) 1 (map (fun p => sqdist p q) points))
      as [p|] eqn:E; [| discriminate].
    injection Hm as <-. exists p. split; [reflexivity |].
    intros p' Hp'. apply Hmin. apply in_map_iff. exists p'. auto.
Qed.

End RasterFacts.

(** ** Attributes on layers *)

Section AddAttributeFacts.
Import Session.

Lemma forallb_Exists_false {A} (f : A -> bool) (l : list A) :
  Exists (fun x => f x = false) l -> forallb f l = false.
Proof.
  induction 1 as [x l Hx | x l _ IH]; cbn.
  - rewrite Hx. reflexivity.
  - rewrite IH. apply andb_false_r.
Qed.

(** C5 (as the code has it).  When the list given as [layers] holds an
    entry that is not an integer (and the call gets as far as line 247:
    the raster could be resampled and filled and the layer count is not
    0), [addAttribute] raises the validation error after it has written the
    scratch raster and issued the calls that set up the sheet, the
    extrusion and the stacked mesh, and before any call that works on a
    layer; the scratch raster is not removed, the mesh is not dumped, and
    the arrays of the caller are as they were. *)
Theorem addAttribute_rejects_after_setup
    (imresize : Raster.grid Raster.pyfloat -> Z * Z -> Raster.grid Raster.pyfloat)
    (nearest_index : list Raster.pos -> Raster.pos -> nat)
    (random_name : string) (elements : Z)
    (data filled : Raster.grid Raster.pyfloat) (stacked_mesh_infile outfile : string)
    (dem_dimensions : list Z) (d0 d1 : Z) (lower_left_corner cell_size : list Q)
    (number_of_layers : Z) (flip : string) (no_data_value : Raster.pyfloat)
    (attribute_name : option string) (target_layers : list pyval) (w : world) :
  dem_dimensions !! 1%nat = Some d1 ->
  dem_dimensions !! 0%nat = Some d0 ->
  Raster.fill_attribute nearest_index no_data_value (imresize data (d1, d0)) = Ok filled ->
  number_of_layers <> 0%Z ->
  Exists (fun x => isinstance_int x = false) target_layers ->
  addAttribute imresize nearest_index random_name elements data stacked_mesh_infile outfile
    dem_dimensions lower_left_corner cell_size number_of_layers flip no_data_value
    attribute_name (PList target_layers) w
  = (Raise (ValueError "layers contains non-conforming data"),
     {| heap := heap w;
        trace := trace w ++ events_before_check random_name filled stacked_mesh_infile
                              dem_dimensions lower_left_corner cell_size flip
                              attribute_name |}).
Proof.
  intros H1 H0 Hfill Hn Hbad.
  apply forallb_Exists_false in Hbad. apply Z.eqb_neq in Hn.
  unfold addAttribute, events_before_check, mbind, getitem, mlift, call, call_as, emit,
    mmodify, mret, mraise.
  rewrite H1, H0, Hfill. cbn [heap trace isinstance_int_float py_iter].
  destruct attribute_name as [n|]; cbn [heap trace]; rewrite Hn, Hbad; cbn [negb heap trace];
    rewrite <- !app_assoc; reflexivity.
Qed.

Lemma addAttribute_rejects_after_setup_eval :
  addAttribute imresize_same Raster.nearest_first "abcde" 100
    [[Raster.Fin 1; Raster.Fin 2]] "stacked.inp" "attributed.inp" [2; 1]%Z [0; 0]%Q [1; 1]%Q
    2 "y" Raster.NaN None (PList [PInt 1; PFloat 1.5]) (World [] [])
  = (Raise (ValueError "layers contains non-conforming data"),
     {| heap := [];
        trace := events_before_check "abcde" [[Raster.Fin 1; Raster.Fin 2]]
                   "stacked.inp" [2; 1]%Z [0; 0]%Q [1; 1]%Q "y" None |}).
Proof. vm_compute. reflexivity. Qed.

Lemma addAttribute_rejects_after_setup_witness :
  addAttribute imresize_same Raster.nearest_first "abcde" 100
    [[Raster.Fin 1; Raster.Fin 2]] "stacked.inp" "attributed.inp" [2; 1]%Z [0; 0]%Q [1; 1]%Q
    2 "y" Raster.NaN None (PList [PInt 1; PFloat 1.5]) (World [] [])
  = (Raise (ValueError "layers contains non-conforming data"),
     {| heap := [];
        trace := [] ++ events_before_check "abcde" [[Raster.Fin 1; Raster.Fin 2]]
                         "stacked.inp" [2; 1]%Z [0; 0]%Q [1; 1]%Q "y" None |}).
Proof.
  apply (addAttribute_rejects_after_setup imresize_same Raster.nearest_first "abcde" 100
           [[Raster.Fin 1; Raster.Fin 2]] [[Raster.Fin 1; Raster.Fin 2]]
           "stacked.inp" "attributed.inp" [2; 1]%Z 2 1 [0; 0]%Q [1; 1]%Q 2 "y" Raster.NaN
           None [PInt 1; PFloat 1.5] (World [] [])).
  - reflexivity.
  - reflexivity.
  - vm_compute. reflexivity.
  - lia.
  - right. left. reflexivity.
Defined.

(** C5 as stated fails: with the layer list [1, 1.5] the error is raised,
    but only after eight calls into the session, and the scratch raster
    written before them is left on disk. *)
Lemma addAttribute_error_after_kernel_calls :
  let r := addAttribute imresize_same Raster.nearest_first "abcde" 100
             [[Raster.Fin 1; Raster.Fin 2]] "stacked.inp" "attributed.inp" [2; 1]%Z
             [0; 0]%Q [1; 1]%Q 2 "y" Raster.NaN None (PList [PInt 1; PFloat 1.5])
             (World [] []) in
  fst r = Raise (ValueError "layers contains non-conforming data") /\
  length (List.filter is_kernel_call (trace (snd r))) = 8%nat /\
  In (RasterWrite "_temp_attrib_array.dat" [[Raster.Fin 1; Raster.Fin 2]]) (trace (snd r)) /\
  ~ In (FileRemove "_temp_attrib_array.dat") (trace (snd r)).
Proof.
  cbv zeta. rewrite addAttribute_rejects_after_setup_eval.
  split; [reflexivity | split; [reflexivity | split]].
  - left. reflexivity.
  - cbn. intros H. repeat (destruct H as [H | H]; [discriminate H |]). exact H.
Qed.
End AddAttributeFacts.

(** ** The faceset classifier *)

Ltac emits_go :=
  repeat lazymatch goal with
    | |- Session.emits (mbind _ _) _ _ => eapply emits_bind; [| intros]
    | |- Session.emits (mret _) _ _ => apply emits_ret
    | |- Session.emits (Session.emit _) _ _ => apply emits_emit
    | |- Session.emits (Session.call _ _ _) _ _ => apply emits_emit
    | |- Session.emits (Session.call_as _ _ _ _) _ _ => apply emits_emit
    | |- Session.emits (mfor _ _) _ _ => eapply emits_mfor; intros
    end.


Section UniqueFacts.
Import Session.
Local Open Scope Z_scope.

Lemma insert_unique_In (x v : Z) (l : list Z) :
  In v (insert_unique x l) <-> v = x \/ In v l.
Proof.
  induction l as [|y l IH]; cbn.
  - intuition.
  - destruct (Z.ltb_spec x y); [cbn; intuition |].
    destruct (Z.eqb_spec x y); cbn; [subst; intuition | rewrite IH; intuition].
Qed.

Lemma np_unique_In (v : Z) (xs : list Z) : In v (np_unique xs) <-> In v xs.
Proof.
  induction xs as [|x xs IH]; cbn; [reflexivity |].
  rewrite insert_unique_In, IH. intuition.
Qed.

Lemma insert_unique_sorted (x : Z) (l : list Z) :
  StronglySorted Z.lt l -> StronglySorted Z.lt (insert_unique x l).
Proof.
  induction 1 as [|y l Hl IH Hy]; cbn.
  - repeat constructor.
  - destruct (Z.ltb_spec x y).
    + constructor; [constructor; assumption |].
      constructor; [assumption |]. eapply Forall_impl; [exact Hy |]. cbn. intros; lia.
    + destruct (Z.eqb_spec x y); [constructor; assumption |].
      constructor; [exact IH |].
      apply Forall_forall. intros v Hv. apply list_elem_of_In, insert_unique_In in Hv.
      destruct Hv as [-> | Hv]; [lia |].
      rewrite Forall_forall in Hy. apply Hy, list_elem_of_In, Hv.
Qed.

Lemma np_unique_sorted (xs : list Z) : StronglySorted Z.lt (np_unique xs).
Proof.
  induction xs as [|x xs IH]; cbn; [constructor | apply insert_unique_sorted, IH].
Qed.

Lemma sorted_same_members (l1 l2 : list Z) :
  StronglySorted Z.lt l1 -> StronglySorted Z.lt l2 ->
  (forall v, In v l1 <-> In v l2) -> l1 = l2.
Proof.
  intros H1. revert l2. induction H1 as [|a l1 Hl1 IH Ha]; intros l2 H2 Hmem.
  - destruct l2 as [|b l2]; [reflexivity |]. destruct (proj2 (Hmem b)). left. reflexivity.
  - destruct H2 as [|b l2 Hl2 Hb].
    { destruct (proj1 (Hmem a)). left. reflexivity. }
    rewrite Forall_forall in Ha, Hb.
    assert (a = b).
    { destruct (proj1 (Hmem a)) as [E | Hin]; [left; reflexivity | auto |].
      destruct (proj2 (Hmem b)) as [E | Hin']; [left; reflexivity | auto |].
      apply list_elem_of_In, Hb in Hin. apply list_elem_of_In, Ha in Hin'. lia. }
    subst b. f_equal. apply IH; [exact Hl2 |].
    intros v. split; intros Hv.
    + destruct (proj1 (Hmem v)) as [E | Hin]; [right; exact Hv | | exact Hin].
      subst v. apply list_elem_of_In, Ha in Hv. lia.
    + destruct (proj2 (Hmem v)) as [E | Hin]; [right; exact Hv | | exact Hin].
      subst v. apply list_elem_of_In, Hb in Hv. lia.
Qed.

Lemma np_range1_In (n : nat) (v : Z) : In v (np_range1 n) <-> 1 <= v <= Z.of_nat n.
Proof.
  unfold np_range1. rewrite in_map_iff. split.
  - intros (i & <- & Hi). apply in_seq in Hi. lia.
  - intros Hv. exists (Z.to_nat v). split; [lia |]. apply in_seq. lia.
Qed.

Lemma seq_sorted (a n : nat) : StronglySorted Z.lt (map Z.of_nat (seq a n)).
Proof.
  revert a. induction n as [|n IH]; intros a; cbn; constructor; [apply IH |].
  apply Forall_forall. intros v Hv. apply list_elem_of_In, in_map_iff in Hv.
  destruct Hv as (i & <- & Hi). apply in_seq in Hi. lia.
Qed.

Lemma np_all_eq_true (a b : list Z) : np_all_eq a b = true <-> a = b.
Proof.
  unfold np_all_eq. split.
  - intros H. apply andb_true_iff in H as [Hlen H]. apply Nat.eqb_eq in Hlen.
    revert b Hlen H. induction a as [|x a IH]; intros [|y b] Hlen H; try discriminate.
    + reflexivity.
    + cbn in H. apply andb_true_iff in H as [Hxy H]. apply Z.eqb_eq in Hxy.
      f_equal; [exact Hxy | apply IH; [cbn in Hlen; lia | exact H]].
  - intros <-. rewrite Nat.eqb_refl. cbn. induction a as [|x a IH]; cbn; [reflexivity |].
    rewrite Z.eqb_refl. exact IH.
Qed.

(** The assertion of lines 665-667 holds exactly when the ids are
    1, ..., k for some k. *)
Lemma sequential_check (ids : list Z) :
  np_all_eq (np_unique ids) (np_range1 (length (np_unique ids))) = true <->
  exists k, ids_are_1_to k ids.
Proof.
  rewrite np_all_eq_true. split.
  - intros H. exists (Z.of_nat (length (np_unique ids))). intros v.
    rewrite <- np_unique_In, H at 1. apply np_range1_In.
  - intros (k & Hk).
    assert (E : np_unique ids = np_range1 (Z.to_nat k)).
    { apply sorted_same_members; [apply np_unique_sorted | apply seq_sorted |].
      intros v. rewrite np_unique_In, np_range1_In, (Hk v). lia. }
    rewrite E at 2. unfold np_range1. rewrite length_map, length_seq. exact E.
Qed.
End UniqueFacts.

Section FacesetFrame.
Import Session.

Lemma keeps_length (h0 : list ndarray) (w : world) :
  keeps h0 w -> length h0 <= length (heap w).
Proof.
  intros H. destruct (Nat.le_gt_cases (length h0) (length (heap w))) as [Hle | Hgt]; [exact Hle |].
  destruct (lookup_lt_is_Some_2 h0 (length (heap w)) Hgt) as [a Ha].
  apply H, lookup_lt_Some in Ha. lia.
Qed.

Lemma keeps_same_heap {A} (h0 : list ndarray) (c : M world A) :
  (forall w, heap (snd (c w)) = heap w) -> preserves (keeps h0) c.
Proof. intros H w Hw l a Hl. rewrite H. apply Hw, Hl. Qed.

Lemma heap_emit e w : heap (snd (emit e w)) = heap w.
Proof. reflexivity. Qed.

Lemma heap_load l w : heap (snd (load l w)) = heap w.
Proof. unfold load. destruct (heap w !! l); reflexivity. Qed.

Lemma heap_load_ints l w : heap (snd (load_ints l w)) = heap w.
Proof.
  unfold load_ints, mbind, load. destruct (heap w !! l) as [[?|?]|]; reflexivity.
Qed.

Lemma heap_load_pairs l w : heap (snd (load_pairs l w)) = heap w.
Proof.
  unfold load_pairs, mbind, load. destruct (heap w !! l) as [[?|?]|]; reflexivity.
Qed.

Lemma heap_shape0 l w : heap (snd (shape0 l w)) = heap w.
Proof.
  unfold shape0, mbind, load. destruct (heap w !! l) as [[?|?]|]; reflexivity.
Qed.

Lemma heap_getitem {A} (xs : list A) i w : heap (snd (getitem xs i w)) = heap w.
Proof. unfold getitem. destruct (xs !! i); reflexivity. Qed.

Lemma heap_massert b msg w : heap (snd (massert b msg w)) = heap w.
Proof. destruct b; reflexivity. Qed.

Lemma keeps_alloc (h0 : list ndarray) (a : ndarray) :
  forall w, keeps h0 w ->
    keeps h0 (snd (alloc a w)) /\ forall l, fst (alloc a w) = Ok l -> length h0 <= l.
Proof.
  intros w Hw. split.
  - intros l b Hl. cbn. apply lookup_app_l_Some, Hw, Hl.
  - intros l [= <-]. apply keeps_length, Hw.
Qed.

Lemma keeps_setitem_row (h0 : list ndarray) (l : nat) (i : Z) (row : Z * Z) :
  length h0 <= l -> preserves (keeps h0) (setitem_row l i row).
Proof.
  intros Hl w Hw l' a Ha. unfold setitem_row.
  destruct (heap w !! l) as [[?|rows]|]; try (apply Hw, Ha).
  cbv zeta. destruct (_ && _); [| apply Hw, Ha]. cbn.
  rewrite list_lookup_insert_ne; [apply Hw, Ha |].
  apply lookup_lt_Some in Ha. lia.
Qed.

Lemma keeps_alloc_pres (h0 : list ndarray) (a : ndarray) : preserves (keeps h0) (alloc a).
Proof. intros w Hw. apply keeps_alloc, Hw. Qed.

Ltac keeps_step :=
  lazymatch goal with
  | |- preserves _ (mbind _ _) => apply preserves_bind; [| intros ?]
  | |- preserves _ (mret _) => apply preserves_ret
  | |- preserves _ (mraise _) => apply preserves_raise
  | |- preserves _ (mlift _) => apply preserves_lift
  | |- preserves _ (mfor _ _) => apply preserves_mfor; intros ? _
  | |- preserves _ (emit _) => apply keeps_same_heap; intros; apply heap_emit
  | |- preserves _ (load _) => apply keeps_same_heap; intros; apply heap_load
  | |- preserves _ (load_ints _) => apply keeps_same_heap; intros; apply heap_load_ints
  | |- preserves _ (load_pairs _) => apply keeps_same_heap; intros; apply heap_load_pairs
  | |- preserves _ (shape0 _) => apply keeps_same_heap; intros; apply heap_shape0
  | |- preserves _ (getitem _ _) => apply keeps_same_heap; intros; apply heap_getitem
  | |- preserves _ (massert _ _) => apply keeps_same_heap; intros; apply heap_massert
  | |- preserves _ (alloc _) => apply keeps_alloc_pres
  | |- preserves _ (match ?x with _ => _ end) => destruct x
  end.

Lemma keeps_generateLineConnectivity h0 nodes connect_ends :
  preserves (keeps h0) (generateLineConnectivity nodes connect_ends).
Proof.
  unfold generateLineConnectivity.
  apply preserves_bind_val with (R := fun l => length h0 <= l).
  - intros w Hw. unfold np_empty_pairs. destruct (_ <? 0)%Z.
    + split; [exact Hw | intros a [=]].
    + apply keeps_alloc, Hw.
  - intros conn Hconn.
    apply preserves_bind.
    + apply preserves_mfor. intros i _. apply keeps_setitem_row, Hconn.
    + intros _. apply preserves_bind.
      * destruct connect_ends; [apply keeps_setitem_row, Hconn | apply preserves_ret].
      * intros _. apply preserves_ret.
Qed.

Lemma keeps_att_values h0 atts i : preserves (keeps h0) (att_values atts i).
Proof.
  induction atts as [|[key a] atts IH]; cbn [att_values]; repeat keeps_step.
  exact IH.
Qed.

Lemma keeps_writeLineAVS h0 boundary outfile connections material_id node_atts cell_atts :
  preserves (keeps h0)
    (_writeLineAVS boundary outfile connections material_id node_atts cell_atts).
Proof.
  unfold _writeLineAVS, write_atts, check_atts, call.
  repeat first [ apply keeps_att_values | keeps_step ].
Qed.

Lemma keeps_write_facesets h0 ids acc : preserves (keeps h0) (write_facesets ids acc).
Proof.
  revert acc. induction ids as [|i ids IH]; intros acc; cbn [write_facesets].
  - apply preserves_ret.
  - apply preserves_bind; [| intros ?; apply IH].
    unfold write_faceset, call, call_as. repeat keeps_step.
Qed.


Ltac keeps_fn :=
  lazymatch goal with
  | |- preserves _ (generateLineConnectivity _ _) => apply keeps_generateLineConnectivity
  | |- preserves _ (_writeLineAVS _ _ _ _ _ _) => apply keeps_writeLineAVS
  | |- preserves _ (write_facesets _ _) => apply keeps_write_facesets
  | |- preserves _ (att_values _ _) => apply keeps_att_values
  | _ => keeps_step
  end.

(** C10.  Whatever the classifier is given and however it ends, every
    array that existed when it was called is still there with the same
    content: the shifted ids live in arrays of their own, made by
    [deepcopy], [-] and [+], and the only writes in place go to the
    connectivity array that the call itself has made. *)
Theorem generateComplexFacesets_keeps_arrays
    (outfile mesh_file : string) (boundary : list point) (facesets : facesets_arg)
    (w : world) (l : nat) (a : ndarray) :
  heap w !! l = Some a ->
  heap (snd (generateComplexFacesets outfile mesh_file boundary facesets w)) !! l = Some a.
Proof.
  revert l a.
  change (keeps (heap w) (snd (generateComplexFacesets outfile mesh_file boundary facesets w))).
  assert (H : preserves (keeps (heap w))
                (generateComplexFacesets outfile mesh_file boundary facesets)).
  { unfold generateComplexFacesets, classify_faces, normalized_attributes, surface_sides,
      top_split, np_deepcopy, np_sub_scalar, np_add_scalar, call, call_as.
    repeat keeps_fn. }
  apply H. intros l a Hl. exact Hl.
Qed.

Lemma generateComplexFacesets_keeps_arrays_witness :
  heap (snd (generateComplexFacesets "mesh.exo" "stacked.inp" triangle3 (FsArray 0)
               (World [Ints [5; 7; 6]%Z] []))) !! 0%nat
  = Some (Ints [5; 7; 6]%Z).
Proof.
  apply (generateComplexFacesets_keeps_arrays "mesh.exo" "stacked.inp" triangle3 (FsArray 0)
           (World [Ints [5; 7; 6]%Z] []) 0 (Ints [5; 7; 6]%Z)).
  reflexivity.
Defined.
End FacesetFrame.

Section FacesetRuns.
Import Session.

Lemma lookup_snoc {A} (h : list A) (x : A) : (h ++ [x]) !! length h = Some x.
Proof. rewrite lookup_app_r by lia. rewrite Nat.sub_diag. reflexivity. Qed.

Lemma run_load_ints (a : nat) (xs : list Z) (w : world) :
  heap w !! a = Some (Ints xs) -> load_ints a w = (Ok xs, w).
Proof. intros H. unfold load_ints, mbind, load. rewrite H. reflexivity. Qed.

Lemma run_load_pairs (a : nat) (rows : list (Z * Z)) (w : world) :
  heap w !! a = Some (Pairs rows) -> load_pairs a w = (Ok rows, w).
Proof. intros H. unfold load_pairs, mbind, load. rewrite H. reflexivity. Qed.

Lemma run_shape0_ints (a : nat) (xs : list Z) (w : world) :
  heap w !! a = Some (Ints xs) -> shape0 a w = (Ok (length xs), w).
Proof. intros H. unfold shape0, mbind, load. rewrite H. reflexivity. Qed.

Lemma run_shape0_pairs (a : nat) (rows : list (Z * Z)) (w : world) :
  heap w !! a = Some (Pairs rows) -> shape0 a w = (Ok (length rows), w).
Proof. intros H. unfold shape0, mbind, load. rewrite H. reflexivity. Qed.

Lemma run_bind {A B} (c : M world A) (k : A -> M world B) (a : A) (w1 w : world) :
  c w = (Ok a, w1) -> mbind c k w = k a w1.
Proof. intros H. unfold mbind. rewrite H. reflexivity. Qed.

Lemma run_bind_raise {A B} (c : M world A) (k : A -> M world B) (e : exn) (w1 w : world) :
  c w = (Raise e, w1) -> mbind c k w = (Raise e, w1).
Proof. intros H. unfold mbind. rewrite H. reflexivity. Qed.

(** Lines 661-667 on a non-empty array: three new arrays are made (the
    copy, the difference, the sum), and the check decides. *)
Lemma run_normalized_attributes (a : nat) (xs : list Z) (least : Z) (w : world) :
  heap w !! a = Some (Ints xs) ->
  np_min xs = Ok least ->
  normalized_attributes a w
  = ((if np_all_eq (np_unique (map (fun x => x + 1)%Z (map (fun x => x - least)%Z xs)))
                   (np_range1 (length (np_unique
                      (map (fun x => x + 1)%Z (map (fun x => x - least)%Z xs)))))
      then Ok (length (heap w) + 2)%nat
      else Raise (AssertionError "boundary_attributes cannot contain non-sequential values")),
     {| heap := heap w ++ [Ints xs; Ints (map (fun x => x - least)%Z xs);
                           Ints (map (fun x => x + 1)%Z (map (fun x => x - least)%Z xs))];
        trace := trace w |}).
Proof.
  intros Ha Hmin. unfold normalized_attributes, np_deepcopy, np_sub_scalar, np_add_scalar.
  cbv beta. rewrite (run_bind _ _ (length (heap w))
             {| heap := heap w ++ [Ints xs]; trace := trace w |}).
  2:{ rewrite (run_bind _ _ xs w) by (apply run_load_ints, Ha). reflexivity. }
  cbv beta. rewrite (run_bind _ _ least {| heap := heap w ++ [Ints xs]; trace := trace w |}).
  2:{ rewrite (run_bind _ _ xs {| heap := heap w ++ [Ints xs]; trace := trace w |}).
      - unfold mlift. rewrite Hmin. reflexivity.
      - apply run_load_ints. cbn. apply lookup_app_l_Some, Ha. }
  cbv beta. rewrite (run_bind _ _ (length (heap w) + 1)%nat
             {| heap := heap w ++ [Ints xs; Ints (map (fun x => x - least)%Z xs)];
                trace := trace w |}).
  2:{ rewrite (run_bind _ _ xs {| heap := heap w ++ [Ints xs]; trace := trace w |}).
      - unfold alloc. cbn. rewrite length_app, <- app_assoc. reflexivity.
      - apply run_load_ints. cbn. apply lookup_snoc. }
  cbv beta. rewrite (run_bind _ _ (length (heap w) + 2)%nat
             {| heap := heap w ++ [Ints xs; Ints (map (fun x => x - least)%Z xs);
                                   Ints (map (fun x => x + 1)%Z
                                          (map (fun x => x - least)%Z xs))];
                trace := trace w |}).
  2:{ rewrite (run_bind _ _ (map (fun x => x - least)%Z xs)
                 {| heap := heap w ++ [Ints xs; Ints (map (fun x => x - least)%Z xs)];
                    trace := trace w |}).
      - unfold alloc. cbn. rewrite length_app, <- app_assoc. cbn. repeat f_equal; try lia.
      - apply run_load_ints. cbn.
        rewrite lookup_app_r by lia.
        replace (length (heap w) + 1 - length (heap w))%nat with 1%nat by lia. reflexivity. }
  cbv beta. rewrite (run_bind _ _ (map (fun x => x + 1)%Z (map (fun x => x - least)%Z xs))
             {| heap := heap w ++ [Ints xs; Ints (map (fun x => x - least)%Z xs);
                                   Ints (map (fun x => x + 1)%Z
                                          (map (fun x => x - least)%Z xs))];
                trace := trace w |}).
  2:{ apply run_load_ints. cbn. rewrite lookup_app_r by lia.
      replace (length (heap w) + 2 - length (heap w))%nat with 2%nat by lia. reflexivity. }
  cbv beta. destruct (np_all_eq _ _); reflexivity.
Qed.

Lemma mfor_ok {A} (I : world -> Prop) (xs : list A) (body : A -> M world unit) :
  (forall x w, In x xs -> I w -> exists w', body x w = (Ok tt, w') /\ I w') ->
  forall w, I w -> exists w', mfor xs body w = (Ok tt, w') /\ I w'.
Proof.
  induction xs as [|x xs IH]; intros H w Hw; cbn [mfor].
  - exists w. split; [reflexivity | exact Hw].
  - destruct (H x w) as (w1 & Hrun & Hw1); [left; reflexivity | exact Hw |].
    cbv beta. rewrite (run_bind _ _ tt w1 _ Hrun).
    apply IH; [| exact Hw1]. intros y w2 Hy. apply H. right. exact Hy.
Qed.

(** The polyline of a non-empty boundary: a new array with one row per
    edge; nothing else changes. *)
Lemma run_generateLineConnectivity (nodes : list point) (connect_ends : bool) (w : world) :
  nodes <> [] ->
  exists rows,
    length rows = (if connect_ends then length nodes else length nodes - 1)%nat /\
    generateLineConnectivity nodes connect_ends w
    = (Ok (length (heap w)), {| heap := heap w ++ [Pairs rows]; trace := trace w |}).
Proof.
  intros Hne.
  assert (Hn : (0 < length nodes)%nat) by (destruct nodes; [congruence | cbn; lia]).
  set (n := length nodes) in *.
  set (m := (if connect_ends then n else n - 1)%nat).
  set (I := fun w' : world =>
              exists rows, length rows = m /\
                           w' = {| heap := heap w ++ [Pairs rows]; trace := trace w |}).
  assert (Hset : forall (i : Z) (row : Z * Z) (w' : world),
             (0 <= (if (i <? 0)%Z then i + Z.of_nat m else i) < Z.of_nat m)%Z -> I w' ->
             exists w'', setitem_row (length (heap w)) i row w' = (Ok tt, w'') /\ I w'').
  { intros i row w' Hi (rows & Hlen & ->). unfold setitem_row. cbn [heap trace].
    rewrite lookup_snoc. cbv zeta. rewrite Hlen.
    destruct (_ && _)%Z eqn:E; [| lia].
    eexists. split; [reflexivity |].
    exists (<[Z.to_nat (if (i <? 0)%Z then (i + Z.of_nat m)%Z else i) := row]> rows).
    split; [rewrite length_insert; exact Hlen |].
    f_equal. rewrite insert_app_r_alt by lia. rewrite Nat.sub_diag. reflexivity. }
  unfold generateLineConnectivity. fold n.
  rewrite (run_bind _ _ (length (heap w))
             {| heap := heap w ++ [Pairs (repeat (0, 0)%Z m)]; trace := trace w |}).
  2:{ unfold np_empty_pairs, m.
      destruct connect_ends.
      - destruct (Z.ltb_spec (Z.of_nat n + 0) 0); [lia |].
        unfold alloc. rewrite Z.add_0_r, Nat2Z.id. reflexivity.
      - destruct (Z.ltb_spec (Z.of_nat n + -1) 0); [lia |].
        unfold alloc. replace (Z.to_nat (Z.of_nat n + -1)) with (n - 1)%nat by lia.
        reflexivity. }
  cbv beta.
  destruct (mfor_ok I (seq 0 (n - 1))
              (fun i => setitem_row (length (heap w)) (Z.of_nat i)
                          (Z.of_nat i + 1, Z.of_nat i + 2)%Z))
    with (w := {| heap := heap w ++ [Pairs (repeat (0, 0)%Z m)]; trace := trace w |})
    as (w1 & Hloop & Hw1).
  { intros i w' Hi Hw'. apply Hset; [| exact Hw']. apply in_seq in Hi.
    destruct (Z.ltb_spec (Z.of_nat i) 0); [lia |]. unfold m. destruct connect_ends; lia. }
  { exists (repeat (0, 0)%Z m). split; [apply repeat_length | reflexivity]. }
  rewrite (run_bind _ _ tt w1 _ Hloop). cbv beta.
  unfold m in *. destruct connect_ends.
  - destruct (Hset (-1)%Z (Z.of_nat n, 1%Z) w1) as (w2 & Hlast & (rows & Hlen & ->)).
    { cbn. lia. }
    { exact Hw1. }
    rewrite (run_bind _ _ tt _ _ Hlast). cbv beta.
    exists rows. split; [exact Hlen | reflexivity].
  - destruct Hw1 as (rows & Hlen & ->).
    exists rows. split; [exact Hlen | reflexivity].
Qed.

Lemma succeeds_bind {A B} (I : world -> Prop) (Q : A -> Prop) (R : B -> Prop)
    (c : M world A) (k : A -> M world B) :
  succeeds I c Q -> (forall a, Q a -> succeeds I (k a) R) -> succeeds I (mbind c k) R.
Proof.
  intros Hc Hk w Hw. destruct (Hc w Hw) as (a & w1 & Hrun & Hw1 & Ha).
  rewrite (run_bind _ _ a w1 _ Hrun). apply (Hk a Ha w1 Hw1).
Qed.

Lemma succeeds_ret {A} (I : world -> Prop) (a : A) : succeeds I (mret a) (eq a).
Proof. intros w Hw. exists a, w. auto. Qed.

Lemma succeeds_weaken {A} (I : world -> Prop) (Q Q' : A -> Prop) (c : M world A) :
  succeeds I c Q -> (forall a, Q a -> Q' a) -> succeeds I c Q'.
Proof.
  intros Hc HQ w Hw. destruct (Hc w Hw) as (a & w1 & Hrun & Hw1 & Ha). eauto 6.
Qed.

Lemma succeeds_mfor {A} (I : world -> Prop) (xs : list A) (body : A -> M world unit) :
  (forall x, In x xs -> succeeds I (body x) (fun _ => True)) ->
  succeeds I (mfor xs body) (fun _ => True).
Proof.
  intros H w Hw.
  assert (H' : forall x w1, In x xs -> I w1 -> exists w2, body x w1 = (Ok tt, w2) /\ I w2).
  { intros x w1 Hx Hw1. destruct (H x Hx w1 Hw1) as ([] & w2 & Hr & Hw2 & _). eauto. }
  destruct (mfor_ok I xs body H' w Hw) as (w' & Hrun & Hw'). eauto.
Qed.

Section FileWriting.
Variables (h : list ndarray) (t0 : list event).
Let writing := writing h t0.

Lemma succeeds_emit_file (e : event) :
  is_file_event e = true -> succeeds writing (emit e) (fun _ => True).
Proof.
  intros He w [Hh Ht]. exists tt, (snd (emit e w)). split; [reflexivity |].
  split; [| exact I]. split; [exact Hh | apply grown_by_emit; assumption].
Qed.

Lemma succeeds_load_ints (l : nat) (xs : list Z) :
  h !! l = Some (Ints xs) -> succeeds writing (load_ints l) (eq xs).
Proof.
  intros Hl w [Hh Ht]. exists xs, w. rewrite (run_load_ints l xs) by (rewrite Hh; exact Hl).
  repeat split; assumption.
Qed.

Lemma succeeds_load_pairs (l : nat) (rows : list (Z * Z)) :
  h !! l = Some (Pairs rows) -> succeeds writing (load_pairs l) (eq rows).
Proof.
  intros Hl w [Hh Ht]. exists rows, w. rewrite (run_load_pairs l rows) by (rewrite Hh; exact Hl).
  repeat split; assumption.
Qed.

Lemma succeeds_getitem {A} (xs : list A) (i : nat) (x : A) :
  xs !! i = Some x -> succeeds writing (getitem xs i) (eq x).
Proof.
  intros Hx w Hw. exists x, w. unfold getitem. rewrite Hx. auto.
Qed.

Lemma succeeds_writeLineAVS_plain (boundary : list point) (outfile : string)
    (c m : nat) (rows : list (Z * Z)) (ids : list Z) :
  h !! c = Some (Pairs rows) -> h !! m = Some (Ints ids) ->
  length rows <= length ids ->
  succeeds writing (_writeLineAVS boundary outfile (Some c) (Some m) None None)
           (fun _ => True).
Proof.
  intros Hc Hm Hlen. unfold _writeLineAVS.
  eapply succeeds_bind with (Q := eq (length rows)).
  { intros w [Hh Ht]. exists (length rows), w.
    rewrite (run_shape0_pairs c rows) by (rewrite Hh; exact Hc). repeat split; assumption. }
  intros nlines <-.
  eapply succeeds_bind with (Q := fun _ => True).
  { eapply succeeds_bind with (Q := eq (length ids)).
    - intros w [Hh Ht]. exists (length ids), w.
      rewrite (run_shape0_ints m ids) by (rewrite Hh; exact Hm). repeat split; assumption.
    - intros n <-. destruct (Nat.leb_spec (length rows) (length ids)); [| lia].
      eapply succeeds_weaken; [apply succeeds_ret | auto]. }
  intros _ _.
  eapply succeeds_bind; [apply succeeds_emit_file; reflexivity | intros _ _].
  eapply succeeds_bind; [apply succeeds_emit_file; reflexivity | intros _ _].
  eapply succeeds_bind.
  { apply succeeds_mfor. intros [i p] _. apply succeeds_emit_file. reflexivity. }
  intros _ _.
  eapply succeeds_bind.
  { apply succeeds_mfor. intros i Hi. apply in_seq in Hi.
    destruct (lookup_lt_is_Some_2 ids i) as [v Hv]; [lia |].
    destruct (lookup_lt_is_Some_2 rows i) as [row Hrow]; [lia |].
    eapply succeeds_bind with (Q := eq v).
    { eapply succeeds_bind; [apply succeeds_load_ints, Hm |].
      intros xs <-. apply succeeds_getitem, Hv. }
    intros ? <-.
    eapply succeeds_bind; [apply succeeds_load_pairs, Hc |].
    intros ? <-.
    eapply succeeds_bind; [apply succeeds_getitem, Hrow |].
    intros ? <-. apply succeeds_emit_file. reflexivity. }
  intros _ _.
  eapply succeeds_bind with (Q := fun _ => True);
    [eapply succeeds_weaken; [apply succeeds_ret | auto] | intros _ _].
  eapply succeeds_bind with (Q := fun _ => True);
    [eapply succeeds_weaken; [apply succeeds_ret | auto] | intros _ _].
  apply succeeds_emit_file. reflexivity.
Qed.

End FileWriting.

Lemma run_writeLineAVS_plain (boundary : list point) (outfile : string)
    (c m : nat) (rows : list (Z * Z)) (ids : list Z) (w : world) :
  heap w !! c = Some (Pairs rows) -> heap w !! m = Some (Ints ids) ->
  length rows <= length ids ->
  exists evs,
    forallb is_file_event evs = true /\
    _writeLineAVS boundary outfile (Some c) (Some m) None None w
    = (Ok tt, {| heap := heap w; trace := trace w ++ evs |}).
Proof.
  intros Hc Hm Hlen.
  destruct (succeeds_writeLineAVS_plain (heap w) (trace w) boundary outfile c m rows ids
              Hc Hm Hlen w) as ([] & [h' t'] & Hrun & [Hh (evs & Ht & Hall)] & _).
  { split; [reflexivity |]. exists []. rewrite app_nil_r. auto. }
  exists evs. split; [exact Hall |]. rewrite Hrun. cbn in Hh, Ht. subst. reflexivity.
Qed.


Lemma emits_run {A B} (c : M world A) (k : A -> M world B) (a : A) (evs : list event)
    (w : world) :
  emits c a evs -> mbind c k w = k a {| heap := heap w; trace := trace w ++ evs |}.
Proof. intros H. unfold mbind. rewrite H. reflexivity. Qed.

Lemma surface_sides_emits (mesh_file boundary_file : string) (has_top : bool) :
  exists evs,
    emits (surface_sides mesh_file boundary_file has_top) tt evs /\
    forallb (fun e => negb (is_faceset_dump e)) evs = true.
Proof.
  destruct has_top; eexists; (split; [unfold surface_sides; emits_go | reflexivity]).
Qed.

Lemma top_split_emits (n : nat) :
  exists evs,
    emits (top_split n) (n + 1)%nat evs /\
    forallb (fun e => negb (is_faceset_dump e)) evs = true /\
    In (top_split_setatt (n + 1)) evs.
Proof.
  eexists. split; [unfold top_split; emits_go | split; [reflexivity |]].
  cbn. do 8 right. left. reflexivity.
Qed.

Lemma write_faceset_emits :
  exists f : nat -> list event,
    forall i, emits (write_faceset i) (faceset_file i) (f i) /\
              List.filter is_faceset_dump (f i) = [faceset_dump i].
Proof.
  eexists (fun i => _). intros i.
  split; [unfold write_faceset; emits_go | reflexivity].
Qed.

Lemma write_facesets_emits (f : nat -> list event) :
  (forall i, emits (write_faceset i) (faceset_file i) (f i)) ->
  forall ids acc,
    emits (write_facesets ids acc) (acc ++ map faceset_file ids) (flat_map f ids).
Proof.
  intros Hf. induction ids as [|i ids IH]; intros acc; cbn [write_facesets map flat_map].
  - rewrite app_nil_r. apply emits_ret.
  - eapply emits_bind; [apply Hf |].
    replace (acc ++ faceset_file i :: map faceset_file ids)
      with ((acc ++ [faceset_file i]) ++ map faceset_file ids)
      by (rewrite <- app_assoc; reflexivity).
    apply IH.
Qed.

Lemma filter_flat_map_dumps (f : nat -> list event) (ids : list nat) :
  (forall i, List.filter is_faceset_dump (f i) = [faceset_dump i]) ->
  List.filter is_faceset_dump (flat_map f ids) = map faceset_dump ids.
Proof.
  intros Hf. induction ids as [|i ids IH]; cbn; [reflexivity |].
  rewrite List.filter_app, Hf, IH. reflexivity.
Qed.

Lemma filter_none {A} (P : A -> bool) (l : list A) :
  forallb (fun x => negb (P x)) l = true -> List.filter P l = [].
Proof.
  induction l as [|x l IH]; cbn; [reflexivity |].
  intros H. apply andb_true_iff in H as [Hx H]. apply negb_true_iff in Hx.
  rewrite Hx. apply IH, H.
Qed.

Lemma file_events_no_dump (evs : list event) :
  forallb is_file_event evs = true ->
  forallb (fun e => negb (is_faceset_dump e)) evs = true.
Proof.
  apply forallb_weaken. intros [] ?; try reflexivity; discriminate.
Qed.

Lemma insert_unique_map (f : Z -> Z) (x : Z) (l : list Z) :
  (forall a b, (a < b)%Z -> (f a < f b)%Z) ->
  insert_unique (f x) (map f l) = map f (insert_unique x l).
Proof.
  intros Hf. induction l as [|y l IH]; cbn; [reflexivity |].
  destruct (Z.ltb_spec x y) as [Hlt | Hge].
  - destruct (Z.ltb_spec (f x) (f y)); [reflexivity |]. specialize (Hf x y Hlt). lia.
  - destruct (Z.eqb_spec x y) as [-> | Hne].
    + rewrite Z.ltb_irrefl, Z.eqb_refl. reflexivity.
    + assert (f y < f x)%Z by (apply Hf; lia).
      destruct (Z.ltb_spec (f x) (f y)); [lia |].
      destruct (Z.eqb_spec (f x) (f y)); [lia |]. cbn. rewrite IH. reflexivity.
Qed.

Lemma np_unique_map (f : Z -> Z) (xs : list Z) :
  (forall a b, (a < b)%Z -> (f a < f b)%Z) ->
  np_unique (map f xs) = map f (np_unique xs).
Proof.
  intros Hf. unfold np_unique.
  induction xs as [|x xs IH]; cbn [map fold_right]; [reflexivity |].
  rewrite IH. apply insert_unique_map, Hf.
Qed.

(** The shift keeps the number of distinct ids. *)
Lemma shifted_ids_distinct (least : Z) (xs : list Z) :
  length (np_unique (shifted_ids least xs)) = length (np_unique xs).
Proof.
  unfold shifted_ids. rewrite !np_unique_map by (intros; lia). rewrite !length_map.
  reflexivity.
Qed.


Lemma exodus_dump_not_faceset (outfile : string) (files : list string) :
  is_faceset_dump (exodus_dump outfile files) = false.
Proof. reflexivity. Qed.

(** The run of [classify_faces] on an accepted array, given that the
    boundary file could be written: what is added to the trace. *)
Lemma classify_faces_run (outfile mesh_file : string) (boundary : list point)
    (a : nat) (cell_atts : option (list (string * nat))) (has_top : bool)
    (xs : list Z) (least : Z) (w w4 w5 : world) (conn : nat) :
  heap w !! a = Some (Ints xs) ->
  np_min xs = Ok least ->
  np_all_eq (np_unique (shifted_ids least xs))
            (np_range1 (length (np_unique (shifted_ids least xs)))) = true ->
  generateLineConnectivity boundary true
    {| heap := heap w ++ [Ints xs; Ints (map (fun x => x - least)%Z xs);
                          Ints (shifted_ids least xs)];
       trace := trace w |} = (Ok conn, w4) ->
  _writeLineAVS boundary "_boundary_line_colors.inp" (Some conn)
    (Some (length (heap w) + 2)%nat) None cell_atts w4 = (Ok tt, w5) ->
  exists evs,
    classify_faces outfile mesh_file boundary a cell_atts has_top w
    = (Ok tt, {| heap := heap w5; trace := trace w ++ evs |}) /\
    let n := (length (np_unique xs) + 2 + (if has_top then 1 else 0))%nat in
    List.filter is_faceset_dump evs = map faceset_dump (seq 1 n) /\
    last evs = Some (exodus_dump outfile (map faceset_file (seq 1 n))) /\
    (has_top = true -> In (top_split_setatt n) evs).
Proof.
  intros Ha Hmin Hcheck Hconn Hwrite.
  set (w3 := {| heap := heap w ++ [Ints xs; Ints (map (fun x => x - least)%Z xs);
                                   Ints (shifted_ids least xs)];
                trace := trace w |}) in *.
  assert (Hids3 : heap w3 !! (length (heap w) + 2)%nat = Some (Ints (shifted_ids least xs))).
  { cbn. rewrite lookup_app_r by lia.
    replace (length (heap w) + 2 - length (heap w))%nat with 2%nat by lia. reflexivity. }
  assert (Hk4 : keeps (heap w3) w4).
  { pose proof (keeps_generateLineConnectivity (heap w3) boundary true w3) as H.
    rewrite Hconn in H. apply H. intros l b Hl. exact Hl. }
  assert (Hk5 : keeps (heap w3) w5).
  { pose proof (keeps_writeLineAVS (heap w3) boundary "_boundary_line_colors.inp"
                  (Some conn) (Some (length (heap w) + 2)%nat) None cell_atts w4 Hk4) as H.
    rewrite Hwrite in H. exact H. }
  assert (Ht4 : trace w4 = trace w).
  { pose proof (trace_generateLineConnectivity boundary true w3) as H.
    rewrite Hconn in H. exact H. }
  destruct (grown_by_writeLineAVS (trace w4) boundary "_boundary_line_colors.inp"
              (Some conn) (Some (length (heap w) + 2)%nat) None cell_atts w4)
    as (evsW & HtW & HfW).
  { exists []. rewrite app_nil_r. auto. }
  rewrite Hwrite in HtW. cbn [snd] in HtW. rewrite Ht4 in HtW.
  destruct (surface_sides_emits mesh_file "_boundary_line_colors.inp" has_top)
    as (evsS & HS & HnS).
  destruct write_faceset_emits as (f & Hf).
  pose proof (write_facesets_emits f (fun i => proj1 (Hf i))) as HF.
  pose proof (filter_flat_map_dumps f) as HFd.
  specialize (HFd (seq 1 (length (np_unique xs) + 2 + (if has_top then 1 else 0)))
                  (fun i => proj2 (Hf i))).
  assert (Hdistinct := shifted_ids_distinct least xs).
  unfold classify_faces.
  rewrite (run_bind _ _ (length (heap w) + 2)%nat w3).
  2:{ rewrite (run_normalized_attributes a xs least w Ha Hmin).
      fold (shifted_ids least xs). rewrite Hcheck. reflexivity. }
  cbv beta zeta.
  rewrite (run_bind _ _ conn w4 _ Hconn). cbv beta.
  rewrite (run_bind _ _ tt w5 _ Hwrite). cbv beta.
  rewrite (emits_run _ _ tt evsS _ HS). cbv beta.
  rewrite (run_bind _ _ (shifted_ids least xs)
             {| heap := heap w5; trace := trace w5 ++ evsS |}).
  2:{ apply run_load_ints. cbn [heap]. apply Hk5, Hids3. }
  cbv beta. rewrite Hdistinct.
  destruct has_top.
  - destruct (top_split_emits (length (np_unique xs) + 2)) as (evsT & HT & HnT & HinT).
    rewrite (emits_run _ _ _ evsT _ HT). cbv beta.
    rewrite (emits_run _ _ _ _ _ (HF _ _)). cbv beta. cbn [app heap trace].
    exists (evsW ++ evsS ++ evsT
            ++ flat_map f (seq 1 (length (np_unique xs) + 2 + 1))
            ++ [exodus_dump outfile
                  (map faceset_file (seq 1 (length (np_unique xs) + 2 + 1)))]).
    split.
    + unfold call, emit, mmodify, exodus_dump. cbn [heap trace].
      rewrite HtW, <- !app_assoc. reflexivity.
    + cbv zeta. split; [| split].
      * rewrite !List.filter_app, HFd.
        rewrite (filter_none _ evsW) by (apply file_events_no_dump, HfW).
        rewrite (filter_none _ evsS HnS), (filter_none _ evsT HnT).
        cbn [List.filter]. rewrite exodus_dump_not_faceset. cbn [app].
        apply app_nil_r.
      * rewrite !app_assoc. apply last_snoc.
      * intros _. apply in_or_app. right. apply in_or_app. right.
        apply in_or_app. left. exact HinT.
  - rewrite (run_bind _ _ (length (np_unique xs) + 2)%nat
               {| heap := heap w5; trace := trace w5 ++ evsS |}) by reflexivity.
    cbv beta. rewrite Nat.add_0_r in *.
    rewrite (emits_run _ _ _ _ _ (HF _ _)). cbv beta. cbn [app heap trace].
    exists (evsW ++ evsS
            ++ flat_map f (seq 1 (length (np_unique xs) + 2))
            ++ [exodus_dump outfile (map faceset_file (seq 1 (length (np_unique xs) + 2)))]).
    split.
    + unfold call, emit, mmodify, exodus_dump. cbn [heap trace].
      rewrite HtW, <- !app_assoc. reflexivity.
    + cbv zeta. split; [| split].
      * rewrite !List.filter_app, HFd.
        rewrite (filter_none _ evsW) by (apply file_events_no_dump, HfW).
        rewrite (filter_none _ evsS HnS).
        cbn [List.filter]. rewrite exodus_dump_not_faceset. cbn [app].
        apply app_nil_r.
      * rewrite !app_assoc. apply last_snoc.
      * discriminate.
Qed.


Lemma run_normalized_attributes_empty (a : nat) (w : world) :
  heap w !! a = Some (Ints []) ->
  is_ok (fst (normalized_attributes a w)) = false.
Proof.
  intros Ha. unfold normalized_attributes, np_deepcopy.
  rewrite (run_bind _ _ (length (heap w)) {| heap := heap w ++ [Ints []]; trace := trace w |}).
  2:{ rewrite (run_bind _ _ [] w) by (apply run_load_ints, Ha). reflexivity. }
  cbv beta. erewrite run_bind_raise; [reflexivity |].
  rewrite (run_bind _ _ [] {| heap := heap w ++ [Ints []]; trace := trace w |}).
  - reflexivity.
  - apply run_load_ints. cbn. apply lookup_app_l_Some, Ha.
Qed.

Lemma run_generateComplexFacesets (outfile mesh_file : string) (boundary : list point)
    (facesets : facesets_arg) (a : nat) (w : world) :
  facesets_all facesets = Some a ->
  exists cell_atts,
    generateComplexFacesets outfile mesh_file boundary facesets w
    = classify_faces outfile mesh_file boundary a cell_atts (facesets_has_top facesets) w /\
    (facesets_has_top facesets = false -> cell_atts = None).
Proof.
  intros Hall. unfold generateComplexFacesets. destruct facesets as [a0 | d]; cbn in Hall |- *.
  - injection Hall as ->. exists None. split; reflexivity.
  - rewrite Hall. destruct (d !! "top"%string) as [top|].
    + eexists. split; [reflexivity | discriminate].
    + exists None. split; reflexivity.
Qed.

(** C4.  Whenever the classifier returns, for an array of boundary ids
    with k distinct values: the commands that write a faceset file are
    exactly those for the ids 1, ..., k + 2 (1, ..., k + 3 when a top split
    is asked for), in this order; the closing export names exactly these
    files; and with a top split the faces of the split are given the id
    k + 3. *)
Theorem generateComplexFacesets_faceset_count
    (outfile mesh_file : string) (boundary : list point) (facesets : facesets_arg)
    (a : nat) (xs : list Z) (w w' : world) :
  facesets_all facesets = Some a ->
  heap w !! a = Some (Ints xs) ->
  generateComplexFacesets outfile mesh_file boundary facesets w = (Ok tt, w') ->
  let k := length (np_unique xs) in
  let n := (if facesets_has_top facesets then k + 3 else k + 2)%nat in
  exists evs,
    trace w' = trace w ++ evs /\
    List.filter is_faceset_dump evs = map faceset_dump (seq 1 n) /\
    last evs = Some (exodus_dump outfile (map faceset_file (seq 1 n))) /\
    (facesets_has_top facesets = true -> In (top_split_setatt (k + 3)) evs).
Proof.
  intros Hall Ha Hrun. cbv zeta.
  destruct (run_generateComplexFacesets outfile mesh_file boundary facesets a w Hall)
    as (cell_atts & Heq & _).
  rewrite Heq in Hrun. clear Heq.
  pose proof Hrun as Hinv. unfold classify_faces in Hinv.
  apply mbind_ok_inv in Hinv as (a' & w3 & Hnorm & Hinv).
  destruct xs as [|x xs'].
  { pose proof (run_normalized_attributes_empty a w Ha) as He.
    rewrite Hnorm in He. discriminate. }
  set (xs := x :: xs') in *.
  assert (Hmin : np_min xs = Ok (fold_left Z.min xs' x)) by reflexivity.
  rewrite (run_normalized_attributes a xs _ w Ha Hmin) in Hnorm.
  fold (shifted_ids (fold_left Z.min xs' x) xs) in Hnorm.
  destruct (np_all_eq _ _) eqn:Hcheck; [| discriminate].
  injection Hnorm as <- <-.
  cbv beta zeta in Hinv.
  apply mbind_ok_inv in Hinv as (conn & w4 & Hconn & Hinv).
  apply mbind_ok_inv in Hinv as ([] & w5 & Hwrite & _).
  destruct (classify_faces_run outfile mesh_file boundary a cell_atts
              (facesets_has_top facesets) xs _ w w4 w5 conn Ha Hmin Hcheck Hconn Hwrite)
    as (evs & Hrun' & Hfilter & Hlast & Htop).
  rewrite Hrun' in Hrun. injection Hrun as <-. cbn [trace].
  exists evs. cbv zeta in Hfilter, Hlast, Htop.
  assert (En : forall b : bool,
             (length (np_unique xs) + 2 + (if b then 1 else 0)
              = if b then length (np_unique xs) + 3 else length (np_unique xs) + 2)%nat)
    by (intros []; lia).
  rewrite En in Hfilter, Hlast, Htop.
  split; [reflexivity | split; [exact Hfilter | split; [exact Hlast |]]].
  intros Ht. specialize (Htop Ht). rewrite Ht in Htop. exact Htop.
Qed.

Lemma np_min_map (f : Z -> Z) (xs : list Z) (least : Z) :
  (forall a b, (a <= b)%Z -> (f a <= f b)%Z) ->
  np_min xs = Ok least -> np_min (map f xs) = Ok (f least).
Proof.
  intros Hf. destruct xs as [|x xs]; [discriminate |]. cbn. intros [= <-]. f_equal.
  revert x. induction xs as [|y xs IH]; intros x; cbn; [reflexivity |].
  rewrite <- IH. f_equal.
  destruct (Z.min_spec x y) as [[H ->] | [H ->]];
    destruct (Z.min_spec (f x) (f y)) as [[H' ->] | [H' ->]]; try reflexivity.
  - assert (f x <= f y)%Z by (apply Hf; lia). lia.
  - assert (f y <= f x)%Z by (apply Hf; lia). lia.
Qed.

(** C3.  For an array of boundary ids, given as it is or under ['all']
    in a dict without ['top'], that is non-empty with least value [least],
    and a non-empty boundary that is not longer than the array: the
    shifted ids have least value 1, the call is accepted exactly when the
    shifted ids are the values 1, ..., k for some k, and otherwise it
    raises the assertion about non-sequential values before any file is
    written or any call is issued.  The array [1,3,2] is accepted, the
    array [1,4,3] is rejected. *)
Theorem generateComplexFacesets_accepts_iff_sequential :
  (forall (outfile mesh_file : string) (boundary : list point) (facesets : facesets_arg)
          (a : nat) (xs : list Z) (least : Z) (w : world),
     facesets_all facesets = Some a ->
     facesets_has_top facesets = false ->
     heap w !! a = Some (Ints xs) ->
     np_min xs = Ok least ->
     boundary <> [] ->
     length boundary <= length xs ->
     let r := generateComplexFacesets outfile mesh_file boundary facesets w in
     np_min (shifted_ids least xs) = Ok 1%Z /\
     (is_ok (fst r) = true <-> exists k, ids_are_1_to k (shifted_ids least xs)) /\
     ((~ exists k, ids_are_1_to k (shifted_ids least xs)) ->
        fst r = Raise (AssertionError
                         "boundary_attributes cannot contain non-sequential values") /\
        trace (snd r) = trace w)) /\
  (forall (outfile mesh_file : string) (boundary : list point) (facesets : facesets_arg)
          (a : nat) (w : world),
     facesets_all facesets = Some a ->
     facesets_has_top facesets = false ->
     heap w !! a = Some (Ints [1; 3; 2]%Z) ->
     boundary <> [] -> length boundary <= 3 ->
     is_ok (fst (generateComplexFacesets outfile mesh_file boundary facesets w)) = true) /\
  (forall (outfile mesh_file : string) (boundary : list point) (facesets : facesets_arg)
          (a : nat) (w : world),
     facesets_all facesets = Some a ->
     facesets_has_top facesets = false ->
     heap w !! a = Some (Ints [1; 4; 3]%Z) ->
     boundary <> [] -> length boundary <= 3 ->
     fst (generateComplexFacesets outfile mesh_file boundary facesets w)
     = Raise (AssertionError "boundary_attributes cannot contain non-sequential values")).
Proof.
  assert (General : forall (outfile mesh_file : string) (boundary : list point)
                           (facesets : facesets_arg) (a : nat)
                           (xs : list Z) (least : Z) (w : world),
             facesets_all facesets = Some a ->
             facesets_has_top facesets = false ->
             heap w !! a = Some (Ints xs) ->
             np_min xs = Ok least ->
             boundary <> [] ->
             length boundary <= length xs ->
             let r := generateComplexFacesets outfile mesh_file boundary facesets w in
             np_min (shifted_ids least xs) = Ok 1%Z /\
             (is_ok (fst r) = true <-> exists k, ids_are_1_to k (shifted_ids least xs)) /\
             ((~ exists k, ids_are_1_to k (shifted_ids least xs)) ->
                fst r = Raise (AssertionError
                                 "boundary_attributes cannot contain non-sequential values") /\
                trace (snd r) = trace w)).
  { intros outfile mesh_file boundary facesets a xs least w Hall Htop Ha Hmin Hne Hlen.
    cbv zeta. split.
    { unfold shifted_ids.
      rewrite (np_min_map (fun x => x + 1)%Z _ (least - least)%Z); [f_equal; lia | intros; lia |].
      apply (np_min_map (fun x => x - least)%Z); [intros; lia | exact Hmin]. }
    destruct (run_generateComplexFacesets outfile mesh_file boundary facesets a w Hall)
      as (cell_atts & -> & Hnone).
    rewrite (Hnone Htop), Htop. clear Hnone cell_atts.
    rewrite <- sequential_check.
    destruct (np_all_eq (np_unique (shifted_ids least xs))
                (np_range1 (length (np_unique (shifted_ids least xs))))) eqn:Hcheck.
    - set (w3 := {| heap := heap w ++ [Ints xs; Ints (map (fun x => x - least)%Z xs);
                                       Ints (shifted_ids least xs)];
                    trace := trace w |}).
      destruct (run_generateLineConnectivity boundary true w3 Hne)
        as (rows & Hrows & Hconn).
      destruct (run_writeLineAVS_plain boundary "_boundary_line_colors.inp"
                  (length (heap w3)) (length (heap w) + 2)%nat rows (shifted_ids least xs)
                  {| heap := heap w3 ++ [Pairs rows]; trace := trace w3 |})
        as (evsW & _ & Hwrite).
      { cbn [heap]. apply lookup_snoc. }
      { cbn [heap]. apply lookup_app_l_Some. unfold w3. cbn [heap].
        rewrite lookup_app_r by lia.
        replace (length (heap w) + 2 - length (heap w))%nat with 2%nat by lia. reflexivity. }
      { unfold shifted_ids. rewrite !length_map. lia. }
      destruct (classify_faces_run outfile mesh_file boundary a None false xs least w _ _ _
                  Ha Hmin Hcheck Hconn Hwrite) as (evs & -> & _).
      cbn [fst is_ok]. split; [tauto | intros H; exfalso; apply H; reflexivity].
    - unfold classify_faces.
      rewrite (run_bind_raise _ _
                 (AssertionError "boundary_attributes cannot contain non-sequential values")
                 {| heap := heap w ++ [Ints xs; Ints (map (fun x => x - least)%Z xs);
                                       Ints (shifted_ids least xs)];
                    trace := trace w |}).
      2:{ rewrite (run_normalized_attributes a xs least w Ha Hmin).
          fold (shifted_ids least xs). rewrite Hcheck. reflexivity. }
      cbn [fst snd is_ok trace]. split; [split; discriminate | auto]. }
  split; [exact General | split].
  - intros outfile mesh_file boundary facesets a w Hall Htop Ha Hne Hlen.
    destruct (General outfile mesh_file boundary facesets a [1; 3; 2]%Z 1%Z w Hall Htop Ha
                eq_refl Hne Hlen) as (_ & Hiff & _).
    apply Hiff. exists 3%Z. intros v. cbn. lia.
  - intros outfile mesh_file boundary facesets a w Hall Htop Ha Hne Hlen.
    destruct (General outfile mesh_file boundary facesets a [1; 4; 3]%Z 1%Z w Hall Htop Ha
                eq_refl Hne Hlen) as (_ & _ & Hrej).
    apply Hrej. intros (k & Hk).
    assert (H4 : (1 <= 4 <= k)%Z) by (apply Hk; cbn; lia).
    assert (H2 : In 2%Z (shifted_ids 1 [1; 4; 3]%Z)) by (apply Hk; lia).
    cbn in H2. lia.
Qed.

Lemma generateComplexFacesets_accepts_iff_sequential_witness :
  let r := generateComplexFacesets "mesh.exo" "stacked.inp" triangle3 (FsArray 0)
             (World [Ints [5; 7; 6]%Z] []) in
  np_min (shifted_ids 5 [5; 7; 6]%Z) = Ok 1%Z /\
  (is_ok (fst r) = true <-> exists k, ids_are_1_to k (shifted_ids 5 [5; 7; 6]%Z)) /\
  ((~ exists k, ids_are_1_to k (shifted_ids 5 [5; 7; 6]%Z)) ->
     fst r = Raise (AssertionError
                      "boundary_attributes cannot contain non-sequential values") /\
     trace (snd r) = trace (World [Ints [5; 7; 6]%Z] [])).
Proof.
  apply (proj1 generateComplexFacesets_accepts_iff_sequential "mesh.exo" "stacked.inp"
           triangle3 (FsArray 0) 0%nat [5; 7; 6]%Z 5%Z (World [Ints [5; 7; 6]%Z] [])).
  - reflexivity.
  - reflexivity.
  - reflexivity.
  - reflexivity.
  - discriminate.
  - cbn. lia.
Defined.

Lemma generateComplexFacesets_faceset_count_witness :
  exists evs,
    trace (snd (generateComplexFacesets "mesh.exo" "stacked.inp" triangle3
                  (FsDict {[ "all"%string := 0%nat; "top"%string := 1%nat ]})
                  (World [Ints [5; 7; 6]%Z; Ints [1; 2; 1]%Z] [])))
    = [] ++ evs /\
    List.filter is_faceset_dump evs = map faceset_dump (seq 1 6) /\
    last evs = Some (exodus_dump "mesh.exo" (map faceset_file (seq 1 6))) /\
    (true = true -> In (top_split_setatt 6) evs).
Proof.
  refine (generateComplexFacesets_faceset_count "mesh.exo" "stacked.inp" triangle3
            (FsDict {[ "all"%string := 0%nat; "top"%string := 1%nat ]}) 0%nat [5; 7; 6]%Z
            (World [Ints [5; 7; 6]%Z; Ints [1; 2; 1]%Z] [])
            (snd (generateComplexFacesets "mesh.exo" "stacked.inp" triangle3
                    (FsDict {[ "all"%string := 0%nat; "top"%string := 1%nat ]})
                    (World [Ints [5; 7; 6]%Z; Ints [1; 2; 1]%Z] [])))
            eq_refl eq_refl _).
  vm_compute. reflexivity.
Defined.
End FacesetRuns.

(** ** The refinement schedule of the uniform triplane *)

Section TriplaneRuns.
Import Session.

Lemma succeeds_writeLineAVS_lines (h : list ndarray) (t0 : list event)
    (boundary : list point) (outfile : string) (c : nat) (rows : list (Z * Z)) :
  h !! c = Some (Pairs rows) ->
  succeeds (writing h t0) (_writeLineAVS boundary outfile (Some c) None None None)
           (fun _ => True).
Proof.
  intros Hc. unfold _writeLineAVS.
  eapply succeeds_bind with (Q := eq (length rows)).
  { intros w [Hh Ht]. exists (length rows), w.
    rewrite (run_shape0_pairs c rows) by (rewrite Hh; exact Hc). repeat split; assumption. }
  intros nlines <-.
  eapply succeeds_bind with (Q := fun _ => True);
    [eapply succeeds_weaken; [apply succeeds_ret | auto] | intros _ _].
  eapply succeeds_bind; [apply succeeds_emit_file; reflexivity | intros _ _].
  eapply succeeds_bind; [apply succeeds_emit_file; reflexivity | intros _ _].
  eapply succeeds_bind.
  { apply succeeds_mfor. intros [i p] _. apply succeeds_emit_file. reflexivity. }
  intros _ _.
  eapply succeeds_bind.
  { apply succeeds_mfor. intros i Hi. apply in_seq in Hi.
    destruct (lookup_lt_is_Some_2 rows i) as [row Hrow]; [lia |].
    eapply succeeds_bind with (Q := fun _ => True);
      [eapply succeeds_weaken; [apply succeeds_ret | auto] | intros ? _].
    eapply succeeds_bind; [apply succeeds_load_pairs, Hc |].
    intros ? <-.
    eapply succeeds_bind; [apply succeeds_getitem, Hrow |].
    intros ? <-. apply succeeds_emit_file. reflexivity. }
  intros _ _.
  eapply succeeds_bind with (Q := fun _ => True);
    [eapply succeeds_weaken; [apply succeeds_ret | auto] | intros _ _].
  eapply succeeds_bind with (Q := fun _ => True);
    [eapply succeeds_weaken; [apply succeeds_ret | auto] | intros _ _].
  apply succeeds_emit_file. reflexivity.
Qed.


(** The calls of lines 421-470, after the boundary file is written: a
    prelude of thirteen calls, the rounds, and a closing part. *)
Ltac triplane_calls :=
  eexists (_ :: _ :: _ :: _ :: _ :: _ :: _ :: _ :: _ :: _ :: _ :: _ :: _ :: []), _;
  (split; [| split]);
  [ unfold call, call_as;
    do 13 (eapply (emits_bind _ _ tt _ [_]); [apply emits_emit |]);
    (eapply emits_bind; [apply emits_mfor, emits_refine_pass |]);
    emits_go
  | reflexivity
  | reflexivity ].

(** C7.  Whenever [buildUniformTriplane] returns, the thresholds of its
    loop are 64, 32, 16, 8, 4, 2, 1 times [min_edge], in that order, and the
    calls it has issued are: some calls that do not refine, then for each
    threshold in turn one Rivara edge refinement, three times {reconnect,
    smooth} and one point compaction, then calls that do not refine.  On a
    non-empty boundary whose connectivity is left to the function, it does
    return. *)
Theorem buildUniformTriplane_schedule :
  (forall (boundary : list point) (outfile : option string) (counterclockwise : bool)
          (connectivity : option nat) (min_edge : Q) (w w' : world) (motri : string),
     buildUniformTriplane boundary outfile counterclockwise connectivity min_edge w
       = (Ok motri, w') ->
     length_scales min_edge
       = map (fun k => (min_edge * k)%Q) [64; 32; 16; 8; 4; 2; 1]%Q /\
     exists pre post,
       trace w' = trace w ++ pre
                    ++ flat_map spec_round
                         (map (fun k => (min_edge * k)%Q) [64; 32; 16; 8; 4; 2; 1]%Q)
                    ++ post /\
       forallb (fun e => negb (is_refine e)) pre = true /\
       forallb (fun e => negb (is_refine e)) post = true) /\
  (forall (boundary : list point) (outfile : option string) (counterclockwise : bool)
          (min_edge : Q) (w : world),
     boundary <> [] ->
     fst (buildUniformTriplane boundary outfile counterclockwise None min_edge w)
       = Ok "motri"%string).
Proof.
  assert (Hscales : forall min_edge,
             length_scales min_edge
             = map (fun k => (min_edge * k)%Q) [64; 32; 16; 8; 4; 2; 1]%Q)
    by reflexivity.
  split.
  - intros boundary outfile counterclockwise connectivity min_edge w w' motri H.
    split; [apply Hscales |].
    unfold buildUniformTriplane in H.
    apply mbind_ok_inv in H as (conn & w1 & Hconn & H).
    apply mbind_ok_inv in H as ([] & w2 & Hwrite & H).
    assert (Hw1 : trace w1 = trace w).
    { destruct connectivity as [c|].
      - injection Hconn as _ <-. reflexivity.
      - pose proof (trace_generateLineConnectivity boundary false w) as Ht.
        rewrite Hconn in Ht. exact Ht. }
    destruct (grown_by_writeLineAVS (trace w1) boundary "poly_1.inp" (Some conn) None None
                None w1) as (evs & Hevs & Hfile).
    { exists []. rewrite app_nil_r. auto. }
    rewrite Hwrite in Hevs. cbn [snd] in Hevs.
    assert (Hfile' : forallb (fun e => negb (is_refine e)) evs = true).
    { revert Hfile. apply forallb_weaken. intros [] ?; try reflexivity; discriminate. }
    rewrite Hscales in H.
    destruct counterclockwise;
      (destruct outfile as [f|]; [destruct (String.eqb f EmptyString) |]).
    all: match type of H with
         | ?c _ = _ =>
             assert (Hem : exists pre post,
                        emits c "motri"
                          (pre ++ flat_map spec_round
                                    (map (fun k => (min_edge * k)%Q)
                                         [64; 32; 16; 8; 4; 2; 1]%Q) ++ post) /\
                        forallb (fun e => negb (is_refine e)) pre = true /\
                        forallb (fun e => negb (is_refine e)) post = true)
               by triplane_calls
         end.
    all: destruct Hem as (pre & post & Hem & Hpre & Hpost);
      rewrite (Hem w2) in H; injection H as _ <-; cbn [trace];
      exists (evs ++ pre), post; (split; [| split]);
      [ rewrite Hevs, Hw1, <- !app_assoc; reflexivity
      | rewrite forallb_app, Hfile', Hpre; reflexivity
      | exact Hpost ].
  - intros boundary outfile counterclockwise min_edge w Hne.
    destruct (run_generateLineConnectivity boundary false w Hne) as (rows & _ & Hconn).
    destruct (succeeds_writeLineAVS_lines (heap w ++ [Pairs rows]) (trace w) boundary
                "poly_1.inp" (length (heap w)) rows (lookup_snoc _ _)
                {| heap := heap w ++ [Pairs rows]; trace := trace w |})
      as ([] & w2 & Hwrite & _).
    { split; [reflexivity |]. exists []. rewrite app_nil_r. auto. }
    unfold buildUniformTriplane.
    rewrite (run_bind _ _ _ _ _ Hconn). cbv beta.
    rewrite (run_bind _ _ _ _ _ Hwrite). cbv beta.
    rewrite Hscales.
    destruct counterclockwise;
      (destruct outfile as [f|]; [destruct (String.eqb f EmptyString) |]).
    all: match goal with
         | |- fst (?c _) = _ =>
             assert (Hem : exists pre post,
                        emits c "motri"
                          (pre ++ flat_map spec_round
                                    (map (fun k => (min_edge * k)%Q)
                                         [64; 32; 16; 8; 4; 2; 1]%Q) ++ post) /\
                        forallb (fun e => negb (is_refine e)) pre = true /\
                        forallb (fun e => negb (is_refine e)) post = true)
               by triplane_calls
         end.
    all: destruct Hem as (pre & post & Hem & _); rewrite (Hem w2); reflexivity.
Qed.

Lemma buildUniformTriplane_schedule_witness :
  exists pre post,
    trace (snd (buildUniformTriplane square4 (Some "triplane.inp"%string) false None 16
                  (World [] [])))
    = [] ++ pre
         ++ flat_map spec_round (map (fun k => (16 * k)%Q) [64; 32; 16; 8; 4; 2; 1]%Q)
         ++ post /\
    forallb (fun e => negb (is_refine e)) pre = true /\
    forallb (fun e => negb (is_refine e)) post = true.
Proof.
  refine (proj2 (proj1 buildUniformTriplane_schedule square4 (Some "triplane.inp"%string)
                   false None 16%Q (World [] [])
                   (snd (buildUniformTriplane square4 (Some "triplane.inp"%string) false None
                           16 (World [] [])))
                   "motri"%string _)).
  vm_compute. reflexivity.
Defined.

End TriplaneRuns.

(** ** The stacked surfaces in general *)

Section LayerFiles.
Import StackLayers.

Lemma string_length_append (s t : string) :
  String.length (s +:+ t) = String.length s + String.length t.
Proof.
  induction s as [|c s IH]; [reflexivity |].
  change (S (String.length (s +:+ t)) = S (String.length s + String.length t)).
  rewrite IH. reflexivity.
Qed.

Lemma string_append_inj_l (t s1 s2 : string) : s1 +:+ t = s2 +:+ t -> s1 = s2.
Proof.
  revert s2. induction s1 as [|c s1 IH]; intros [|c' s2] H.
  - reflexivity.
  - apply (f_equal String.length) in H. rewrite !string_length_append in H. cbn in H. lia.
  - apply (f_equal String.length) in H. rewrite !string_length_append in H. cbn in H. lia.
  - change (String c (s1 +:+ t) = String c' (s2 +:+ t)) in H.
    injection H as -> H. f_equal. apply IH, H.
Qed.

Lemma fmt_d_inj (n m : nat) : fmt_d n = fmt_d m -> n = m.
Proof.
  unfold fmt_d. intros H.
  apply (f_equal NilEmpty.uint_of_string) in H. rewrite !NilEmpty.usu in H.
  injection H as H. apply (f_equal Nat.of_uint) in H. rewrite !Unsigned.of_to in H. exact H.
Qed.

Lemma layer_file_inj (n m : nat) : layer_file n = layer_file m -> n = m.
Proof.
  unfold layer_file. intros H. apply String.app_inj in H.
  apply string_append_inj_l in H. apply fmt_d_inj, H.
Qed.

(** Line 289 names the files the loop of lines 295-297 writes, the last
    one first. *)
Lemma stack_files_rev (layers : list Q) :
  stack_files layers = rev (map layer_file (seq 1 (length layers))).
Proof.
  unfold stack_files. generalize (length layers) as n. intros n.
  rewrite <- map_rev. 
  assert (E : forall k, map (fun i => layer_file (k - i)) (seq 0 k) = map layer_file (rev (seq 1 k))).
  { induction k as [|k IH]; [reflexivity |].
    rewrite (seq_S k 1). rewrite rev_app_distr. cbn [rev app map seq].
    rewrite Nat.sub_0_r. f_equal.
    rewrite <- IH. rewrite <- seq_shift, map_map. reflexivity. }
  apply E.
Qed.

End LayerFiles.

Section StackRuns.
Import StackLayers.
Local Open Scope Q_scope.

Lemma dump_layers_from (i : nat) (layers : list Q) (fs cm : gmap string mo) (cur : list node) :
  cm !! "motmp_top"%string = Some (Surface cur) ->
  exists fs' cm',
    mfor (enumerate_from i layers)
         (fun '(i, offset) =>
            mo_math_sub_zic "motmp_top" offset ;;;
            mo_dump "motmp_top" (layer_file (i + 1)))
         (Kernel fs cm)
    = (Ok tt, Kernel fs' cm') /\
    (forall j s, dumped_surfaces cur layers !! j = Some s ->
                 fs' !! layer_file (i + j + 1) = Some (Surface s)) /\
    (forall f, (forall j, (j < length layers)%nat -> f <> layer_file (i + j + 1)) ->
               fs' !! f = fs !! f).
Proof.
  revert i fs cm cur. induction layers as [|l layers IH]; intros i fs cm cur Hcur;
    cbn [enumerate_from mfor dumped_surfaces].
  - exists fs, cm. split; [reflexivity |]. split; [intros j s H; discriminate | reflexivity].
  - set (s0 := map (sub_zic l) cur).
    set (cm1 := alter (fun m => match m with
                                | Surface ns => Surface (map (sub_zic l) ns)
                                | Stacked ls => Stacked (map (map (sub_zic l)) ls)
                                end) "motmp_top"%string cm).
    assert (Hcm1 : cm1 !! "motmp_top"%string = Some (Surface s0)).
    { unfold cm1. rewrite lookup_alter_eq, Hcur. reflexivity. }
    destruct (IH (S i) (<[layer_file (i + 1) := Surface s0]> fs) cm1 s0 Hcm1)
      as (fs' & cm' & Hrun & Hfiles & Hframe).
    exists fs', cm'. split; [| split].
    + unfold mbind at 1. unfold mbind at 1. unfold mo_math_sub_zic, mmodify. cbn [files cmos].
      fold cm1. unfold mo_dump. cbn [files cmos]. rewrite Hcm1. exact Hrun.
    + intros [|j] s Hs.
      * injection Hs as <-. rewrite Hframe.
        -- rewrite Nat.add_0_r. apply lookup_insert_eq.
        -- intros j _ E. apply layer_file_inj in E. lia.
      * cbn in Hs. replace (i + S j + 1)%nat with (S i + j + 1)%nat by lia.
        apply Hfiles, Hs.
    + intros f Hf. rewrite Hframe.
      * apply lookup_insert_ne. intros E. apply (Hf 0%nat); [cbn; lia |].
        rewrite Nat.add_0_r. symmetry. exact E.
      * intros j Hj. replace (S i + j + 1)%nat with (i + S j + 1)%nat by lia.
        apply Hf. cbn. lia.
Qed.

Lemma read_surfaces_app (fs : gmap string mo) (n1 n2 : list string) (l1 l2 : list (list node)) :
  read_surfaces fs n1 = Some l1 -> read_surfaces fs n2 = Some l2 ->
  read_surfaces fs (n1 ++ n2) = Some (l1 ++ l2).
Proof.
  revert l1. induction n1 as [|f n1 IH]; intros l1; cbn [read_surfaces app].
  - intros [= <-]. auto.
  - destruct (fs !! f) as [[ns|]|]; try discriminate.
    destruct (read_surfaces fs n1) as [ls|]; [| discriminate].
    intros [= <-] H2. rewrite (IH ls eq_refl H2). reflexivity.
Qed.

Lemma read_surfaces_rev (fs : gmap string mo) (ss : list (list node)) (i : nat) :
  (forall j s, ss !! j = Some s -> fs !! layer_file (i + j + 1) = Some (Surface s)) ->
  read_surfaces fs (rev (map layer_file (seq (S i) (length ss)))) = Some (rev ss).
Proof.
  revert i. induction ss as [|s ss IH]; intros i H; [reflexivity |].
  cbn [length seq map rev].
  apply read_surfaces_app.
  - apply IH. intros j s' Hj. replace (S i + j + 1)%nat with (i + S j + 1)%nat by lia.
    apply H. exact Hj.
  - cbn [read_surfaces]. specialize (H 0%nat s eq_refl).
    replace (i + 0 + 1)%nat with (S i) in H by lia. rewrite H. reflexivity.
Qed.

Lemma dumped_surfaces_length (cur : list node) (layers : list Q) :
  length (dumped_surfaces cur layers) = length layers.
Proof.
  revert cur. induction layers as [|l layers IH]; intros cur; cbn; [reflexivity |].
  rewrite IH. reflexivity.
Qed.

Lemma dumped_surfaces_lowered (surf cur : list node) (d : Q) (layers : list Q) :
  lowered d surf cur ->
  Forall2 (fun depth s => lowered depth surf s) (running_sums d layers)
          (dumped_surfaces cur layers).
Proof.
  revert cur d. induction layers as [|l layers IH]; intros cur d H; cbn; constructor.
  - apply lowered_step, H.
  - apply IH. apply lowered_step, H.
Qed.

Lemma lowered_0 (surf : list node) : lowered 0 surf surf.
Proof.
  induction surf as [|n surf IH]; constructor; [| exact IH].
  repeat split; try reflexivity. ring.
Qed.

(** The layer loop and the stacking, from the moment the surface has been
    read. *)
Lemma stack_dumped (layers : list Q) (fs cm : gmap string mo) (cur : list node)
    (nlayers : list string) (matids : option (list Z)) (xy_subset : option string) :
  cm !! "motmp_top"%string = Some (Surface cur) ->
  exists fs' cm',
    (dump_layers layers ;;;
     mo_delete "motmp_top" ;;;
     lg_create "stack" ;;;
     mo_stack_layers "stack" (stack_files layers) nlayers matids xy_subset)
      (Kernel fs cm)
    = (Ok tt, Kernel fs' cm') /\
    cm' !! "stack"%string = Some (Stacked (rev (dumped_surfaces cur layers))).
Proof.
  intros Hcur.
  destruct (dump_layers_from 0 layers fs cm cur Hcur) as (fs' & cm' & Hrun & Hfiles & _).
  eexists fs', _. split.
  - unfold mbind at 1. unfold dump_layers, enumerate. rewrite Hrun.
    unfold mbind, mo_delete, lg_create, mmodify, mo_stack_layers. cbn [files cmos].
    rewrite stack_files_rev, <- (dumped_surfaces_length cur layers).
    rewrite (read_surfaces_rev fs' _ 0 Hfiles). reflexivity.
  - apply lookup_insert_eq.
Qed.

(** X1.  For any list of thicknesses that passes the normalisation of
    lines 285-288, with the input mesh on disk, [stackLayers] returns the
    object CMO_PRISM and dumps it to [outfile].  The stack holds one
    surface per entry of the normalised list, deepest first, and the
    surface of an entry lies below the input surface by the sum of the
    thicknesses up to and including that entry, with x and y unchanged:
    every subtraction acts on the surface the previous one left. *)
Theorem stackLayers_surfaces_at_running_sums
    (fs cm : gmap string mo) (infile outfile : string) (surf : list node)
    (layers0 layers : list Q) (matids0 matids : option (list Z))
    (xy_subset : option string) (nlayers : option (list string)) :
  fs !! infile = Some (Surface surf) ->
  normalize layers0 matids0 = Ok (layers, matids) ->
  exists k' ss,
    stackLayers infile outfile layers0 matids0 xy_subset nlayers (Kernel fs cm)
      = (Ok "CMO_PRISM"%string, k') /\
    cmos k' !! "CMO_PRISM"%string = Some (Stacked (rev ss)) /\
    files k' !! outfile = Some (Stacked (rev ss)) /\
    Forall2 (fun depth s => lowered depth surf s) (running_sums 0 layers) ss.
Proof.
  intros Hin Hnorm.
  destruct (stack_dumped layers fs (<["motmp_top"%string := Surface surf]> cm) surf
              (match nlayers with
               | None => repeat EmptyString (length (stack_files layers) - 1)
               | Some l => l
               end) matids xy_subset (lookup_insert_eq _ _ _))
    as (fs' & cm' & Hrun & Hstack).
  eexists _, (dumped_surfaces surf layers). split; [| split; [| split]].
  - unfold stackLayers. unfold mbind at 1. unfold mlift. rewrite Hnorm.
    unfold mbind at 1. unfold lg_read. cbn [files cmos]. rewrite Hin.
    unfold mbind in Hrun |- *. 
    destruct (dump_layers layers _) as [[[]|e] k1] eqn:E1; [| discriminate].
    destruct (mo_delete "motmp_top" k1) as [[[]|e] k2] eqn:E2; [| discriminate].
    destruct (lg_create "stack" k2) as [[[]|e] k3] eqn:E3; [| discriminate].
    rewrite Hrun.
    unfold mo_dump, mo_stack_fill, mo_resetpts_itp, mo_addatt, mret. cbn [files cmos].
    rewrite Hstack. cbn [files cmos]. rewrite Hstack. cbn [files cmos].
    rewrite lookup_insert_eq. reflexivity.
  - cbn [cmos]. apply lookup_insert_eq.
  - cbn [files]. apply lookup_insert_eq.
  - apply dumped_surfaces_lowered, lowered_0.
Qed.

Lemma stackLayers_surfaces_at_running_sums_witness :
  exists k' ss,
    stackLayers "surface.inp" "stacked.inp" [5; 10] (Some [1; 2]%Z) None None
      (Kernel {[ "surface.inp"%string := Surface [Node 0 0 100; Node 1 0 105] ]} ∅)
      = (Ok "CMO_PRISM"%string, k') /\
    cmos k' !! "CMO_PRISM"%string = Some (Stacked (rev ss)) /\
    files k' !! "stacked.inp"%string = Some (Stacked (rev ss)) /\
    Forall2 (fun depth s => lowered depth [Node 0 0 100; Node 1 0 105] s)
            (running_sums 0 [0; 5; 10]) ss.
Proof.
  apply (stackLayers_surfaces_at_running_sums
           {[ "surface.inp"%string := Surface [Node 0 0 100; Node 1 0 105] ]} ∅
           "surface.inp" "stacked.inp" [Node 0 0 100; Node 1 0 105]
           [5; 10] [0; 5; 10] (Some [1; 2]%Z) (Some [0; 1; 2]%Z) None None).
  - vm_compute. reflexivity.
  - reflexivity.
Defined.

(** X2.  [generateSingleColumnPrism] takes the thicknesses as they are,
    without the normalisation of [stackLayers], and returns nothing.
    With the input mesh on disk it leaves the stacked mesh in the session
    as CMO_PRISM and in [outfile]: one surface per thickness, deepest
    first, each below the input surface by the sum of the thicknesses up
    to and including its own. *)
Theorem generateSingleColumnPrism_surfaces_at_running_sums
    (fs cm : gmap string mo) (infile outfile : string) (surf : list node)
    (layers : list Q) (matids : option (list Z))
    (xy_subset : option string) (nlayers : option (list string)) :
  fs !! infile = Some (Surface surf) ->
  layers <> [] ->
  exists k' ss,
    generateSingleColumnPrism infile outfile layers matids xy_subset nlayers (Kernel fs cm)
      = (Ok tt, k') /\
    cmos k' !! "CMO_PRISM"%string = Some (Stacked (rev ss)) /\
    files k' !! outfile = Some (Stacked (rev ss)) /\
    Forall2 (fun depth s => lowered depth surf s) (running_sums 0 layers) ss.
Proof.
  intros Hin _.
  destruct (stack_dumped layers fs (<["motmp_top"%string := Surface surf]> cm) surf
              (match nlayers with
               | None => repeat EmptyString (length (stack_files layers) - 1)
               | Some l => l
               end) matids xy_subset (lookup_insert_eq _ _ _))
    as (fs' & cm' & Hrun & Hstack).
  eexists _, (dumped_surfaces surf layers). split; [| split; [| split]].
  - unfold generateSingleColumnPrism.
    unfold mbind at 1. unfold lg_read. cbn [files cmos]. rewrite Hin.
    unfold mbind at 1. unfold mo_setatt at 1. unfold mret at 1.
    unfold mbind at 1. unfold mo_setatt at 1. unfold mret at 1.
    unfold mbind in Hrun |- *.
    destruct (dump_layers layers _) as [[[]|e] k1] eqn:E1; [| discriminate].
    destruct (mo_delete "motmp_top" k1) as [[[]|e] k2] eqn:E2; [| discriminate].
    destruct (lg_create "stack" k2) as [[[]|e] k3] eqn:E3; [| discriminate].
    rewrite Hrun.
    unfold mo_dump, mo_stack_fill, mo_resetpts_itp, mo_addatt, mret. cbn [files cmos].
    rewrite Hstack. cbn [files cmos]. rewrite Hstack. cbn [files cmos].
    rewrite lookup_insert_eq. reflexivity.
  - cbn [cmos]. apply lookup_insert_eq.
  - cbn [files]. apply lookup_insert_eq.
  - apply dumped_surfaces_lowered, lowered_0.
Qed.

Lemma generateSingleColumnPrism_surfaces_at_running_sums_witness :
  exists k' ss,
    generateSingleColumnPrism "surface.inp" "column.inp" [5; 10] None None None
      (Kernel {[ "surface.inp"%string := Surface [Node 0 0 100; Node 1 0 105] ]} ∅)
      = (Ok tt, k') /\
    cmos k' !! "CMO_PRISM"%string = Some (Stacked (rev ss)) /\
    files k' !! "column.inp"%string = Some (Stacked (rev ss)) /\
    Forall2 (fun depth s => lowered depth [Node 0 0 100; Node 1 0 105] s)
            (running_sums 0 [5; 10]) ss.
Proof.
  apply (generateSingleColumnPrism_surfaces_at_running_sums
           {[ "surface.inp"%string := Surface [Node 0 0 100; Node 1 0 105] ]} ∅
           "surface.inp" "column.inp" [Node 0 0 100; Node 1 0 105]
           [5; 10] None None None).
  - vm_compute. reflexivity.
  - discriminate.
Defined.

(** X3.  Two calls of [stackLayers] fail before the kernel is touched:
    an empty list of thicknesses raises IndexError at [layers[0]], and a
    list whose first thickness is not 0, passed without material ids,
    raises TypeError at [[0] + matids]. *)
Theorem stackLayers_rejects_before_session
    (infile outfile : string) (xy_subset : option string) (nlayers : option (list string))
    (k : kernel) :
  (forall matids,
     stackLayers infile outfile [] matids xy_subset nlayers k = (Raise IndexError, k)) /\
  (forall l0 rest,
     ~ l0 == 0 ->
     stackLayers infile outfile (l0 :: rest) None xy_subset nlayers k = (Raise TypeError, k)).
Proof.
  split.
  - intros matids. reflexivity.
  - intros l0 rest Hl0. unfold stackLayers, mbind, mlift, normalize.
    destruct (Qeq_bool l0 0) eqn:E; [apply Qeq_bool_iff in E; contradiction | reflexivity].
Qed.

Lemma stackLayers_rejects_before_session_witness :
  stackLayers "surface.inp" "stacked.inp" [5; 10] None None None (Kernel ∅ ∅)
  = (Raise TypeError, Kernel ∅ ∅).
Proof.
  apply (proj2 (stackLayers_rejects_before_session "surface.inp" "stacked.inp" None None
                  (Kernel ∅ ∅)) 5 [10]).
  unfold Qeq. cbn. lia.
Defined.

(** X4.  The list of files handed to [stack_layers] names exactly the
    files that the dump loop writes, one per thickness, in the reverse of
    the order in which they are written: the deepest surface comes first. *)
Theorem stack_files_are_dumped_files_reversed (layers : list Q) :
  stack_files layers = rev (map (fun il => layer_file (fst il + 1)) (enumerate layers)).
Proof.
  rewrite stack_files_rev. f_equal. unfold enumerate.
  assert (E : forall i, map layer_file (seq (S i) (length layers))
                        = map (fun il : nat * Q => layer_file (fst il + 1))
                              (enumerate_from i layers)).
  { induction layers as [|l layers IH]; intros i; cbn; [reflexivity |].
    f_equal; [f_equal; lia | apply IH]. }
  apply E.
Qed.

End StackRuns.

(** ** The ids of [getFacesetsFromCoordinates] in general *)

Section MarkerFacts.
Import FacesetCoords.

Lemma insert_desc_perm (x : nat) (l : list nat) : Permutation (insert_desc x l) (x :: l).
Proof.
  induction l as [|y l IH]; cbn [insert_desc]; [reflexivity |].
  destruct (Nat.ltb y x); [reflexivity |].
  rewrite IH. apply perm_swap.
Qed.

Lemma sort_reverse_perm (l : list nat) : Permutation (sort_reverse l) l.
Proof.
  induction l as [|x l IH]; cbn [sort_reverse fold_right]; [reflexivity |].
  fold (sort_reverse l). rewrite insert_desc_perm, IH. reflexivity.
Qed.

Lemma insert_desc_sorted (x : nat) (l : list nat) :
  StronglySorted ge l -> StronglySorted ge (insert_desc x l).
Proof.
  induction 1 as [|y l Hl IH Hy]; cbn [insert_desc].
  - repeat constructor.
  - destruct (Nat.ltb_spec y x).
    + constructor; [constructor; assumption |].
      constructor; [lia |]. eapply Forall_impl; [exact Hy |]. cbn. intros; lia.
    + constructor; [exact IH |].
      apply Forall_forall. intros v Hv. apply list_elem_of_In in Hv.
      apply (Permutation_in _ (insert_desc_perm x l)) in Hv.
      destruct Hv as [<- | Hv]; [lia |].
      rewrite Forall_forall in Hy. apply Hy, list_elem_of_In, Hv.
Qed.

Lemma sort_reverse_sorted (l : list nat) : StronglySorted ge (sort_reverse l).
Proof.
  induction l as [|x l IH]; cbn [sort_reverse fold_right];
    [constructor | apply insert_desc_sorted, IH].
Qed.

Lemma sorted_snoc_least (s : list nat) (x : nat) :
  StronglySorted ge (s ++ [x]) -> StronglySorted ge s /\ forall f, In f s -> x <= f.
Proof.
  induction s as [|y s IH]; cbn; intros H.
  - split; [constructor | intros f []].
  - inversion H as [|? ? Hs Hy]; subst. destruct (IH Hs) as [Hs' Hle].
    split.
    + constructor; [exact Hs' |]. rewrite Forall_app in Hy. apply Hy.
    + intros f [<- | Hf]; [| auto].
      rewrite Forall_app, Forall_singleton in Hy. destruct Hy as [_ Hy]. lia.
Qed.


Lemma fill_ranges_lookup (lo : nat) (s : list nat) (idx : list nat) (a : list Z) (p : nat) :
  fold_left (fun acc i => slice_assign lo (nth i s 0) (Z.of_nat i + 2) acc) idx a !! p
  = (fun v => fold_left (pass lo p s) idx v) <$> (a !! p).
Proof.
  revert a. induction idx as [|i idx IH]; intros a; cbn [fold_left].
  - destruct (a !! p); reflexivity.
  - rewrite IH. unfold slice_assign. rewrite list_lookup_imap.
    destruct (a !! p); reflexivity.
Qed.


Lemma beyond_app (p : nat) (s t : list nat) : beyond p (s ++ t) = beyond p s + beyond p t.
Proof. unfold beyond. rewrite List.filter_app, length_app. reflexivity. Qed.

Lemma beyond_all (p : nat) (s : list nat) :
  (forall f, In f s -> p < f) -> beyond p s = length s.
Proof.
  unfold beyond. induction s as [|y s IH]; intros H; cbn [List.filter length]; [reflexivity |].
  destruct (Nat.ltb_spec p y) as [_ | Hge].
  - cbn [length]. rewrite IH; [reflexivity |]. intros f Hf. apply H. right. exact Hf.
  - specialize (H y (or_introl eq_refl)). lia.
Qed.

Lemma passes_value (lo p : nat) (s rest : list nat) :
  StronglySorted ge s ->
  fold_left (pass lo p (s ++ rest)) (seq 0 (length s)) 1%Z
  = if Nat.leb lo p && negb (Nat.eqb (beyond p s) 0)
    then (Z.of_nat (beyond p s) + 1)%Z else 1%Z.
Proof.
  revert rest. induction s as [|x s IH] using rev_ind; intros rest Hs.
  - cbn. rewrite andb_false_r. reflexivity.
  - apply sorted_snoc_least in Hs as [Hs Hle].
    rewrite length_app. cbn [length]. rewrite Nat.add_1_r, seq_S, fold_left_app.
    cbn [fold_left Nat.add]. rewrite <- app_assoc. rewrite (IH _ Hs).
    unfold pass at 1. rewrite app_nth2 by lia. rewrite Nat.sub_diag. cbn [app nth].
    rewrite beyond_app.
    replace (beyond p [x]) with (if Nat.ltb p x then 1 else 0)
      by (unfold beyond; cbn [List.filter]; destruct (Nat.ltb p x); reflexivity).
    destruct (Nat.leb_spec lo p) as [Hlo | Hlo]; cbn [andb]; [| destruct (Nat.ltb p x); reflexivity].
    destruct (Nat.ltb_spec p x) as [Hpx | Hpx].
    + rewrite beyond_all by (intros f Hf; specialize (Hle f Hf); lia).
      destruct (Nat.eqb_spec (length s + 1) 0); [lia |]. cbn [negb]. lia.
    + rewrite Nat.add_0_r. reflexivity.
Qed.

Lemma last_in (s : list nat) (d : nat) : s <> [] -> In (List.last s d) s.
Proof.
  induction s as [|x [|y s] IH]; intros H; [congruence | left; reflexivity |].
  right. apply IH. discriminate.
Qed.

Lemma last_least (s : list nat) (f : nat) :
  StronglySorted ge s -> In f s -> List.last s 0 <= f.
Proof.
  induction s as [|x s IH] using rev_ind; intros Hs Hf; [destruct Hf |].
  rewrite List.last_last. apply sorted_snoc_least in Hs as [_ Hle].
  apply in_app_iff in Hf as [Hf | [<- | []]]; [auto | lia].
Qed.

Lemma beyond_perm (p : nat) (s t : list nat) : Permutation s t -> beyond p s = beyond p t.
Proof.
  intros H. unfold beyond. induction H; cbn [List.filter length].
  - reflexivity.
  - destruct (Nat.ltb p x); cbn [length]; lia.
  - destruct (Nat.ltb p x), (Nat.ltb p y); cbn [length]; lia.
  - lia.
Qed.

Lemma forallb_perm (g : nat -> bool) (s t : list nat) :
  Permutation s t -> forallb g s = forallb g t.
Proof.
  intros H. induction H; cbn.
  - reflexivity.
  - rewrite IHPermutation. reflexivity.
  - destruct (g x), (g y); reflexivity.
  - congruence.
Qed.

Lemma forallb_beyond (p : nat) (s : list nat) :
  forallb (fun f => Nat.ltb p f) s = Nat.eqb (beyond p s) (length s).
Proof.
  unfold beyond. induction s as [|x s IH]; cbn [forallb List.filter length]; [reflexivity |].
  destruct (Nat.ltb p x); cbn [andb length Nat.eqb].
  - exact IH.
  - symmetry. apply Nat.eqb_neq.
    pose proof (List.filter_length_le (fun f => Nat.ltb p f) s). lia.
Qed.

Lemma lookup_repeat_lt {A} (x : A) (n i : nat) : i < n -> repeat x n !! i = Some x.
Proof.
  revert i. induction n as [|n IH]; intros i Hi; [lia |].
  destruct i as [|i]; cbn; [reflexivity | apply IH; lia].
Qed.

Lemma fill_ranges_marker_id (fs : list nat) (n : nat) :
  fill_ranges (sort_reverse fs) (repeat 1%Z n) = map (marker_id fs) (seq 0 n).
Proof.
  apply list_eq. intros p. unfold fill_ranges.
  rewrite fill_ranges_lookup, list_lookup_fmap.
  destruct (Nat.lt_ge_cases p n) as [Hp | Hp].
  2:{ rewrite (lookup_ge_None_2 (repeat 1%Z n)) by (rewrite repeat_length; lia).
      rewrite (lookup_ge_None_2 (seq 0 n)) by (rewrite length_seq; lia). reflexivity. }
  rewrite lookup_seq_lt by lia. rewrite lookup_repeat_lt by lia.
  cbn [fmap option_fmap option_map Nat.add]. f_equal.
  pose proof (sort_reverse_sorted fs) as Hs. pose proof (sort_reverse_perm fs) as Hperm.
  set (s := sort_reverse fs) in *.
  pose proof (passes_value (List.last s 0) p s [] Hs) as Hv. rewrite app_nil_r in Hv.
  rewrite Hv. unfold marker_id.
  rewrite <- (forallb_perm _ _ _ Hperm). fold (beyond p fs). rewrite <- (beyond_perm p _ _ Hperm).
  rewrite forallb_beyond.
  destruct (Nat.eqb_spec (beyond p s) (length s)) as [Hall | Hsome].
  - destruct s as [|x s'] eqn:Es; [reflexivity |]. rewrite <- Es in *.
    assert (Hlo : p < List.last s 0).
    { assert (Hin : In (List.last s 0) (List.filter (fun f => Nat.ltb p f) s)).
      { assert (E : List.filter (fun f => Nat.ltb p f) s = s).
        { clear -Hall. unfold beyond in Hall.
          induction s as [|y s IH]; cbn [List.filter length] in *; [reflexivity |].
          destruct (Nat.ltb p y); cbn [length] in Hall.
          - f_equal. apply IH. lia.
          - pose proof (List.filter_length_le (fun f => Nat.ltb p f) s). lia. }
        rewrite E. apply last_in. rewrite Es. discriminate. }
      apply filter_In in Hin as [_ Hin]. apply Nat.ltb_lt in Hin. exact Hin. }
    destruct (Nat.leb_spec (List.last s 0) p); [lia | reflexivity].
  - assert (Hex : exists f, In f s /\ f <= p).
    { clear -Hsome. unfold beyond in Hsome.
      induction s as [|y s IH]; cbn [List.filter length] in Hsome; [congruence |].
      destruct (Nat.ltb_spec p y); cbn [length] in Hsome.
      - destruct IH as (f & Hf & Hle); [lia |]. exists f. split; [right |]; assumption.
      - exists y. split; [left; reflexivity | lia]. }
    destruct Hex as (f & Hf & Hle).
    pose proof (last_least s f Hs Hf).
    destruct (Nat.leb_spec (List.last s 0) p); [| lia]. cbn [andb].
    destruct (Nat.eqb_spec (beyond p s) 0) as [-> | _]; cbn [negb]; [reflexivity | lia].
Qed.

End MarkerFacts.

Section FacesetCoordsMore.
Import FacesetCoords.
Variable cdist_argmin : point -> list point -> res nat.

Lemma mat_ids_for_marker_id (cs boundary : list point) (fs : list nat) :
  nearest_indices cdist_argmin cs boundary = Ok fs ->
  mat_ids_for cdist_argmin cs boundary = Ok (map (marker_id fs) (seq 0 (length boundary))).
Proof.
  intros Hfs. unfold mat_ids_for. rewrite Hfs. f_equal. apply fill_ranges_marker_id.
Qed.

Lemma mat_ids_for_inv (cs boundary : list point) (ids : list Z) :
  mat_ids_for cdist_argmin cs boundary = Ok ids ->
  exists fs, nearest_indices cdist_argmin cs boundary = Ok fs /\
             ids = map (marker_id fs) (seq 0 (length boundary)).
Proof.
  intros H. destruct (nearest_indices cdist_argmin cs boundary) as [fs|e] eqn:Hfs.
  - exists fs. split; [reflexivity |].
    rewrite (mat_ids_for_marker_id cs boundary fs Hfs) in H. congruence.
  - unfold mat_ids_for in H. rewrite Hfs in H. discriminate.
Qed.

Lemma nearest_indices_length (cs boundary : list point) (fs : list nat) :
  nearest_indices cdist_argmin cs boundary = Ok fs -> length fs = length cs.
Proof.
  revert fs. induction cs as [|c cs IH]; intros fs; cbn [nearest_indices].
  - intros [= <-]. reflexivity.
  - destruct (cdist_argmin c boundary); [| discriminate].
    destruct (nearest_indices cdist_argmin cs boundary); [| discriminate].
    intros [= <-]. cbn. f_equal. apply IH. reflexivity.
Qed.

Lemma facesets_of_marker_ids (d : list (string * list point)) (boundary : list point)
    (out : list (string * list Z)) :
  facesets_of cdist_argmin d boundary = Ok out ->
  Forall2 (fun kc ki =>
             fst ki = fst kc /\
             exists fs, nearest_indices cdist_argmin (snd kc) boundary = Ok fs /\
                        snd ki = map (marker_id fs) (seq 0 (length boundary)))
          d out.
Proof.
  revert out. induction d as [|[key cs] d IH]; intros out; cbn [facesets_of].
  - intros [= <-]. constructor.
  - destruct (mat_ids_for cdist_argmin cs boundary) as [ids|e] eqn:Hids; [| discriminate].
    destruct (facesets_of cdist_argmin d boundary) as [rest|e]; [| discriminate].
    intros [= <-]. constructor; [| apply IH; reflexivity].
    cbn [fst snd]. split; [reflexivity |]. apply mat_ids_for_inv, Hids.
Qed.

(** X5.  The id that [getFacesetsFromCoordinates] gives to a boundary
    position depends only on the markers, the boundary indices nearest to
    the query coordinates: a position that lies before every marker has
    id 1, and any other position has id 1 plus the number of markers
    strictly beyond it.  So the positions from the greatest marker on
    carry 1 again, and the ids grow toward the least marker.  For a dict
    of coordinate arrays this holds key by key, in the order of the keys. *)
Theorem getFacesetsFromCoordinates_counts_markers_beyond :
  (forall (cs boundary : list point) (fs : list nat),
     nearest_indices cdist_argmin cs boundary = Ok fs ->
     getFacesetsFromCoordinates cdist_argmin (CoordArray cs) boundary
     = Ok [("all"%string, map (marker_id fs) (seq 0 (length boundary)))]) /\
  (forall (d : list (string * list point)) (boundary : list point)
          (out : list (string * list Z)),
     getFacesetsFromCoordinates cdist_argmin (CoordDict d) boundary = Ok out ->
     Forall2 (fun kc ki =>
                fst ki = fst kc /\
                exists fs, nearest_indices cdist_argmin (snd kc) boundary = Ok fs /\
                           snd ki = map (marker_id fs) (seq 0 (length boundary)))
             d out).
Proof.
  split.
  - intros cs boundary fs Hfs. unfold getFacesetsFromCoordinates. cbn [facesets_of].
    rewrite (mat_ids_for_marker_id cs boundary fs Hfs). reflexivity.
  - intros d boundary out. apply facesets_of_marker_ids.
Qed.

Lemma beyond_le_length (p : nat) (fs : list nat) : beyond p fs <= length fs.
Proof. apply List.filter_length_le. Qed.

Lemma marker_id_range (fs : list nat) (p : nat) :
  (1 <= marker_id fs p <= Z.max 1 (Z.of_nat (length fs)))%Z.
Proof.
  unfold marker_id. fold (beyond p fs). rewrite forallb_beyond.
  pose proof (beyond_le_length p fs).
  destruct (Nat.eqb_spec (beyond p fs) (length fs)); lia.
Qed.

Lemma marker_id_few (fs : list nat) (p : nat) : length fs <= 1 -> marker_id fs p = 1%Z.
Proof.
  intros H. destruct fs as [|f [|g fs]]; [reflexivity | | cbn in H; lia].
  unfold marker_id. cbn [forallb List.filter]. destruct (Nat.ltb p f); reflexivity.
Qed.

(** X6.  Whenever [getFacesetsFromCoordinates] returns, the result has
    the keys of the argument in their order ('all' for a bare array), and
    under each key one id per boundary point.  Every id lies between 1
    and the number of query coordinates of that key (1 when there is
    none), and a key with fewer than two coordinates marks nothing: all
    its ids are 1. *)
Theorem getFacesetsFromCoordinates_shape
    (coords : coords_arg) (boundary : list point) (out : list (string * list Z)) :
  getFacesetsFromCoordinates cdist_argmin coords boundary = Ok out ->
  let d := match coords with CoordArray cs => [("all"%string, cs)] | CoordDict d => d end in
  Forall2 (fun kc ki =>
             fst ki = fst kc /\
             length (snd ki) = length boundary /\
             Forall (fun v => (1 <= v <= Z.max 1 (Z.of_nat (length (snd kc))))%Z) (snd ki) /\
             (length (snd kc) <= 1 -> Forall (fun v => v = 1%Z) (snd ki)))
          d out.
Proof.
  intros H. cbv zeta.
  assert (Hd : facesets_of cdist_argmin
                 match coords with
                 | CoordArray cs => [("all"%string, cs)]
                 | CoordDict d => d
                 end boundary = Ok out)
    by (destruct coords; exact H).
  apply facesets_of_marker_ids in Hd.
  eapply Forall2_impl; [exact Hd |].
  intros [k cs] [k' ids] (Hk & fs & Hfs & Hids). cbn [fst snd] in *.
  pose proof (nearest_indices_length cs boundary fs Hfs) as Hlen.
  subst ids. split; [exact Hk | split; [| split]].
  - rewrite length_map, length_seq. reflexivity.
  - apply Forall_forall. intros v Hv. apply list_elem_of_In, in_map_iff in Hv.
    destruct Hv as (p & <- & _). rewrite <- Hlen. apply marker_id_range.
  - intros Hfew. apply Forall_forall. intros v Hv. apply list_elem_of_In, in_map_iff in Hv.
    destruct Hv as (p & <- & _). apply marker_id_few. lia.
Qed.

End FacesetCoordsMore.

Section FacesetCoordsCompose.
Import FacesetCoords.
Variable cdist_argmin : point -> list point -> res nat.

Lemma sorted_nodup_strict (s : list nat) :
  StronglySorted ge s -> NoDup s -> StronglySorted gt s.
Proof.
  induction 1 as [|x s Hs IH Hx]; intros Hnd; constructor.
  - apply IH. apply NoDup_cons_1_2 in Hnd. exact Hnd.
  - apply Forall_forall. intros y Hy.
    rewrite Forall_forall in Hx. specialize (Hx y Hy).
    apply NoDup_cons_1_1 in Hnd. assert (x <> y) by (intros ->; contradiction). lia.
Qed.

Lemma beyond_none (p : nat) (s : list nat) : Forall (fun f => f <= p) s -> beyond p s = 0.
Proof.
  unfold beyond. induction 1 as [|x s Hx _ IH]; cbn [List.filter length]; [reflexivity |].
  destruct (Nat.ltb_spec p x); [lia | exact IH].
Qed.

Lemma beyond_position (s : list nat) (j x : nat) :
  StronglySorted gt s -> s !! j = Some x -> beyond x s = j.
Proof.
  intros Hs. revert j. induction Hs as [|y s Hs IH Hy]; intros j Hj; [discriminate |].
  change (y :: s) with ([y] ++ s). rewrite beyond_app.
  destruct j as [|j]; cbn in Hj.
  - injection Hj as ->. rewrite !beyond_none; [reflexivity | |].
    + eapply Forall_impl; [exact Hy |]. cbn. intros; lia.
    + repeat constructor.
  - rewrite (IH j Hj).
    assert (x < y).
    { rewrite Forall_forall in Hy. apply (Hy x). eapply list_elem_of_lookup_2, Hj. }
    unfold beyond. cbn [List.filter]. destruct (Nat.ltb_spec x y); [reflexivity | lia].
Qed.

Lemma marker_id_at_marker (fs : list nat) (x : nat) :
  In x fs -> marker_id fs x = (1 + Z.of_nat (beyond x fs))%Z.
Proof.
  intros Hx. unfold marker_id. fold (beyond x fs).
  destruct (forallb (fun f => Nat.ltb x f) fs) eqn:E; [| reflexivity].
  rewrite forallb_forall in E. specialize (E x Hx). apply Nat.ltb_lt in E. lia.
Qed.

(** X7.  When the query coordinates of a bare array land on distinct
    boundary positions, [getFacesetsFromCoordinates] uses exactly the ids
    1, ..., n for n coordinates, so that its result passes the check on
    sequential ids that [generateComplexFacesets] makes. *)
Theorem getFacesetsFromCoordinates_ids_sequential
    (cs boundary : list point) (fs : list nat) :
  nearest_indices cdist_argmin cs boundary = Ok fs ->
  fs <> [] ->
  NoDup fs ->
  Forall (fun f => f < length boundary) fs ->
  exists ids,
    getFacesetsFromCoordinates cdist_argmin (CoordArray cs) boundary
      = Ok [("all"%string, ids)] /\
    Session.ids_are_1_to (Z.of_nat (length cs)) ids /\
    Session.np_all_eq (Session.np_unique ids)
      (Session.np_range1 (length (Session.np_unique ids))) = true.
Proof.
  intros Hfs Hne Hnd Hin.
  exists (map (marker_id fs) (seq 0 (length boundary))).
  assert (Hseq : Session.ids_are_1_to (Z.of_nat (length cs))
                   (map (marker_id fs) (seq 0 (length boundary)))).
  { rewrite <- (nearest_indices_length cdist_argmin cs boundary fs Hfs).
    intros v. split.
    - intros Hv. apply in_map_iff in Hv as (p & <- & _).
      pose proof (marker_id_range fs p). destruct fs; [congruence | cbn [length] in *; lia].
    - intros Hv.
      pose proof (sort_reverse_perm fs) as Hperm.
      assert (Hs : StronglySorted gt (sort_reverse fs)).
      { apply sorted_nodup_strict; [apply sort_reverse_sorted |].
        rewrite Hperm. exact Hnd. }
      destruct (lookup_lt_is_Some_2 (sort_reverse fs) (Z.to_nat (v - 1))) as [x Hx].
      { rewrite (Permutation_length Hperm). lia. }
      assert (Hxin : In x fs).
      { eapply Permutation_in; [exact Hperm |]. eapply list_elem_of_In, list_elem_of_lookup_2, Hx. }
      apply in_map_iff. exists x. split.
      + rewrite (marker_id_at_marker fs x Hxin), <- (beyond_perm x _ _ Hperm).
        rewrite (beyond_position _ _ _ Hs Hx). lia.
      + apply in_seq. rewrite Forall_forall in Hin. specialize (Hin x (proj2 (list_elem_of_In _ _) Hxin)). lia. }
  split; [| split].
  - unfold getFacesetsFromCoordinates. cbn [facesets_of].
    rewrite (mat_ids_for_marker_id cdist_argmin cs boundary fs Hfs). reflexivity.
  - exact Hseq.
  - apply sequential_check. eexists. exact Hseq.
Qed.

End FacesetCoordsCompose.

Section FacesetCoordsWitnesses.
Import FacesetCoords.

Lemma getFacesetsFromCoordinates_counts_markers_beyond_witness :
  getFacesetsFromCoordinates argmin_exact (CoordArray [(7, 1); (2, 1); (9, 3)]%Q) line10
  = Ok [("all"%string, map (marker_id [7; 2; 9]) (seq 0 10))].
Proof.
  exact (proj1 (getFacesetsFromCoordinates_counts_markers_beyond argmin_exact)
           [(7, 1); (2, 1); (9, 3)]%Q line10 [7; 2; 9]%nat eq_refl).
Defined.

Lemma getFacesetsFromCoordinates_shape_witness :
  Forall2 (fun (kc : string * list point) (ki : string * list Z) =>
             fst ki = fst kc /\
             length (snd ki) = 10%nat /\
             Forall (fun v => (1 <= v <= Z.max 1 (Z.of_nat (length (snd kc))))%Z) (snd ki) /\
             (length (snd kc) <= 1 -> Forall (fun v => v = 1%Z) (snd ki)))
          [("all"%string, [(7, 1); (2, 1); (9, 3)]%Q)]
          [("all"%string, [1; 1; 3; 3; 3; 3; 3; 2; 2; 1]%Z)].
Proof.
  exact (getFacesetsFromCoordinates_shape argmin_exact
           (CoordArray [(7, 1); (2, 1); (9, 3)]%Q) line10
           [("all"%string, [1; 1; 3; 3; 3; 3; 3; 2; 2; 1]%Z)] eq_refl).
Defined.

Lemma getFacesetsFromCoordinates_ids_sequential_witness :
  exists ids,
    getFacesetsFromCoordinates argmin_exact (CoordArray [(7, 1); (2, 1); (9, 3)]%Q) line10
      = Ok [("all"%string, ids)] /\
    Session.ids_are_1_to 3 ids /\
    Session.np_all_eq (Session.np_unique ids)
      (Session.np_range1 (length (Session.np_unique ids))) = true.
Proof.
  refine (getFacesetsFromCoordinates_ids_sequential argmin_exact
            [(7, 1); (2, 1); (9, 3)]%Q line10 [7; 2; 9]%nat eq_refl _ _ _).
  - discriminate.
  - apply (bool_decide_unpack _). vm_compute. reflexivity.
  - repeat (apply Forall_cons_2; [vm_compute; lia |]). apply Forall_nil_2.
Defined.

End FacesetCoordsWitnesses.

(** ** What the fill puts into a cell *)

Section FillFacts.
Import Raster.
Variable nearest_index : list pos -> pos -> nat.
Hypothesis Hnearest : is_nearest_query nearest_index.

Lemma cell_lookup (a : list (list pyfloat)) (y x : nat) (v : pyfloat) :
  cell a y x = Some v <-> exists row, a !! y = Some row /\ row !! x = Some v.
Proof.
  unfold cell. destruct (a !! y) as [row|].
  - split; [intros H; exists row; auto | intros (row' & [= <-] & H); exact H].
  - split; [discriminate | intros (row' & H & _); discriminate].
Qed.

Lemma fill_value_self (nd : pyfloat) (a : grid pyfloat) (y x : nat) (v : pyfloat) :
  cell a y x = Some v -> float_eqb v nd = false ->
  fill_value nearest_index nd a (x, y) = v.
Proof.
  intros Hc Hv. apply cell_lookup in Hc as (row & Hy & Hx).
  assert (Hvalid : has_valid_cell nd a).
  { apply Exists_exists. exists row. split; [eapply list_elem_of_lookup_2; eassumption |].
    apply Exists_exists. exists v. split; [eapply list_elem_of_lookup_2; eassumption | exact Hv]. }
  assert (Hself : In ((x, y), v) (valid_cells nd (fun y x => (x, y)) a)).
  { apply valid_cells_In. exists y, x, row. auto. }
  destruct (fill_value_near nearest_index Hnearest nd a (x, y) Hvalid)
    as (p & v' & _ & -> & Hin & Hmin).
  apply Hmin, sqdist_le_self in Hself. subst p.
  apply valid_cells_In in Hin as (y' & x' & row' & Hy' & Hx' & [= <- <-] & _).
  unfold grid in *. congruence.
Qed.

Lemma cell_imap (a : list (list pyfloat)) (g : pos -> pyfloat) (y x : nat) (u : pyfloat) :
  cell (imap (fun y row => imap (fun x (_ : pyfloat) => g (x, y)) row) a) y x = Some u ->
  u = g (x, y) /\ exists v, cell a y x = Some v.
Proof.
  unfold cell. rewrite list_lookup_imap.
  destruct (a !! y) as [row|]; [cbn [fmap option_fmap option_map] | cbn; intros [=]].
  rewrite list_lookup_imap.
  destruct (row !! x) as [v|]; cbn; [| intros [=]].
  intros [= <-]. eauto.
Qed.

Lemma cell_imap_Some (a : list (list pyfloat)) (g : pos -> pyfloat) (y x : nat) (v : pyfloat) :
  cell a y x = Some v ->
  cell (imap (fun y row => imap (fun x (_ : pyfloat) => g (x, y)) row) a) y x = Some (g (x, y)).
Proof.
  unfold cell. rewrite list_lookup_imap.
  destruct (a !! y) as [row|]; [cbn [fmap option_fmap option_map] | cbn; intros [=]].
  rewrite list_lookup_imap. intros ->. reflexivity.
Qed.

Lemma imap_rows_shape (a : grid pyfloat) (g : pos -> pyfloat) :
  map length (imap (fun y row => imap (fun x (_ : pyfloat) => g (x, y)) row) a)
  = map length a.
Proof.
  generalize g. induction a as [|row a IH]; intros g'; cbn; [reflexivity |].
  rewrite length_imap. f_equal. apply (IH (fun p => g' (fst p, S (snd p)))).
Qed.

Lemma fill_attribute_filled_from_nearest (nd : pyfloat) (a : grid pyfloat) :
  has_valid_cell nd a ->
  exists out, fill_attribute nearest_index nd a = Ok out /\ filled_from_nearest nd a out.
Proof.
  intros Hvalid. eexists. split; [apply (fill_attribute_ok nearest_index Hnearest), Hvalid |].
  split; [| split].
  - apply (imap_rows_shape a (fill_value nearest_index nd a)).
  - intros y x v Hc Hv.
    rewrite (cell_imap_Some a (fill_value nearest_index nd a) y x v Hc).
    f_equal. apply fill_value_self; assumption.
  - intros y x u Hu.
    apply (cell_imap a (fill_value nearest_index nd a)) in Hu as (-> & _).
    destruct (fill_value_near nearest_index Hnearest nd a (x, y) Hvalid)
      as (p & v & _ & Hfv & Hin & Hmin).
    rewrite Hfv.
    apply valid_cells_In in Hin as (y0 & x0 & row0 & Hy0 & Hx0 & -> & Hv).
    exists y0, x0. split; [apply cell_lookup; eauto | split; [exact Hv |]].
    intros y1 x1 v1 Hc1 Hv1. apply cell_lookup in Hc1 as (row1 & Hy1 & Hx1).
    apply (Hmin (x1, y1) v1). apply valid_cells_In. exists y1, x1, row1. auto.
Qed.

End FillFacts.

Section FillTheorems.
Import Raster.

(** X8.  On a raster of finite numbers with at least one cell that is
    not the no-data value, the fill of [addElevation] and the fill of
    [addAttribute] succeed with the same raster.  It has the shape of the
    input, every cell that held data holds the same value, and every cell
    holds the value of some data cell of the input than which no data
    cell is nearer in squared grid distance: no value is invented. *)
Theorem fill_keeps_valid_cells_and_copies_nearest
    (nearest_index : list pos -> pos -> nat) (nd : pyfloat) (a : grid pyfloat) :
  is_nearest_query nearest_index ->
  all_finite a ->
  has_valid_cell nd a ->
  exists out,
    fill_elevation nearest_index nd a = Ok out /\
    fill_attribute nearest_index nd a = Ok out /\
    filled_from_nearest nd a out.
Proof.
  intros Hnearest Hfin Hvalid.
  destruct (fill_attribute_filled_from_nearest nearest_index Hnearest nd a Hvalid)
    as (out & Hout & Hspec).
  exists out. rewrite fill_elevation_attribute by exact Hfin. auto.
Qed.

Lemma fill_keeps_valid_cells_and_copies_nearest_witness :
  exists out,
    fill_elevation nearest_first (Fin (-9999))
      [[Fin (-9999); Fin 1; Fin 2]; [Fin 3; Fin (-9999); Fin (-9999)]] = Ok out /\
    fill_attribute nearest_first (Fin (-9999))
      [[Fin (-9999); Fin 1; Fin 2]; [Fin 3; Fin (-9999); Fin (-9999)]] = Ok out /\
    filled_from_nearest (Fin (-9999))
      [[Fin (-9999); Fin 1; Fin 2]; [Fin 3; Fin (-9999); Fin (-9999)]] out.
Proof.
  apply (fill_keeps_valid_cells_and_copies_nearest nearest_first (Fin (-9999))
           [[Fin (-9999); Fin 1; Fin 2]; [Fin 3; Fin (-9999); Fin (-9999)]]).
  - exact nearest_first_is_nearest.
  - repeat constructor.
  - constructor 1. constructor 2. constructor 1. reflexivity.
Defined.

Lemma grid_eq_cells (a b : grid pyfloat) :
  map length a = map length b ->
  (forall y x v, cell a y x = Some v -> cell b y x = Some v) ->
  b = a.
Proof.
  revert b. induction a as [|row a IH]; intros [|row' b] Hshape Hcells; try discriminate.
  - reflexivity.
  - cbn in Hshape. injection Hshape as Hlen Hshape. f_equal.
    + apply list_eq. intros x. specialize (Hcells 0%nat x). cbn in Hcells.
      destruct (row !! x) as [v|] eqn:E.
      * apply Hcells. reflexivity.
      * apply lookup_ge_None in E. apply lookup_ge_None. lia.
    + apply IH; [exact Hshape |]. intros y x v. apply (Hcells (S y) x v).
Qed.

(** X9.  With NaN as the no-data value, the default of [addAttribute],
    the fill gives back the raster it was given, whatever its cells: no
    cell compares equal to NaN, so none is taken for missing. *)
Theorem fill_attribute_nan_sentinel_changes_nothing
    (nearest_index : list pos -> pos -> nat) (a : grid pyfloat) :
  is_nearest_query nearest_index ->
  concat a <> [] ->
  fill_attribute nearest_index NaN a = Ok a.
Proof.
  intros Hnearest Hne.
  assert (Hvalid : has_valid_cell NaN a).
  { unfold has_valid_cell. clear -Hne.
    induction a as [|row a IH]; cbn in Hne; [congruence |].
    destruct row as [|v row].
    - right. apply IH. exact Hne.
    - left. left. apply float_eqb_NaN_r. }
  destruct (fill_attribute_filled_from_nearest nearest_index Hnearest NaN a Hvalid)
    as (out & Hout & Hshape & Hkeep & _).
  rewrite Hout. f_equal. apply grid_eq_cells; [symmetry; exact Hshape |].
  intros y x v Hc. apply Hkeep; [exact Hc | apply float_eqb_NaN_r].
Qed.

Lemma fill_attribute_nan_sentinel_changes_nothing_witness :
  fill_attribute nearest_first NaN [[Fin 1; NaN]; [Fin (-9999); Fin 3]]
  = Ok [[Fin 1; NaN]; [Fin (-9999); Fin 3]].
Proof.
  apply (fill_attribute_nan_sentinel_changes_nothing nearest_first
           [[Fin 1; NaN]; [Fin (-9999); Fin 3]]).
  - exact nearest_first_is_nearest.
  - discriminate.
Defined.

Lemma select_all_masked {A} (m : grid bool) (a : grid A) :
  Forall (Forall (fun b => b = true)) m -> select_unmasked m a = [].
Proof.
  unfold select_unmasked. intros Hm. revert a.
  induction Hm as [|mrow m Hrow _ IH]; intros [|row a]; cbn; try reflexivity.
  rewrite IH, app_nil_r. clear -Hrow. revert row.
  induction Hrow as [|b mrow -> _ IH]; intros [|x row]; cbn; try reflexivity. apply IH.
Qed.

Lemma eq_mask_all (nd : pyfloat) (a : grid pyfloat) :
  Forall (Forall (fun v => float_eqb v nd = true)) a ->
  Forall (Forall (fun b => b = true)) (eq_mask nd a).
Proof.
  unfold eq_mask. intros H. apply Forall_fmap. eapply Forall_impl; [exact H |].
  intros row Hrow. apply Forall_fmap. exact Hrow.
Qed.

Lemma invalid_mask_all (nd : pyfloat) (a : grid pyfloat) :
  Forall (Forall (fun v => float_eqb v nd = true)) a ->
  Forall (Forall (fun b => b = true))
         (invalid_mask (assign_where (eq_mask nd a) NaN a)).
Proof.
  unfold invalid_mask, assign_where, eq_mask.
  induction 1 as [|row a Hrow _ IH]; cbn; constructor; [| exact IH].
  clear -Hrow. induction Hrow as [|v row Hv _ IH]; cbn; constructor; [| exact IH].
  rewrite Hv. reflexivity.
Qed.

(** The raster holds nothing but the sentinel. *)
Lemma fill_all_no_data (nearest_index : list pos -> pos -> nat) (nd : pyfloat)
    (a : grid pyfloat) :
  Forall (Forall (fun v => float_eqb v nd = true)) a ->
  is_ok (fill_elevation nearest_index nd a) = false /\
  is_ok (fill_attribute nearest_index nd a) = false.
Proof.
  intros Hall. unfold fill_elevation, fill_attribute. cbv zeta.
  rewrite !(select_all_masked (invalid_mask _)) by (apply invalid_mask_all, Hall).
  rewrite !(select_all_masked (eq_mask _ _)) by (apply eq_mask_all, Hall).
  split; reflexivity.
Qed.

End FillTheorems.

(** ** The fill on any raster *)

Section FillInGeneral.
Import Raster.











Section WithNearest.
Variable nearest_index : list pos -> pos -> nat.
Hypothesis Hnearest : is_nearest_query nearest_index.




End WithNearest.




End FillInGeneral.

(** ** [addElevation] *)

Section ElevationFacts.
Import Session.

Lemma np_filled_finite (a : Raster.grid Raster.pyfloat) :
  Raster.all_finite a -> np_filled a = a.
Proof.
  unfold Raster.all_finite, np_filled.
  induction 1 as [|row a Hrow _ IH]; cbn; [reflexivity |]. f_equal; [| exact IH].
  clear -Hrow. induction Hrow as [|v row Hv _ IH]; cbn; [reflexivity |].
  f_equal; [| exact IH]. destruct v; [reflexivity | discriminate].
Qed.

Lemma cell_finite (a : Raster.grid Raster.pyfloat) (y x : nat) (v : Raster.pyfloat) :
  Raster.all_finite a -> Raster.cell a y x = Some v -> Raster.isnan v = false.
Proof.
  intros Hfin Hc. apply cell_lookup in Hc as (row & Hy & Hx).
  pose proof (Forall_lookup_1 _ _ _ _ Hfin Hy) as Hrow.
  exact (Forall_lookup_1 _ _ _ _ Hrow Hx).
Qed.

Lemma cells_all_finite (out : Raster.grid Raster.pyfloat) :
  (forall y x u, Raster.cell out y x = Some u -> Raster.isnan u = false) ->
  Raster.all_finite out.
Proof.
  intros H. apply Forall_lookup_2. intros y row Hy.
  apply Forall_lookup_2. intros x u Hx.
  apply (H y x u). apply cell_lookup. eauto.
Qed.

(** X10.  On a DEM of finite numbers with at least one data cell
    [addElevation] returns and leaves every array alone.  The first thing
    it does is hand to [tofile], for _temp_elev_array.dat, the DEM with
    its no-data cells filled from the nearest data cells.  Then come
    kernel calls and nothing else: the first reads the scratch file as a
    sheet with the dimensions, the corner and the cell size of the DEM,
    the no-data selection is asked for with the threshold and the
    comparison of lines 146-147, and the last dumps the triplane to
    [fileout], or over [triplane_path] when no [fileout] is given.  The
    removal of the scratch file comes after every kernel call and ends
    the run. *)
Theorem addElevation_fills_then_drapes
    (nearest_index : list Raster.pos -> Raster.pos -> nat) (d : DEM)
    (triplane_path flip : string) (fileout : option string) (w : world) :
  Raster.is_nearest_query nearest_index ->
  Raster.all_finite (dem d) ->
  Raster.has_valid_cell (no_data_value d) (dem d) ->
  exists out calls,
    addElevation nearest_index d triplane_path flip fileout w
    = (Ok tt,
       {| heap := heap w;
          trace := trace w
                   ++ RasterWrite "_temp_elev_array.dat" out
                      :: calls ++ [FileRemove "_temp_elev_array.dat"] |}) /\
    Raster.filled_from_nearest (no_data_value d) (dem d) out /\
    forallb is_kernel_call calls = true /\
    head calls
    = Some (Call (Some "tmp_sheet") "lg" "read_sheetij"
              [AStr "surfacemesh"; AStr "_temp_elev_array.dat";
               AList [AInt (ncols d); AInt (nrows d)];
               AList [ANum (xll_corner d); ANum (yll_corner d)];
               AList [ANum (cell_size d); ANum (cell_size d)];
               AKw "flip" (AStr flip)]) /\
    In (Call (Some "pduds") "tmp_sheet" "pset_attribute"
          [AStr "zic"; arg_of_float (dud_value (no_data_value d));
           AKw "comparison" (AStr (dud_comparison (no_data_value d)));
           AKw "name" (AStr "pduds")]) calls /\
    last calls
    = Some (Call None "triplane" "dump"
              [AStr (match fileout with None => triplane_path | Some f => f end)]).
Proof.
  intros Hnearest Hfin Hvalid.
  destruct (fill_attribute_filled_from_nearest nearest_index Hnearest _ _ Hvalid)
    as (out & Hout & Hspec).
  rewrite <- fill_elevation_attribute in Hout by exact Hfin.
  assert (Hfin' : Raster.all_finite out).
  { apply cells_all_finite. intros y x u Hu.
    destruct Hspec as (_ & _ & Hfrom). destruct (Hfrom y x u Hu) as (y0 & x0 & Hc & _).
    eapply cell_finite; eassumption. }
  exists out.
  refine (ex_intro _ [_; _; _; _; _; _; _; _; _; _; _; _; _; _] _).
  split; [| split; [exact Hspec |]].
  - unfold addElevation. unfold mbind at 1. unfold mlift. rewrite Hout.
    rewrite (np_filled_finite out Hfin').
    match goal with
    | |- ?c ?w0 = (_, {| heap := _; trace := _ ++ ?e |}) =>
        cut (emits c tt e); [intros Hem; apply Hem |]
    end.
    eapply emits_eq; [unfold call, call_as; emits_go | cbn [app]; reflexivity].
  - split; [reflexivity | split; [reflexivity | split; [| reflexivity]]].
    cbn [In]. right. left. reflexivity.
Qed.

Lemma addElevation_fills_then_drapes_witness :
  let d := MkDEM 3 2 0 0 10 (Raster.Fin (-9999))
             [[Raster.Fin (-9999); Raster.Fin 1; Raster.Fin 2];
              [Raster.Fin 3; Raster.Fin (-9999); Raster.Fin (-9999)]] in
  exists out calls,
    addElevation Raster.nearest_first d "triplane.inp" "y" None (World [] [])
    = (Ok tt,
       {| heap := [];
          trace := [] ++ RasterWrite "_temp_elev_array.dat" out
                         :: calls ++ [FileRemove "_temp_elev_array.dat"] |}) /\
    Raster.filled_from_nearest (no_data_value d) (dem d) out /\
    forallb is_kernel_call calls = true /\
    head calls
    = Some (Call (Some "tmp_sheet") "lg" "read_sheetij"
              [AStr "surfacemesh"; AStr "_temp_elev_array.dat";
               AList [AInt 3; AInt 2]; AList [ANum 0; ANum 0];
               AList [ANum 10; ANum 10]; AKw "flip" (AStr "y")]) /\
    In (Call (Some "pduds") "tmp_sheet" "pset_attribute"
          [AStr "zic"; ANum (-9998); AKw "comparison" (AStr "le");
           AKw "name" (AStr "pduds")]) calls /\
    last calls = Some (Call None "triplane" "dump" [AStr "triplane.inp"]).
Proof.
  apply (addElevation_fills_then_drapes Raster.nearest_first
           (MkDEM 3 2 0 0 10 (Raster.Fin (-9999))
              [[Raster.Fin (-9999); Raster.Fin 1; Raster.Fin 2];
               [Raster.Fin 3; Raster.Fin (-9999); Raster.Fin (-9999)]])
           "triplane.inp" "y" None (World [] [])).
  - exact nearest_first_is_nearest.
  - repeat constructor.
  - constructor 1. constructor 2. constructor 1. reflexivity.
Defined.

(** X11.  On a DEM whose cells all equal the no-data value (a DEM without
    cells included) [addElevation] raises an error and has done nothing:
    no scratch file is written and the kernel is not called. *)
Theorem addElevation_all_no_data
    (nearest_index : list Raster.pos -> Raster.pos -> nat) (d : DEM)
    (triplane_path flip : string) (fileout : option string) (w : world) :
  Forall (Forall (fun v => Raster.float_eqb v (no_data_value d) = true)) (dem d) ->
  is_ok (fst (addElevation nearest_index d triplane_path flip fileout w)) = false /\
  snd (addElevation nearest_index d triplane_path flip fileout w) = w.
Proof.
  intros Hall. unfold addElevation, mbind, mlift.
  destruct (fill_all_no_data nearest_index _ _ Hall) as [He _].
  destruct (Raster.fill_elevation nearest_index (no_data_value d) (dem d)); [discriminate |].
  split; reflexivity.
Qed.

Lemma addElevation_all_no_data_witness :
  let d := MkDEM 2 1 0 0 10 (Raster.Fin (-9999))
             [[Raster.Fin (-9999); Raster.Fin (-9999)]] in
  is_ok (fst (addElevation Raster.nearest_first d "triplane.inp" "y" None (World [] [])))
  = false /\
  snd (addElevation Raster.nearest_first d "triplane.inp" "y" None (World [] []))
  = World [] [].
Proof.
  apply (addElevation_all_no_data Raster.nearest_first
           (MkDEM 2 1 0 0 10 (Raster.Fin (-9999))
              [[Raster.Fin (-9999); Raster.Fin (-9999)]])
           "triplane.inp" "y" None (World [] [])).
  repeat constructor.
Defined.

Local Open Scope Q_scope.

(** X12.  The selection that [addElevation] asks the kernel for, read
    with the kernel's 'le' as at most and 'ge' as at least, always
    contains the nodes at the no-data value itself.  For a negative
    no-data value q it takes every node with elevation at most q + 1, for
    a positive one every node with elevation at least q - 1, and for the
    no-data value 0 every node with elevation at most 0.  With a NaN
    no-data value the threshold is NaN and no node is selected. *)
Theorem addElevation_threshold_catches_sentinel (q z : Q) :
  let nd := Raster.Fin q in
  pset_selects (dud_comparison nd) (dud_value nd) nd = true /\
  (q < 0 ->
   (pset_selects (dud_comparison nd) (dud_value nd) (Raster.Fin z) = true <-> z <= q + 1)) /\
  (q == 0 ->
   (pset_selects (dud_comparison nd) (dud_value nd) (Raster.Fin z) = true <-> z <= 0)) /\
  (0 < q ->
   (pset_selects (dud_comparison nd) (dud_value nd) (Raster.Fin z) = true <-> q - 1 <= z)) /\
  pset_selects (dud_comparison Raster.NaN) (dud_value Raster.NaN) (Raster.Fin z) = false.
Proof.
  cbv zeta. unfold dud_comparison, dud_value, float_le0, np_sign, float_sub, pset_selects.
  assert (Hsgn : (q < 0 -> Z.sgn (Qnum q) = (-1)%Z) /\ (q == 0 -> Z.sgn (Qnum q) = 0%Z)
                 /\ (0 < q -> Z.sgn (Qnum q) = 1%Z)).
  { destruct q as [n dn]. unfold Qlt, Qeq. cbn. repeat split; intros; lia. }
  destruct Hsgn as (Hneg & Hzero & Hpos).
  destruct (Qle_bool q 0) eqn:Ele.
  - apply Qle_bool_iff in Ele. cbn [String.eqb Ascii.eqb Bool.eqb].
    change (("le" =? "le")%string) with true. cbv iota.
    split; [| split; [| split; [| split]]].
    + apply Qle_bool_iff. apply Qle_lteq in Ele as [Hlt | Heq].
      * rewrite (Hneg Hlt). change (inject_Z (-1)) with (-1). lra.
      * rewrite (Hzero Heq). change (inject_Z 0) with 0. lra.
    + intros Hlt. rewrite (Hneg Hlt). change (inject_Z (-1)) with (-1).
      rewrite Qle_bool_iff. split; intros; lra.
    + intros Heq. rewrite (Hzero Heq). change (inject_Z 0) with 0.
      rewrite Qle_bool_iff. split; intros; lra.
    + intros Hlt. lra.
    + reflexivity.
  - assert (Hlt : 0 < q).
    { apply Qnot_le_lt. intros H. apply Qle_bool_iff in H. congruence. }
    change (("ge" =? "le")%string) with false. change (("ge" =? "ge")%string) with true.
    cbv iota. rewrite (Hpos Hlt). change (inject_Z 1) with 1.
    split; [| split; [| split; [| split]]].
    + apply Qle_bool_iff. lra.
    + intros H. lra.
    + intros H. lra.
    + intros _. rewrite Qle_bool_iff. split; intros; lra.
    + reflexivity.
Qed.

End ElevationFacts.

(** ** The passes of [addAttribute] *)

Section AttributeRuns.
Import Session.
Variable imresize : Raster.grid Raster.pyfloat -> Z * Z -> Raster.grid Raster.pyfloat.
Variable nearest_index : list Raster.pos -> Raster.pos -> nat.
Variable random_name : string.
Variable elements : Z.

Lemma attribute_layer_emits (attribute_name : string) (v : Z) (x : pyval) :
  emits (attribute_layer attribute_name v x) tt (layer_events attribute_name v (int_value x)).
Proof.
  unfold attribute_layer, layer_events, call, call_as.
  eapply emits_eq; [emits_go | reflexivity].
Qed.

Lemma addAttribute_passes
    (data filled : Raster.grid Raster.pyfloat) (stacked_mesh_infile outfile : string)
    (dem_dimensions : list Z) (d0 d1 : Z) (lower_left_corner cell_size : list Q)
    (number_of_layers : Z) (flip : string) (no_data_value : Raster.pyfloat)
    (attribute_name : option string) (layers : pyval) (items : list pyval)
    (w : world) :
  dem_dimensions !! 1%nat = Some d1 ->
  dem_dimensions !! 0%nat = Some d0 ->
  Raster.fill_attribute nearest_index no_data_value (imresize data (d1, d0)) = Ok filled ->
  number_of_layers <> 0%Z ->
  py_iter (if isinstance_int_float layers then PList [layers]
           else match layers with
                | PNone => PList (map PInt (py_range 1 (number_of_layers + 1)))
                | _ => layers
                end) = Ok items ->
  forallb isinstance_int items = true ->
  addAttribute imresize nearest_index random_name elements data stacked_mesh_infile outfile
    dem_dimensions lower_left_corner cell_size number_of_layers flip no_data_value
    attribute_name layers w
  = (Ok "stacked_mesh"%string,
     {| heap := heap w;
        trace := trace w
                 ++ events_before_check random_name filled stacked_mesh_infile
                      dem_dimensions lower_left_corner cell_size flip attribute_name
                 ++ flat_map (layer_events
                                (match attribute_name with
                                 | Some n => n
                                 | None => "itetclr"%string
                                 end)
                                (elements / number_of_layers))
                             (map int_value items)
                 ++ attribute_closing outfile |}).
Proof.
  intros H1 H0 Hfill Hn Hiter Hints.
  apply Z.eqb_neq in Hn.
  assert (Hloop : emits (mfor items (attribute_layer
                           (match attribute_name with Some n => n | None => "itetclr"%string end)
                           (elements / number_of_layers)))
                        tt (flat_map (layer_events
                                        (match attribute_name with
                                         | Some n => n
                                         | None => "itetclr"%string
                                         end)
                                        (elements / number_of_layers))
                                     (map int_value items))).
  { eapply emits_eq;
      [apply emits_mfor with
         (f := fun x => layer_events
                          (match attribute_name with
                           | Some n => n
                           | None => "itetclr"%string
                           end)
                          (elements / number_of_layers) (int_value x));
       intros x; apply attribute_layer_emits |].
    clear. induction items as [|x items IH]; cbn; [reflexivity | rewrite IH; reflexivity]. }
  unfold addAttribute.
  unfold mbind at 1. unfold getitem at 1. rewrite H1. unfold mret at 1.
  unfold mbind at 1. unfold getitem at 1. rewrite H0. unfold mret at 1.
  unfold mbind at 1. unfold mlift at 1. rewrite Hfill.
  rewrite Hn, Hiter.
  match goal with
  | |- ?c ?w0 = _ => cut (emits c "stacked_mesh"%string
                            (events_before_check random_name filled stacked_mesh_infile
                               dem_dimensions lower_left_corner cell_size flip attribute_name
                             ++ flat_map (layer_events
                                            (match attribute_name with
                                             | Some n => n
                                             | None => "itetclr"%string
                                             end)
                                            (elements / number_of_layers))
                                         (map int_value items)
                             ++ attribute_closing outfile));
                     [intros Hem; apply Hem |]
  end.
  unfold events_before_check, attribute_closing, call, call_as.
  destruct attribute_name as [n|].
  all: eapply emits_eq;
    [ repeat (cbv beta; lazymatch goal with
        | |- emits (mbind _ _) _ _ => eapply emits_bind
        | |- emits (mret _) _ _ => apply emits_ret
        | |- emits (emit _) _ _ => apply emits_emit
        | |- emits (mlift (Ok _)) _ _ => apply emits_ret
        | |- emits (mfor _ (attribute_layer _ _)) _ _ => apply Hloop
        | |- emits (if negb (forallb _ _) then _ else _) _ _ => rewrite Hints; cbn [negb]
        end)
    | reflexivity ].
Qed.

End AttributeRuns.

Section AttributeTheorems.
Import Session.

(** X13.  When the raster can be filled and the number of layers is not
    0, [addAttribute] returns the stacked mesh, leaves every array alone,
    and does its set-up, then one pass of five kernel calls per requested
    layer in the order given, then the closing: the extrusion is deleted,
    the scratch file removed and the mesh dumped to [outfile].  No layers
    argument means the layers 1, ..., [number_of_layers]; a single int
    means that one layer; a list of ints means its entries, repeats
    included.  A single float is refused with ValueError after the
    set-up, before any pass. *)
Theorem addAttribute_processes_requested_layers
    (imresize : Raster.grid Raster.pyfloat -> Z * Z -> Raster.grid Raster.pyfloat)
    (nearest_index : list Raster.pos -> Raster.pos -> nat)
    (random_name : string) (elements : Z)
    (data filled : Raster.grid Raster.pyfloat) (stacked_mesh_infile outfile : string)
    (dem_dimensions : list Z) (d0 d1 : Z) (lower_left_corner cell_size : list Q)
    (number_of_layers : Z) (flip : string) (no_data_value : Raster.pyfloat)
    (attribute_name : option string) (w : world) :
  dem_dimensions !! 1%nat = Some d1 ->
  dem_dimensions !! 0%nat = Some d0 ->
  Raster.fill_attribute nearest_index no_data_value (imresize data (d1, d0)) = Ok filled ->
  number_of_layers <> 0%Z ->
  let run := fun layers =>
    addAttribute imresize nearest_index random_name elements data stacked_mesh_infile
      outfile dem_dimensions lower_left_corner cell_size number_of_layers flip
      no_data_value attribute_name layers w in
  let setup := events_before_check random_name filled stacked_mesh_infile dem_dimensions
                 lower_left_corner cell_size flip attribute_name in
  let passes := fun layers =>
    flat_map (layer_events (match attribute_name with
                            | Some n => n
                            | None => "itetclr"%string
                            end)
                           (elements / number_of_layers)) layers in
  let done := fun layers =>
    (Ok "stacked_mesh"%string,
     {| heap := heap w;
        trace := trace w ++ setup ++ passes layers ++ attribute_closing outfile |}) in
  run PNone = done (py_range 1 (number_of_layers + 1)) /\
  (forall layer, run (PInt layer) = done [layer]) /\
  (forall layers, run (PList (map PInt layers)) = done layers) /\
  (forall q, run (PFloat q)
             = (Raise (ValueError "layers contains non-conforming data"),
                {| heap := heap w; trace := trace w ++ setup |})).
Proof.
  intros H1 H0 Hfill Hn. cbv zeta.
  assert (Hints : forall l, forallb isinstance_int (map PInt l) = true).
  { induction l as [|x l IH]; [reflexivity | exact IH]. }
  assert (Hvals : forall l, map int_value (map PInt l) = l).
  { induction l as [|x l IH]; cbn; [reflexivity | rewrite IH; reflexivity]. }
  split; [| split; [| split]].
  - rewrite (addAttribute_passes imresize nearest_index random_name elements data filled
               stacked_mesh_infile outfile dem_dimensions d0 d1 lower_left_corner cell_size
               number_of_layers flip no_data_value attribute_name PNone
               (map PInt (py_range 1 (number_of_layers + 1))) w H1 H0 Hfill Hn eq_refl
               (Hints _)).
    rewrite Hvals. reflexivity.
  - intros layer.
    apply (addAttribute_passes imresize nearest_index random_name elements data filled
             stacked_mesh_infile outfile dem_dimensions d0 d1 lower_left_corner cell_size
             number_of_layers flip no_data_value attribute_name (PInt layer)
             [PInt layer] w H1 H0 Hfill Hn eq_refl eq_refl).
  - intros layers.
    rewrite (addAttribute_passes imresize nearest_index random_name elements data filled
               stacked_mesh_infile outfile dem_dimensions d0 d1 lower_left_corner cell_size
               number_of_layers flip no_data_value attribute_name (PList (map PInt layers))
               (map PInt layers) w H1 H0 Hfill Hn eq_refl (Hints _)).
    rewrite Hvals. reflexivity.
  - intros q. apply Z.eqb_neq in Hn.
    unfold addAttribute, events_before_check, mbind, getitem, mlift, call, call_as, emit,
      mmodify, mret, mraise.
    rewrite H1, H0, Hfill. cbn [heap trace isinstance_int_float py_iter].
    destruct attribute_name as [n|]; cbn [heap trace]; rewrite Hn;
      cbn [forallb isinstance_int andb negb heap trace];
      rewrite <- !app_assoc; reflexivity.
Qed.

Lemma addAttribute_processes_requested_layers_witness :
  addAttribute imresize_same Raster.nearest_first "abcde" 100
    [[Raster.Fin 1; Raster.Fin 2]] "stacked.inp" "attributed.inp" [2; 1]%Z [0; 0]%Q [1; 1]%Q
    2 "y" Raster.NaN None PNone (World [] [])
  = (Ok "stacked_mesh"%string,
     {| heap := [];
        trace := [] ++ events_before_check "abcde" [[Raster.Fin 1; Raster.Fin 2]]
                         "stacked.inp" [2; 1]%Z [0; 0]%Q [1; 1]%Q "y" None
                 ++ flat_map (layer_events "itetclr" (100 / 2)) [1; 2]%Z
                 ++ attribute_closing "attributed.inp" |}).
Proof.
  refine (proj1 (addAttribute_processes_requested_layers imresize_same Raster.nearest_first
                   "abcde" 100 [[Raster.Fin 1; Raster.Fin 2]] [[Raster.Fin 1; Raster.Fin 2]]
                   "stacked.inp" "attributed.inp" [2; 1]%Z 2 1 [0; 0]%Q [1; 1]%Q 2 "y"
                   Raster.NaN None (World [] []) _ _ _ _)).
  - reflexivity.
  - reflexivity.
  - vm_compute. reflexivity.
  - lia.
Defined.

(** X14.  With [number_of_layers] 0 and a raster that can be filled,
    [addAttribute] raises ZeroDivisionError at the division of line 238,
    whatever [layers] is.  By then the scratch file is written and the
    kernel has read the sheet, extruded it and read the stacked mesh:
    everything of the set-up except its last command.  Nothing is
    cleaned up. *)
Theorem addAttribute_zero_layers_divides_by_zero
    (imresize : Raster.grid Raster.pyfloat -> Z * Z -> Raster.grid Raster.pyfloat)
    (nearest_index : list Raster.pos -> Raster.pos -> nat)
    (random_name : string) (elements : Z)
    (data filled : Raster.grid Raster.pyfloat) (stacked_mesh_infile outfile : string)
    (dem_dimensions : list Z) (d0 d1 : Z) (lower_left_corner cell_size : list Q)
    (flip : string) (no_data_value : Raster.pyfloat)
    (attribute_name : option string) (layers : pyval) (w : world) :
  dem_dimensions !! 1%nat = Some d1 ->
  dem_dimensions !! 0%nat = Some d0 ->
  Raster.fill_attribute nearest_index no_data_value (imresize data (d1, d0)) = Ok filled ->
  addAttribute imresize nearest_index random_name elements data stacked_mesh_infile outfile
    dem_dimensions lower_left_corner cell_size 0 flip no_data_value attribute_name layers w
  = (Raise ZeroDivisionError,
     {| heap := heap w;
        trace := trace w
                 ++ removelast (events_before_check random_name filled stacked_mesh_infile
                                  dem_dimensions lower_left_corner cell_size flip
                                  attribute_name) |}).
Proof.
  intros H1 H0 Hfill.
  unfold addAttribute, events_before_check, mbind, getitem, mlift, call, call_as, emit,
    mmodify, mret, mraise.
  rewrite H1, H0, Hfill. cbn [heap trace Z.eqb].
  destruct attribute_name as [n|]; cbn [heap trace app removelast];
    rewrite <- !app_assoc; reflexivity.
Qed.

Lemma addAttribute_zero_layers_divides_by_zero_witness :
  addAttribute imresize_same Raster.nearest_first "abcde" 100
    [[Raster.Fin 1; Raster.Fin 2]] "stacked.inp" "attributed.inp" [2; 1]%Z [0; 0]%Q [1; 1]%Q
    0 "y" Raster.NaN None PNone (World [] [])
  = (Raise ZeroDivisionError,
     {| heap := [];
        trace := [] ++ removelast
                         (events_before_check "abcde" [[Raster.Fin 1; Raster.Fin 2]]
                            "stacked.inp" [2; 1]%Z [0; 0]%Q [1; 1]%Q "y" None) |}).
Proof.
  refine (addAttribute_zero_layers_divides_by_zero imresize_same Raster.nearest_first
            "abcde" 100 [[Raster.Fin 1; Raster.Fin 2]] [[Raster.Fin 1; Raster.Fin 2]]
            "stacked.inp" "attributed.inp" [2; 1]%Z 2 1 [0; 0]%Q [1; 1]%Q "y"
            Raster.NaN None PNone (World [] []) _ _ _).
  - reflexivity.
  - reflexivity.
  - vm_compute. reflexivity.
Defined.

(** X15.  Two calls of [addAttribute] fail with nothing done, no file
    written and no kernel call made: fewer than two entries in
    [dem_dimensions] raise IndexError, and a resized raster whose cells
    all equal the no-data value makes the fill fail. *)
Theorem addAttribute_rejects_before_effects
    (imresize : Raster.grid Raster.pyfloat -> Z * Z -> Raster.grid Raster.pyfloat)
    (nearest_index : list Raster.pos -> Raster.pos -> nat)
    (random_name : string) (elements : Z)
    (data : Raster.grid Raster.pyfloat) (stacked_mesh_infile outfile : string)
    (dem_dimensions : list Z) (lower_left_corner cell_size : list Q)
    (number_of_layers : Z) (flip : string) (no_data_value : Raster.pyfloat)
    (attribute_name : option string) (layers : pyval) (w : world) :
  let r := addAttribute imresize nearest_index random_name elements data
             stacked_mesh_infile outfile dem_dimensions lower_left_corner cell_size
             number_of_layers flip no_data_value attribute_name layers w in
  (length dem_dimensions < 2 -> r = (Raise IndexError, w)) /\
  (forall d0 d1,
     dem_dimensions !! 1%nat = Some d1 ->
     dem_dimensions !! 0%nat = Some d0 ->
     Forall (Forall (fun v => Raster.float_eqb v no_data_value = true))
            (imresize data (d1, d0)) ->
     is_ok (fst r) = false /\ snd r = w).
Proof.
  cbv zeta. split.
  - intros Hlen. unfold addAttribute, mbind, getitem.
    rewrite (lookup_ge_None_2 dem_dimensions 1) by lia. reflexivity.
  - intros d0 d1 H1 H0 Hall. unfold addAttribute, mbind, getitem, mlift, mret.
    rewrite H1, H0.
    destruct (fill_all_no_data nearest_index _ _ Hall) as [_ He].
    destruct (Raster.fill_attribute nearest_index no_data_value (imresize data (d1, d0)));
      [discriminate |].
    split; reflexivity.
Qed.

Lemma addAttribute_rejects_before_effects_witness :
  addAttribute imresize_same Raster.nearest_first "abcde" 100
    [[Raster.Fin 1; Raster.Fin 2]] "stacked.inp" "attributed.inp" [2]%Z [0; 0]%Q [1; 1]%Q
    2 "y" Raster.NaN None PNone (World [] [])
  = (Raise IndexError, World [] []) /\
  (let r := addAttribute imresize_same Raster.nearest_first "abcde" 100
              [[Raster.Fin 7; Raster.Fin 7]] "stacked.inp" "attributed.inp" [2; 1]%Z
              [0; 0]%Q [1; 1]%Q 2 "y" (Raster.Fin 7) None PNone (World [] []) in
   is_ok (fst r) = false /\ snd r = World [] []).
Proof.
  split.
  - apply (proj1 (addAttribute_rejects_before_effects imresize_same Raster.nearest_first
                    "abcde" 100 [[Raster.Fin 1; Raster.Fin 2]] "stacked.inp"
                    "attributed.inp" [2]%Z [0; 0]%Q [1; 1]%Q 2 "y" Raster.NaN None PNone
                    (World [] []))).
    cbn. lia.
  - apply (proj2 (addAttribute_rejects_before_effects imresize_same Raster.nearest_first
                    "abcde" 100 [[Raster.Fin 7; Raster.Fin 7]] "stacked.inp"
                    "attributed.inp" [2; 1]%Z [0; 0]%Q [1; 1]%Q 2 "y" (Raster.Fin 7) None
                    PNone (World [] [])) 2%Z 1%Z).
    + reflexivity.
    + reflexivity.
    + repeat constructor.
Defined.

End AttributeTheorems.

(** ** The content of the line files *)

Section LoopFacts.
Import Session.

Lemma mfor_seq_inv (I : nat -> world -> Prop) (body : nat -> M world unit) (k a : nat) :
  (forall i w, a <= i < a + k -> I i w -> exists w', body i w = (Ok tt, w') /\ I (S i) w') ->
  forall w, I a w -> exists w', mfor (seq a k) body w = (Ok tt, w') /\ I (a + k) w'.
Proof.
  revert a. induction k as [|k IH]; intros a H w Hw; cbn [seq mfor].
  - exists w. rewrite Nat.add_0_r. auto.
  - destruct (H a w) as (w1 & Hrun & Hw1); [lia | exact Hw |].
    cbv beta. rewrite (run_bind _ _ tt w1 _ Hrun).
    destruct (IH (S a)) with (w := w1) as (w2 & Hrun2 & Hw2).
    + intros i w' Hi. apply H. lia.
    + exact Hw1.
    + exists w2. split; [exact Hrun2 |]. replace (a + S k) with (S a + k) by lia. exact Hw2.
Qed.

Lemma insert_fill_next {A} (pre : list A) (x d : A) (j : nat) :
  <[length pre := x]> (pre ++ repeat d (S j)) = (pre ++ [x]) ++ repeat d j.
Proof.
  rewrite insert_app_r_alt by lia. rewrite Nat.sub_diag. cbn.
  rewrite <- app_assoc. reflexivity.
Qed.

End LoopFacts.

Section ConnectivityFacts.
Import Session.

(** The polyline of a non-empty node array, row by row. *)
Lemma run_generateLineConnectivity_rows (nodes : list point) (connect_ends : bool) (w : world) :
  nodes <> [] ->
  generateLineConnectivity nodes connect_ends w
  = (Ok (length (heap w)),
     {| heap := heap w ++ [Pairs (polyline_rows (length nodes) connect_ends)];
        trace := trace w |}).
Proof.
  intros Hne.
  assert (Hn : 0 < length nodes) by (destruct nodes; [congruence | cbn; lia]).
  set (n := length nodes) in *.
  set (m := if connect_ends then n else n - 1).
  set (f := fun i : nat => (Z.of_nat i + 1, Z.of_nat i + 2)%Z).
  set (I := fun (i : nat) (w' : world) =>
              w' = {| heap := heap w ++ [Pairs (map f (seq 0 i) ++ repeat (0, 0)%Z (m - i))];
                      trace := trace w |}).
  unfold generateLineConnectivity. fold n.
  rewrite (run_bind _ _ (length (heap w))
             {| heap := heap w ++ [Pairs (repeat (0, 0)%Z m)]; trace := trace w |}).
  2:{ unfold np_empty_pairs, m. destruct connect_ends.
      - destruct (Z.ltb_spec (Z.of_nat n + 0) 0); [lia |].
        unfold alloc. rewrite Z.add_0_r, Nat2Z.id. reflexivity.
      - destruct (Z.ltb_spec (Z.of_nat n + -1) 0); [lia |].
        unfold alloc. replace (Z.to_nat (Z.of_nat n + -1)) with (n - 1) by lia. reflexivity. }
  cbv beta.
  destruct (mfor_seq_inv I (fun i => setitem_row (length (heap w)) (Z.of_nat i) (f i)) (n - 1) 0)
    with (w := {| heap := heap w ++ [Pairs (repeat (0, 0)%Z m)]; trace := trace w |})
    as (w1 & Hloop & Hw1).
  { intros i w' Hi ->. unfold setitem_row. cbn [heap trace].
    rewrite lookup_snoc. cbv zeta.
    assert (Hlen : length (map f (seq 0 i) ++ repeat (0, 0)%Z (m - i)) = m).
    { rewrite length_app, length_map, length_seq, repeat_length. unfold m. destruct connect_ends; lia. }
    rewrite Hlen.
    destruct (Z.ltb_spec (Z.of_nat i) 0) as [? | _]; [lia |].
    assert (Hm : i < m) by (unfold m; destruct connect_ends; lia).
    destruct ((0 <=? Z.of_nat i) && (Z.of_nat i <? Z.of_nat m))%Z eqn:E; [| lia].
    eexists. split; [reflexivity |]. unfold I. f_equal.
    rewrite insert_app_r_alt by lia. rewrite Nat.sub_diag. cbn [insert list_insert].
    do 2 f_equal. rewrite Nat2Z.id.
    replace (m - i) with (S (m - S i)) by lia.
    replace i with (length (map f (seq 0 i))) at 1 by (rewrite length_map, length_seq; reflexivity).
    rewrite insert_fill_next. rewrite seq_S, map_app. reflexivity. }
  { unfold I. cbn. rewrite Nat.sub_0_r. reflexivity. }
  rewrite (run_bind _ _ tt w1 _ Hloop). cbv beta.
  unfold I in Hw1. cbn [Nat.add] in Hw1. subst w1.
  unfold polyline_rows. fold f. unfold m. destruct connect_ends.
  - assert (Hlen : length (map f (seq 0 (n - 1)) ++ repeat (0, 0)%Z (n - (n - 1))) = n).
    { rewrite length_app, length_map, length_seq, repeat_length. lia. }
    erewrite run_bind; [reflexivity |].
    unfold setitem_row. cbn [heap trace]. rewrite lookup_snoc. cbv zeta.
    rewrite Hlen. change (-1 <? 0)%Z with true. cbv iota.
    destruct ((0 <=? -1 + Z.of_nat n) && (-1 + Z.of_nat n <? Z.of_nat n))%Z eqn:E; [| lia].
    f_equal. f_equal.
    rewrite insert_app_r_alt by lia. rewrite Nat.sub_diag. cbn [insert list_insert].
    do 2 f_equal.
    replace (n - (n - 1)) with 1 by lia.
    replace (Z.to_nat (-1 + Z.of_nat n)) with (length (map f (seq 0 (n - 1))))
      by (rewrite length_map, length_seq; lia).
    rewrite insert_fill_next. cbn [repeat]. rewrite app_nil_r. reflexivity.
  - unfold mbind, mret. cbn [heap trace]. rewrite Nat.sub_diag. cbn [repeat].
    rewrite !app_nil_r. reflexivity.
Qed.

Lemma polyline_rows_lookup (n : nat) (connect_ends : bool) (i : nat) (r : Z * Z) :
  polyline_rows n connect_ends !! i = Some r ->
  (i < n - 1 /\ r = (Z.of_nat i + 1, Z.of_nat i + 2)%Z) \/
  (connect_ends = true /\ i = n - 1 /\ r = (Z.of_nat n, 1%Z)).
Proof.
  unfold polyline_rows. intros H.
  destruct (Nat.lt_ge_cases i (n - 1)) as [Hi | Hi].
  - left. split; [exact Hi |].
    rewrite lookup_app_l in H by (rewrite length_map, length_seq; exact Hi).
    rewrite list_lookup_fmap, lookup_seq_lt in H by exact Hi. cbn in H. congruence.
  - right. rewrite lookup_app_r in H by (rewrite length_map, length_seq; exact Hi).
    rewrite length_map, length_seq in H.
    destruct connect_ends; [| destruct (i - (n - 1)); discriminate].
    destruct (i - (n - 1)) as [|k] eqn:E; [| destruct k; discriminate].
    cbn in H. injection H as <-. split; [reflexivity | split; [lia | reflexivity]].
Qed.

(** X16.  For a non-empty array of N nodes [generateLineConnectivity]
    allocates one new array and touches nothing else.  Its rows are
    (1,2), (2,3), ..., (N-1,N), followed by (N,1) when the ends are
    connected: N - 1 rows for an open line and N for a closed one, every
    index between 1 and N, each row starting at the node where the row
    before it ends, and a closed line starting and ending at node 1. *)
Theorem generateLineConnectivity_polyline
    (nodes : list point) (connect_ends : bool) (w : world) :
  nodes <> [] ->
  exists rows,
    generateLineConnectivity nodes connect_ends w
    = (Ok (length (heap w)), {| heap := heap w ++ [Pairs rows]; trace := trace w |}) /\
    rows = polyline_rows (length nodes) connect_ends /\
    length rows = (if connect_ends then length nodes else length nodes - 1) /\
    Forall (fun r => (1 <= fst r <= Z.of_nat (length nodes))%Z /\
                     (1 <= snd r <= Z.of_nat (length nodes))%Z) rows /\
    (forall i r r', rows !! i = Some r -> rows !! S i = Some r' -> snd r = fst r') /\
    (connect_ends = true ->
     exists r0 r, head rows = Some r0 /\ last rows = Some r /\
                  fst r0 = 1%Z /\ snd r = 1%Z).
Proof.
  intros Hne.
  assert (Hn : 0 < length nodes) by (destruct nodes; [congruence | cbn; lia]).
  exists (polyline_rows (length nodes) connect_ends).
  split; [apply run_generateLineConnectivity_rows, Hne |].
  split; [reflexivity |]. split; [| split; [| split]].
  - unfold polyline_rows. rewrite length_app, length_map, length_seq.
    destruct connect_ends; cbn [length]; lia.
  - apply Forall_lookup_2. intros i r Hr.
    apply polyline_rows_lookup in Hr as [(Hi & ->) | (_ & Hi & ->)]; cbn [fst snd]; lia.
  - intros i r r' Hr Hr'.
    apply polyline_rows_lookup in Hr as [(Hi & ->) | (_ & Hi & ->)];
      apply polyline_rows_lookup in Hr' as [(Hi' & ->) | (_ & Hi' & ->)]; cbn [fst snd]; lia.
  - intros ->. unfold polyline_rows.
    exists (match length nodes - 1 with
            | 0 => (Z.of_nat (length nodes), 1%Z)
            | S _ => (1, 2)%Z
            end), (Z.of_nat (length nodes), 1%Z).
    split; [| split; [apply last_snoc | split; [| reflexivity]]].
    + destruct (length nodes - 1); reflexivity.
    + destruct (length nodes - 1) eqn:E; cbn [fst]; lia.
Qed.

Lemma generateLineConnectivity_polyline_witness :
  exists rows,
    generateLineConnectivity triangle3 true (World [] [])
    = (Ok 0%nat, {| heap := [Pairs rows]; trace := [] |}) /\
    rows = [(1, 2); (2, 3); (3, 1)]%Z /\
    length rows = 3%nat /\
    Forall (fun r => (1 <= fst r <= 3)%Z /\ (1 <= snd r <= 3)%Z) rows /\
    (forall i r r', rows !! i = Some r -> rows !! S i = Some r' -> snd r = fst r') /\
    (true = true ->
     exists r0 r, head rows = Some r0 /\ last rows = Some r /\ fst r0 = 1%Z /\ snd r = 1%Z).
Proof.
  exact (generateLineConnectivity_polyline triangle3 true (World [] [])
           ltac:(discriminate)).
Defined.

Lemma generateLineConnectivity_empty_run (w : world) :
  generateLineConnectivity [] false w
  = (Raise (ValueError "negative dimensions are not allowed"), w) /\
  generateLineConnectivity [] true w
  = (Raise IndexError, {| heap := heap w ++ [Pairs []]; trace := trace w |}).
Proof.
  split; [reflexivity |].
  unfold generateLineConnectivity. cbn [length Nat.sub seq mfor].
  rewrite (run_bind _ _ (length (heap w)) {| heap := heap w ++ [Pairs []]; trace := trace w |})
    by reflexivity.
  cbv beta. rewrite (run_bind _ _ tt {| heap := heap w ++ [Pairs []]; trace := trace w |})
    by reflexivity.
  cbv beta. apply run_bind_raise.
  unfold setitem_row. cbn [heap trace]. rewrite lookup_snoc. reflexivity.
Qed.

End ConnectivityFacts.

Section WriteFacts.
Import Session.

Lemma emits_on_emits {A} (h : list ndarray) (c : M world A) (a : A) (evs : list event) :
  emits c a evs -> emits_on h c a evs.
Proof. intros H w <-. apply H. Qed.

Lemma emits_on_bind {A B} (h : list ndarray) (c : M world A) (k : A -> M world B) a b e1 e2 :
  emits_on h c a e1 -> emits_on h (k a) b e2 -> emits_on h (mbind c k) b (e1 ++ e2).
Proof.
  intros Hc Hk w Hw. unfold mbind. rewrite (Hc w Hw).
  rewrite (Hk {| heap := h; trace := trace w ++ e1 |} eq_refl). cbn.
  rewrite app_assoc. reflexivity.
Qed.

Lemma emits_on_mfor {A} (h : list ndarray) (xs : list A) (body : A -> M world unit)
    (f : A -> list event) :
  (forall x, In x xs -> emits_on h (body x) tt (f x)) ->
  emits_on h (mfor xs body) tt (flat_map f xs).
Proof.
  induction xs as [|x xs IH]; intros H; cbn [mfor flat_map].
  - apply emits_on_emits, emits_ret.
  - eapply emits_on_bind; [apply H; left; reflexivity |].
    apply IH. intros y Hy. apply H. right. exact Hy.
Qed.

Lemma emits_on_silent {A} (h : list ndarray) (c : M world A) (a : A) :
  (forall w, heap w = h -> c w = (Ok a, w)) -> emits_on h c a [].
Proof.
  intros H w Hw. rewrite (H w Hw). destruct w as [h' t]. cbn in *. subst h'.
  rewrite app_nil_r. reflexivity.
Qed.

Lemma emits_on_load_ints (h : list ndarray) (l : nat) (xs : list Z) :
  h !! l = Some (Ints xs) -> emits_on h (load_ints l) xs [].
Proof. intros Hl. apply emits_on_silent. intros w <-. apply run_load_ints, Hl. Qed.

Lemma emits_on_load_pairs (h : list ndarray) (l : nat) (rows : list (Z * Z)) :
  h !! l = Some (Pairs rows) -> emits_on h (load_pairs l) rows [].
Proof. intros Hl. apply emits_on_silent. intros w <-. apply run_load_pairs, Hl. Qed.

Lemma emits_on_getitem {A} (h : list ndarray) (xs : list A) (i : nat) (x : A) :
  xs !! i = Some x -> emits_on h (getitem xs i) x [].
Proof. intros Hx. apply emits_on_silent. intros w _. unfold getitem. rewrite Hx. reflexivity. Qed.

Lemma lookup_nth_lt {A} (l : list A) (i : nat) (d : A) :
  i < length l -> l !! i = Some (nth i l d).
Proof. intros Hi. destruct (nth_lookup_or_length l i d) as [H | H]; [exact H | lia]. Qed.

Lemma flat_map_singleton {A B} (f : A -> B) (l : list A) :
  flat_map (fun x => [f x]) l = map f l.
Proof. induction l as [|x l IH]; cbn; [reflexivity | rewrite IH; reflexivity]. Qed.

Lemma imap_seq_nth {A B} (f : nat -> A -> B) (d : A) (l : list A) :
  imap f l = map (fun i => f i (nth i l d)) (seq 0 (length l)).
Proof.
  revert f. induction l as [|x l IH]; intros f; cbn [imap length seq map]; [reflexivity |].
  f_equal. rewrite (IH (f ∘ S)), <- seq_shift, map_map. reflexivity.
Qed.

Lemma enumerate_from_imap {A} (i : nat) (l : list A) :
  enumerate_from i l = imap (fun j x => (i + j, x)) l.
Proof.
  revert i. induction l as [|x l IH]; intros i; cbn; [reflexivity |].
  rewrite Nat.add_0_r. f_equal. rewrite IH. apply imap_ext. intros j y _. cbn. f_equal. lia.
Qed.

Lemma flat_map_imap {A B C} (g : nat -> A -> B) (f : B -> list C) (l : list A) :
  flat_map f (imap g l) = concat (imap (fun i x => f (g i x)) l).
Proof.
  revert g. induction l as [|x l IH]; intros g; cbn; [reflexivity |].
  f_equal. apply (IH (g ∘ S)).
Qed.

Lemma concat_imap_singleton {A B} (g : nat -> A -> B) (l : list A) :
  concat (imap (fun i x => [g i x]) l) = imap g l.
Proof.
  revert g. induction l as [|x l IH]; intros g; cbn; [reflexivity |].
  f_equal. apply (IH (g ∘ S)).
Qed.

Lemma map_imap_gen {A B C} (f : B -> C) (g : nat -> A -> B) (l : list A) :
  map f (imap g l) = imap (fun i x => f (g i x)) l.
Proof.
  revert g. induction l as [|x l IH]; intros g; cbn; [reflexivity |].
  f_equal. apply (IH (g ∘ S)).
Qed.

(** The node lines of the file, as the loop of lines 50-51 writes them. *)
Lemma emits_node_lines (outfile : string) (boundary : list point) :
  emits (mfor (enumerate boundary) (fun '(i, p) =>
           emit (FileWrite outfile (NodeLine (i + 1) (fst p) (snd p)))))
        tt (map (FileWrite outfile) (avs_nodes boundary)).
Proof.
  eapply emits_eq.
  - apply emits_mfor with (f := fun ip : nat * point =>
      [FileWrite outfile (NodeLine (fst ip + 1) (fst (snd ip)) (snd (snd ip)))]).
    intros [i p]. apply emits_emit.
  - unfold enumerate, avs_nodes. rewrite enumerate_from_imap, flat_map_imap.
    rewrite concat_imap_singleton, map_imap_gen. reflexivity.
Qed.

(** The cell lines, as the loop of lines 53-55 writes them. *)
Lemma emits_cell_lines (h : list ndarray) (outfile : string) (c : nat) (rows : list (Z * Z))
    (material_id : option nat) (ids : option (list Z)) :
  h !! c = Some (Pairs rows) ->
  match material_id with
  | Some m => exists xs, ids = Some xs /\ h !! m = Some (Ints xs) /\ length rows <= length xs
  | None => ids = None
  end ->
  emits_on h
    (mfor (seq 0 (length rows)) (fun i =>
       mat_id <- match material_id with
                 | Some m => xs <- load_ints m ;; getitem xs i
                 | None => mret 1%Z
                 end ;;
       rows <- match Some c with
               | Some c => load_pairs c
               | None => mraise TypeError
               end ;;
       row <- getitem rows i ;;
       emit (FileWrite outfile (CellLine (i + 1) mat_id (fst row) (snd row)))))
    tt (map (FileWrite outfile) (avs_cells ids rows)).
Proof.
  intros Hc Hm.
  set (g := fun i : nat =>
              FileWrite outfile
                (CellLine (i + 1)
                   match ids with Some xs => nth i xs 1%Z | None => 1%Z end
                   (fst (nth i rows (0, 0)%Z)) (snd (nth i rows (0, 0)%Z)))).
  assert (E : map (FileWrite outfile) (avs_cells ids rows) = flat_map (fun i => [g i]) (seq 0 (length rows))).
  { unfold avs_cells. rewrite map_imap_gen, (imap_seq_nth _ (0, 0)%Z), flat_map_singleton.
    reflexivity. }
  rewrite E. apply emits_on_mfor. intros i Hi. apply in_seq in Hi.
  assert (Hrow : rows !! i = Some (nth i rows (0, 0)%Z)).
  { apply lookup_nth_lt. lia. }
  change [g i] with ([] ++ [] ++ [] ++ [g i]).
  eapply emits_on_bind with
    (a := match ids with Some xs => nth i xs 1%Z | None => 1%Z end).
  { destruct material_id as [m|].
    - destruct Hm as (xs & -> & Hxs & Hlen).
      change (@nil event) with (@nil event ++ []).
      eapply emits_on_bind; [apply emits_on_load_ints, Hxs |].
      apply emits_on_getitem. apply lookup_nth_lt. lia.
    - subst ids. apply emits_on_emits, emits_ret. }
  eapply emits_on_bind; [apply emits_on_load_pairs, Hc |].
  eapply emits_on_bind; [apply emits_on_getitem, Hrow |].
  apply emits_on_emits, emits_emit.
Qed.

End WriteFacts.

Section WriteFile.
Import Session.

Lemma emits_on_shape0_pairs (h : list ndarray) (l : nat) (rows : list (Z * Z)) :
  h !! l = Some (Pairs rows) -> emits_on h (shape0 l) (length rows) [].
Proof. intros Hl. apply emits_on_silent. intros w <-. apply run_shape0_pairs, Hl. Qed.

Lemma emits_on_shape0_ints (h : list ndarray) (l : nat) (xs : list Z) :
  h !! l = Some (Ints xs) -> emits_on h (shape0 l) (length xs) [].
Proof. intros Hl. apply emits_on_silent. intros w <-. apply run_shape0_ints, Hl. Qed.

Lemma writeLineAVS_emits (h : list ndarray) (boundary : list point) (outfile : string)
    (c : nat) (rows : list (Z * Z)) (material_id : option nat) (ids : option (list Z)) :
  h !! c = Some (Pairs rows) ->
  match material_id with
  | Some m => exists xs, ids = Some xs /\ h !! m = Some (Ints xs) /\ length rows <= length xs
  | None => ids = None
  end ->
  emits_on h (_writeLineAVS boundary outfile (Some c) material_id None None) tt
           (avs_file outfile boundary ids rows).
Proof.
  intros Hc Hm. unfold _writeLineAVS, avs_file.
  change (FileOpen outfile
          :: map (FileWrite outfile)
               (Header (length boundary) (length rows) 0 0
                :: avs_nodes boundary ++ avs_cells ids rows ++ [Blank]))
    with ([] ++ [] ++ [FileOpen outfile]
          ++ [FileWrite outfile (Header (length boundary) (length rows) 0 0)]
          ++ map (FileWrite outfile) (avs_nodes boundary ++ avs_cells ids rows ++ [Blank])).
  rewrite !map_app.
  eapply emits_on_bind; [apply emits_on_shape0_pairs, Hc |].
  eapply emits_on_bind with (a := tt).
  { destruct material_id as [m|].
    - destruct Hm as (xs & _ & Hxs & Hlen).
      change (@nil event) with (@nil event ++ []).
      eapply emits_on_bind; [apply emits_on_shape0_ints, Hxs |].
      destruct (Nat.leb_spec (length rows) (length xs)); [| lia].
      apply emits_on_emits, emits_ret.
    - apply emits_on_emits, emits_ret. }
  eapply emits_on_bind; [apply emits_on_emits, emits_emit |].
  eapply emits_on_bind; [apply emits_on_emits, emits_emit |].
  eapply emits_on_bind; [apply emits_on_emits, emits_node_lines |].
  eapply emits_on_bind; [apply emits_cell_lines; eassumption |].
  change (map (FileWrite outfile) [Blank]) with ([] ++ [] ++ [FileWrite outfile Blank]).
  eapply emits_on_bind; [apply emits_on_emits, emits_ret |].
  eapply emits_on_bind; [apply emits_on_emits, emits_ret |].
  apply emits_on_emits, emits_emit.
Qed.

Lemma writeLineAVS_points_emits (boundary : list point) (outfile : string) :
  emits (_writeLineAVS boundary outfile None None None None) tt
        (avs_file outfile boundary None []).
Proof.
  unfold _writeLineAVS, avs_file. cbn [length seq mfor avs_cells imap app].
  change (FileOpen outfile
          :: map (FileWrite outfile)
               (Header (length boundary) 0 0 0 :: avs_nodes boundary ++ [Blank]))
    with ([] ++ [] ++ [FileOpen outfile]
          ++ [FileWrite outfile (Header (length boundary) 0 0 0)]
          ++ map (FileWrite outfile) (avs_nodes boundary ++ [Blank])).
  rewrite map_app.
  eapply emits_bind; [apply emits_ret |].
  eapply emits_bind; [apply emits_ret |].
  eapply emits_bind; [apply emits_emit |].
  eapply emits_bind; [apply emits_emit |].
  eapply emits_bind; [apply emits_node_lines |].
  change (map (FileWrite outfile) [Blank]) with ([] ++ [] ++ [] ++ [FileWrite outfile Blank]).
  eapply emits_bind; [apply emits_ret |].
  eapply emits_bind; [apply emits_ret |].
  eapply emits_bind; [apply emits_ret |].
  apply emits_emit.
Qed.

Lemma run_writeLineAVS_lines (boundary : list point) (outfile : string) (c : nat)
    (rows : list (Z * Z)) (w : world) :
  heap w !! c = Some (Pairs rows) ->
  _writeLineAVS boundary outfile (Some c) None None None w
  = (Ok tt, {| heap := heap w; trace := trace w ++ avs_file outfile boundary None rows |}).
Proof.
  intros Hc.
  apply (writeLineAVS_emits (heap w) boundary outfile c rows None None Hc eq_refl w eq_refl).
Qed.

Lemma run_writeLineAVS_ids (boundary : list point) (outfile : string) (c m : nat)
    (rows : list (Z * Z)) (ids : list Z) (w : world) :
  heap w !! c = Some (Pairs rows) ->
  heap w !! m = Some (Ints ids) ->
  length rows <= length ids ->
  _writeLineAVS boundary outfile (Some c) (Some m) None None w
  = (Ok tt, {| heap := heap w;
               trace := trace w ++ avs_file outfile boundary (Some ids) rows |}).
Proof.
  intros Hc Hm Hlen.
  apply (writeLineAVS_emits (heap w) boundary outfile c rows (Some m) (Some ids) Hc).
  - exists ids. auto.
  - reflexivity.
Qed.

Lemma run_writeLineAVS_mismatch
    (boundary : list point) (outfile : string) (c m : nat) (rows : list (Z * Z))
    (ids : list Z) (node_atts cell_atts : option (list (string * nat))) (w : world) :
  heap w !! c = Some (Pairs rows) ->
  heap w !! m = Some (Ints ids) ->
  length ids < length rows ->
  _writeLineAVS boundary outfile (Some c) (Some m) node_atts cell_atts w
  = (Raise (AssertionError "Mismatch count between material ID and cells"), w).
Proof.
  intros Hc Hm Hlen. unfold _writeLineAVS.
  rewrite (run_bind _ _ (length rows) w) by (apply run_shape0_pairs, Hc). cbv beta.
  apply run_bind_raise.
  rewrite (run_bind _ _ (length ids) w) by (apply run_shape0_ints, Hm). cbv beta.
  destruct (Nat.leb_spec (length rows) (length ids)); [lia | reflexivity].
Qed.

(** X17.  Without attribute dicts [_writeLineAVS] leaves every array as it
    is and writes exactly: the header with the node and cell counts, one
    line per node numbered from 1, one line per connection numbered from
    1 that carries the material id of its row (1 when no ids are given),
    and a closing empty line.  Without connections the file has no cell
    line.  When the id array is shorter than the connections the call
    raises the mismatch assertion before the file is opened. *)
Theorem writeLineAVS_file :
  (forall (boundary : list point) (outfile : string) (c : nat) (rows : list (Z * Z))
          (w : world),
     heap w !! c = Some (Pairs rows) ->
     _writeLineAVS boundary outfile (Some c) None None None w
     = (Ok tt, {| heap := heap w;
                  trace := trace w ++ avs_file outfile boundary None rows |})) /\
  (forall (boundary : list point) (outfile : string) (c m : nat) (rows : list (Z * Z))
          (ids : list Z) (w : world),
     heap w !! c = Some (Pairs rows) ->
     heap w !! m = Some (Ints ids) ->
     length rows <= length ids ->
     _writeLineAVS boundary outfile (Some c) (Some m) None None w
     = (Ok tt, {| heap := heap w;
                  trace := trace w ++ avs_file outfile boundary (Some ids) rows |})) /\
  (forall (boundary : list point) (outfile : string) (w : world),
     _writeLineAVS boundary outfile None None None None w
     = (Ok tt, {| heap := heap w;
                  trace := trace w ++ avs_file outfile boundary None [] |})) /\
  (forall (boundary : list point) (outfile : string) (c m : nat) (rows : list (Z * Z))
          (ids : list Z) (node_atts cell_atts : option (list (string * nat))) (w : world),
     heap w !! c = Some (Pairs rows) ->
     heap w !! m = Some (Ints ids) ->
     length ids < length rows ->
     _writeLineAVS boundary outfile (Some c) (Some m) node_atts cell_atts w
     = (Raise (AssertionError "Mismatch count between material ID and cells"), w)).
Proof.
  split; [| split; [| split]].
  - apply run_writeLineAVS_lines.
  - apply run_writeLineAVS_ids.
  - intros boundary outfile w. apply writeLineAVS_points_emits.
  - apply run_writeLineAVS_mismatch.
Qed.

Lemma writeLineAVS_file_witness :
  _writeLineAVS triangle3 "line.inp" (Some 0%nat) (Some 1%nat) None None
    (World [Pairs [(1, 2); (2, 3)]%Z; Ints [7; 8]%Z] [])
  = (Ok tt,
     {| heap := [Pairs [(1, 2); (2, 3)]%Z; Ints [7; 8]%Z];
        trace := [FileOpen "line.inp";
                  FileWrite "line.inp" (Header 3 2 0 0);
                  FileWrite "line.inp" (NodeLine 1 0 0);
                  FileWrite "line.inp" (NodeLine 2 0 100);
                  FileWrite "line.inp" (NodeLine 3 100 0);
                  FileWrite "line.inp" (CellLine 1 7 1 2);
                  FileWrite "line.inp" (CellLine 2 8 2 3);
                  FileWrite "line.inp" Blank] |}) /\
  _writeLineAVS triangle3 "line.inp" (Some 0%nat) (Some 1%nat) None None
    (World [Pairs [(1, 2); (2, 3)]%Z; Ints [7]%Z] [])
  = (Raise (AssertionError "Mismatch count between material ID and cells"),
     World [Pairs [(1, 2); (2, 3)]%Z; Ints [7]%Z] []).
Proof.
  destruct writeLineAVS_file as (_ & Hids & _ & Hshort).
  split.
  - exact (Hids triangle3 "line.inp"%string 0%nat 1%nat [(1, 2); (2, 3)]%Z [7; 8]%Z
             (World [Pairs [(1, 2); (2, 3)]%Z; Ints [7; 8]%Z] [])
             eq_refl eq_refl ltac:(cbn; lia)).
  - exact (Hshort triangle3 "line.inp"%string 0%nat 1%nat [(1, 2); (2, 3)]%Z [7]%Z None None
             (World [Pairs [(1, 2); (2, 3)]%Z; Ints [7]%Z] [])
             eq_refl eq_refl ltac:(cbn; lia)).
Defined.

End WriteFile.



Section BuilderFacts.
Import Session.

(** X18.  On a non-empty boundary, without a connectivity of the caller's,
    [buildRefinedTriplane] adds one array, the open polyline over the
    boundary, and does exactly three things in this order: it writes
    poly_1.inp with the boundary and that polyline, it writes
    intersections_1.inp with the feature points and no cell, and it runs
    the control script once.  It returns nothing and removes no file. *)
Theorem buildRefinedTriplane_files_then_script
    (np_sqrt np_cos np_arcsin : Q -> Q) (boundary feature : list point) (outfile : string)
    (h delta slope refine_dist : Q) (w : world) :
  boundary <> [] ->
  buildRefinedTriplane np_sqrt np_cos np_arcsin boundary feature outfile h None
    delta slope refine_dist w
  = (Ok tt,
     {| heap := heap w ++ [Pairs (polyline_rows (length boundary) false)];
        trace := trace w
                 ++ avs_file "poly_1.inp" boundary None (polyline_rows (length boundary) false)
                 ++ avs_file "intersections_1.inp" feature None []
                 ++ [CallLaGriT (refined_cmd np_sqrt np_cos np_arcsin outfile h delta slope
                                   refine_dist)] |}).
Proof.
  intros Hne. unfold buildRefinedTriplane.
  rewrite (run_bind _ _ _ _ _ (run_generateLineConnectivity_rows boundary false w Hne)). cbv beta.
  rewrite (run_bind _ _ tt _ _
             (run_writeLineAVS_lines boundary "poly_1.inp" (length (heap w))
                    (polyline_rows (length boundary) false)
                    {| heap := heap w ++ [Pairs (polyline_rows (length boundary) false)];
                       trace := trace w |}
                    (lookup_snoc _ _))).
  cbv beta. cbn [heap trace].
  rewrite (run_bind _ _ tt _ _ (writeLineAVS_points_emits feature "intersections_1.inp" _)).
  cbv beta. unfold emit, mmodify. cbn [heap trace]. rewrite <- !app_assoc. reflexivity.
Qed.

Lemma buildRefinedTriplane_files_then_script_witness :
  buildRefinedTriplane (fun q => q) (fun q => q) (fun q => q) triangle3 [(10, 10)%Q]
    "tri.inp" 40 None (3 # 4) 2 (1 # 2) (World [] [])
  = (Ok tt,
     {| heap := [Pairs [(1, 2); (2, 3)]%Z];
        trace := avs_file "poly_1.inp" triangle3 None [(1, 2); (2, 3)]%Z
                 ++ avs_file "intersections_1.inp" [(10, 10)%Q] None []
                 ++ [CallLaGriT (refined_cmd (fun q => q) (fun q => q) (fun q => q)
                                   "tri.inp" 40 (3 # 4) 2 (1 # 2))] |}).
Proof.
  exact (buildRefinedTriplane_files_then_script (fun q => q) (fun q => q) (fun q => q)
           triangle3 [(10, 10)%Q] "tri.inp"%string 40 (3 # 4) 2 (1 # 2) (World [] [])
           ltac:(discriminate)).
Defined.

(** X19.  An empty boundary is rejected.  [generateLineConnectivity]
    raises the ValueError of a negative dimension for an open line, with
    nothing allocated; for a closed line it allocates an array without
    rows and then raises IndexError at the closing edge.  Both triplane
    builders, which ask for an open line, raise that ValueError before
    any file is written and before the kernel is called. *)
Theorem empty_boundary_raises
    (np_sqrt np_cos np_arcsin : Q -> Q) (feature : list point) (outfile : string)
    (outfile' : option string) (counterclockwise : bool)
    (h delta slope refine_dist min_edge : Q) (w : world) :
  generateLineConnectivity [] false w
  = (Raise (ValueError "negative dimensions are not allowed"), w) /\
  generateLineConnectivity [] true w
  = (Raise IndexError, {| heap := heap w ++ [Pairs []]; trace := trace w |}) /\
  buildUniformTriplane [] outfile' counterclockwise None min_edge w
  = (Raise (ValueError "negative dimensions are not allowed"), w) /\
  buildRefinedTriplane np_sqrt np_cos np_arcsin [] feature outfile h None
    delta slope refine_dist w
  = (Raise (ValueError "negative dimensions are not allowed"), w).
Proof.
  split; [apply generateLineConnectivity_empty_run |].
  split; [apply generateLineConnectivity_empty_run |].
  split.
  - unfold buildUniformTriplane. apply run_bind_raise.
    apply generateLineConnectivity_empty_run.
  - unfold buildRefinedTriplane. apply run_bind_raise. apply run_bind_raise.
    apply generateLineConnectivity_empty_run.
Qed.

Ltac uniform_calls :=
  eexists; split;
  [ unfold refine_pass, call, call_as; emits_go
  | split; [reflexivity | split; [reflexivity |]];
    cbn [In app flat_map map]; repeat first [left; reflexivity | right] ].

(** X20.  On a non-empty boundary, without a connectivity of the caller's,
    [buildUniformTriplane] returns the mesh object motri, adds one array
    (the open polyline), writes poly_1.inp with the boundary and that
    polyline before anything else, and after the file only calls the
    kernel.  Among these calls the mesh is dumped exactly once, to
    [outfile], when [outfile] is a non-empty string, and never otherwise;
    the triangulation is asked for in the order the caller chose. *)
Theorem buildUniformTriplane_dumps_when_asked
    (boundary : list point) (outfile : option string) (counterclockwise : bool)
    (min_edge : Q) (w : world) :
  boundary <> [] ->
  exists calls,
    buildUniformTriplane boundary outfile counterclockwise None min_edge w
    = (Ok "motri"%string,
       {| heap := heap w ++ [Pairs (polyline_rows (length boundary) false)];
          trace := trace w
                   ++ avs_file "poly_1.inp" boundary None
                        (polyline_rows (length boundary) false)
                   ++ calls |}) /\
    forallb is_kernel_call calls = true /\
    List.filter is_dump calls
    = match outfile with
      | Some f => if String.eqb f EmptyString then [] else [Call None "motri" "dump" [AStr f]]
      | None => []
      end /\
    In (Call None "motri" "triangulate"
          [AKw "order" (AStr (if counterclockwise then "counterclockwise" else "clockwise"))])
       calls.
Proof.
  intros Hne. unfold buildUniformTriplane.
  rewrite (run_bind _ _ _ _ _ (run_generateLineConnectivity_rows boundary false w Hne)). cbv beta.
  rewrite (run_bind _ _ tt _ _
             (run_writeLineAVS_lines boundary "poly_1.inp" (length (heap w))
                    (polyline_rows (length boundary) false)
                    {| heap := heap w ++ [Pairs (polyline_rows (length boundary) false)];
                       trace := trace w |}
                    (lookup_snoc _ _))).
  cbv beta. cbn [heap trace].
  set (w2 := {| heap := _; trace := _ |}).
  destruct counterclockwise;
    (destruct outfile as [f|]; [destruct (String.eqb f EmptyString) eqn:Ef |]).
  all: match goal with
       | |- exists calls, ?c _ = _ /\ _ /\ _ = ?d /\ In ?e _ =>
           assert (Hem : exists calls,
                      emits c "motri" calls /\
                      forallb is_kernel_call calls = true /\
                      List.filter is_dump calls = d /\ In e calls) by uniform_calls
       end.
  all: destruct Hem as (calls & Hem & Hk & Hd & Hin); exists calls;
    rewrite (Hem w2); unfold w2; cbn [heap trace]; rewrite <- !app_assoc;
    (split; [reflexivity | split; [exact Hk | split; [exact Hd | exact Hin]]]).
Qed.

Lemma buildUniformTriplane_dumps_when_asked_witness :
  exists calls,
    buildUniformTriplane triangle3 (Some "tri.inp"%string) true None 30 (World [] [])
    = (Ok "motri"%string,
       {| heap := [Pairs [(1, 2); (2, 3)]%Z];
          trace := avs_file "poly_1.inp" triangle3 None [(1, 2); (2, 3)]%Z ++ calls |}) /\
    forallb is_kernel_call calls = true /\
    List.filter is_dump calls = [Call None "motri" "dump" [AStr "tri.inp"]] /\
    In (Call None "motri" "triangulate" [AKw "order" (AStr "counterclockwise")]) calls.
Proof.
  exact (buildUniformTriplane_dumps_when_asked triangle3 (Some "tri.inp"%string) true 30
           (World [] []) ltac:(discriminate)).
Defined.
End BuilderFacts.

(** ** The run of [generateComplexFacesets] *)

Section ClassifierFacts.
Import Session.

Lemma forallb_flat_map {A B} (P : B -> bool) (f : A -> list B) (l : list A) :
  (forall x, forallb P (f x) = true) -> forallb P (flat_map f l) = true.
Proof.
  intros H. induction l as [|x l IH]; cbn; [reflexivity |].
  rewrite forallb_app, H, IH. reflexivity.
Qed.

Lemma write_faceset_calls :
  exists f : nat -> list event,
    forall i, emits (write_faceset i) (faceset_file i) (f i) /\
              forallb is_kernel_call (f i) = true.
Proof.
  eexists (fun i => _). intros i.
  split; [unfold write_faceset, call, call_as; emits_go | reflexivity].
Qed.

Lemma surface_sides_calls (mesh_file boundary_file : string) (has_top : bool) :
  exists evs,
    emits (surface_sides mesh_file boundary_file has_top) tt evs /\
    forallb is_kernel_call evs = true.
Proof.
  destruct has_top; eexists;
    (split; [unfold surface_sides, call, call_as; emits_go | reflexivity]).
Qed.

(** X21.  Given a bare array of boundary ids that become 1, ..., k once
    their least value is taken off, one id at least per boundary point,
    and a non-empty boundary, [generateComplexFacesets] returns and
    leaves the caller's array as it is; it adds a copy, the two shifted
    arrays and the closed polyline over the boundary.  Before anything is
    sent to the kernel it writes _boundary_line_colors.inp: the boundary
    nodes, and one cell per edge of the closed polyline that carries the
    shifted id of the edge's first node.  All that follows is kernel
    calls. *)
Theorem generateComplexFacesets_writes_boundary_file_first
    (outfile mesh_file : string) (boundary : list point) (a : nat) (xs : list Z)
    (least : Z) (w : world) :
  heap w !! a = Some (Ints xs) ->
  np_min xs = Ok least ->
  (exists k, ids_are_1_to k (shifted_ids least xs)) ->
  boundary <> [] ->
  length boundary <= length xs ->
  exists calls,
    generateComplexFacesets outfile mesh_file boundary (FsArray a) w
    = (Ok tt,
       {| heap := heap w ++ [Ints xs; Ints (map (fun x => x - least)%Z xs);
                             Ints (shifted_ids least xs);
                             Pairs (polyline_rows (length boundary) true)];
          trace := trace w
                   ++ avs_file "_boundary_line_colors.inp" boundary
                        (Some (shifted_ids least xs))
                        (polyline_rows (length boundary) true)
                   ++ calls |}) /\
    forallb is_kernel_call calls = true.
Proof.
  intros Ha Hmin Hseq Hne Hlen.
  apply sequential_check in Hseq.
  set (h3 := heap w ++ [Ints xs; Ints (map (fun x => x - least)%Z xs);
                        Ints (shifted_ids least xs)]).
  set (rows := polyline_rows (length boundary) true).
  assert (Hids : (h3 ++ [Pairs rows]) !! (length (heap w) + 2)%nat
                 = Some (Ints (shifted_ids least xs))).
  { apply lookup_app_l_Some. unfold h3. rewrite lookup_app_r by lia.
    replace (length (heap w) + 2 - length (heap w))%nat with 2%nat by lia. reflexivity. }
  destruct (surface_sides_calls mesh_file "_boundary_line_colors.inp" false)
    as (evsS & HS & HkS).
  destruct write_faceset_calls as (f & Hf).
  pose proof (write_facesets_emits f (fun i => proj1 (Hf i))) as HF.
  exists (evsS ++ flat_map f (seq 1 (length (np_unique (shifted_ids least xs)) + 2))
          ++ [exodus_dump outfile
                (map faceset_file (seq 1 (length (np_unique (shifted_ids least xs)) + 2)))]).
  split.
  - unfold generateComplexFacesets. unfold mbind at 1. unfold mret at 1.
    unfold classify_faces.
    rewrite (run_bind _ _ (length (heap w) + 2)%nat {| heap := h3; trace := trace w |}).
    2:{ rewrite (run_normalized_attributes a xs least w Ha Hmin).
        fold (shifted_ids least xs). rewrite Hseq. reflexivity. }
    cbv beta zeta.
    rewrite (run_bind _ _ _ _ _
               (run_generateLineConnectivity_rows boundary true
                  {| heap := h3; trace := trace w |} Hne)).
    cbv beta. cbn [heap trace]. fold rows.
    rewrite (run_bind _ _ tt _ _
               (run_writeLineAVS_ids boundary "_boundary_line_colors.inp"
                      (length h3) (length (heap w) + 2)%nat rows (shifted_ids least xs)
                      {| heap := h3 ++ [Pairs rows]; trace := trace w |}
                      (lookup_snoc _ _) Hids
                      ltac:(unfold rows, polyline_rows, shifted_ids;
                            rewrite length_app, !length_map, length_seq; cbn [length];
                            destruct boundary; [congruence | cbn [length] in *; lia]))).
    cbv beta. cbn [heap trace].
    rewrite (emits_run _ _ tt evsS _ HS). cbv beta. cbn [heap trace].
    rewrite (run_bind _ _ (shifted_ids least xs) _ _
               (run_load_ints (length (heap w) + 2)%nat (shifted_ids least xs)
                  {| heap := h3 ++ [Pairs rows];
                     trace := (trace w ++ avs_file "_boundary_line_colors.inp" boundary
                                            (Some (shifted_ids least xs)) rows) ++ evsS |}
                  Hids)).
    cbv beta.
    rewrite (run_bind _ _ (length (np_unique (shifted_ids least xs)) + 2)%nat
               {| heap := h3 ++ [Pairs rows];
                  trace := (trace w ++ avs_file "_boundary_line_colors.inp" boundary
                                         (Some (shifted_ids least xs)) rows) ++ evsS |})
      by reflexivity.
    cbv beta. rewrite (emits_run _ _ _ _ _ (HF _ _)). cbv beta. cbn [app heap trace].
    unfold call, emit, mmodify, exodus_dump. cbn [heap trace].
    unfold h3. rewrite <- !app_assoc. reflexivity.
  - rewrite !forallb_app, HkS. rewrite forallb_flat_map by (intros i; apply Hf).
    reflexivity.
Qed.

Lemma generateComplexFacesets_writes_boundary_file_first_witness :
  exists calls,
    generateComplexFacesets "mesh.exo" "stacked.inp" triangle3 (FsArray 0)
      (World [Ints [5; 7; 6]%Z] [])
    = (Ok tt,
       {| heap := [Ints [5; 7; 6]%Z]
                  ++ [Ints [5; 7; 6]%Z; Ints (map (fun x => x - 5)%Z [5; 7; 6]%Z);
                      Ints (shifted_ids 5 [5; 7; 6]%Z); Pairs (polyline_rows 3 true)];
          trace := [] ++ avs_file "_boundary_line_colors.inp" triangle3
                           (Some (shifted_ids 5 [5; 7; 6]%Z)) (polyline_rows 3 true)
                   ++ calls |}) /\
    forallb is_kernel_call calls = true.
Proof.
  apply (generateComplexFacesets_writes_boundary_file_first "mesh.exo" "stacked.inp"
           triangle3 0%nat [5; 7; 6]%Z 5%Z (World [Ints [5; 7; 6]%Z] [])).
  - reflexivity.
  - reflexivity.
  - exists 3%Z. intros v. cbn. lia.
  - discriminate.
  - cbn. lia.
Defined.

(** X22.  Four calls of [generateComplexFacesets] fail before any file is
    written and before the kernel is called: a dict without the key
    'all' raises KeyError with nothing done; an id array without entries
    raises the ValueError of a minimum over nothing; and, for ids that
    pass the sequential check, an empty boundary raises IndexError and a
    boundary with more points than ids raises the mismatch assertion of
    [_writeLineAVS]. *)
Theorem generateComplexFacesets_rejects_before_effects
    (outfile mesh_file : string) (boundary : list point) (w : world) :
  (forall d : gmap string nat,
     d !! "all"%string = None ->
     generateComplexFacesets outfile mesh_file boundary (FsDict d) w
     = (Raise (KeyError "all"), w)) /\
  (forall (facesets : facesets_arg) (a : nat),
     facesets_all facesets = Some a ->
     heap w !! a = Some (Ints []) ->
     let r := generateComplexFacesets outfile mesh_file boundary facesets w in
     fst r = Raise (ValueError
                      "zero-size array to reduction operation minimum which has no identity") /\
     trace (snd r) = trace w) /\
  (forall (facesets : facesets_arg) (a : nat) (xs : list Z) (least : Z),
     facesets_all facesets = Some a ->
     heap w !! a = Some (Ints xs) ->
     np_min xs = Ok least ->
     (exists k, ids_are_1_to k (shifted_ids least xs)) ->
     let r := generateComplexFacesets outfile mesh_file boundary facesets w in
     (boundary = [] -> fst r = Raise IndexError /\ trace (snd r) = trace w) /\
     (length xs < length boundary ->
      fst r = Raise (AssertionError "Mismatch count between material ID and cells") /\
      trace (snd r) = trace w)).
Proof.
  split; [| split].
  - intros d Hd. unfold generateComplexFacesets, mbind. rewrite Hd. reflexivity.
  - intros facesets a Hall Ha. cbv zeta.
    destruct (run_generateComplexFacesets outfile mesh_file boundary facesets a w Hall)
      as (cell_atts & -> & _).
    unfold classify_faces, normalized_attributes, np_deepcopy.
    rewrite (run_bind_raise _ _
               (ValueError
                  "zero-size array to reduction operation minimum which has no identity")
               {| heap := heap w ++ [Ints []]; trace := trace w |});
      [split; reflexivity |].
    rewrite (run_bind _ _ (length (heap w))
               {| heap := heap w ++ [Ints []]; trace := trace w |}).
    2:{ rewrite (run_bind _ _ [] w) by (apply run_load_ints, Ha). reflexivity. }
    cbv beta. apply run_bind_raise.
    rewrite (run_bind _ _ [] {| heap := heap w ++ [Ints []]; trace := trace w |}).
    + reflexivity.
    + apply run_load_ints. cbn. apply lookup_app_l_Some, Ha.
  - intros facesets a xs least Hall Ha Hmin Hseq. cbv zeta.
    apply sequential_check in Hseq.
    destruct (run_generateComplexFacesets outfile mesh_file boundary facesets a w Hall)
      as (cell_atts & -> & _).
    set (h3 := heap w ++ [Ints xs; Ints (map (fun x => x - least)%Z xs);
                          Ints (shifted_ids least xs)]).
    assert (Hnorm : normalized_attributes a w
                    = (Ok (length (heap w) + 2)%nat, {| heap := h3; trace := trace w |})).
    { rewrite (run_normalized_attributes a xs least w Ha Hmin).
      fold (shifted_ids least xs). rewrite Hseq. reflexivity. }
    unfold classify_faces. rewrite (run_bind _ _ _ _ _ Hnorm). cbv beta zeta.
    split.
    + intros ->.
      rewrite (run_bind_raise _ _ IndexError {| heap := h3 ++ [Pairs []]; trace := trace w |});
        [split; reflexivity |].
      apply (proj2 (generateLineConnectivity_empty_run {| heap := h3; trace := trace w |})).
    + intros Hlen.
      assert (Hne : boundary <> []) by (intros ->; cbn in Hlen; lia).
      rewrite (run_bind _ _ _ _ _
                 (run_generateLineConnectivity_rows boundary true
                    {| heap := h3; trace := trace w |} Hne)).
      cbv beta. cbn [heap trace].
      rewrite (run_bind_raise _ _
                 (AssertionError "Mismatch count between material ID and cells")
                 {| heap := h3 ++ [Pairs (polyline_rows (length boundary) true)];
                    trace := trace w |});
        [split; reflexivity |].
      apply (run_writeLineAVS_mismatch boundary "_boundary_line_colors.inp" (length h3)
               (length (heap w) + 2)%nat (polyline_rows (length boundary) true)
               (shifted_ids least xs)).
      * apply lookup_snoc.
      * cbn [heap]. apply lookup_app_l_Some. unfold h3. rewrite lookup_app_r by lia.
        replace (length (heap w) + 2 - length (heap w))%nat with 2%nat by lia. reflexivity.
      * unfold polyline_rows, shifted_ids.
        rewrite length_app, !length_map, length_seq. cbn [length]. lia.
Qed.

Lemma generateComplexFacesets_rejects_before_effects_witness :
  generateComplexFacesets "mesh.exo" "stacked.inp" triangle3
    (FsDict {[ "top"%string := 0%nat ]}) (World [Ints [5; 7; 6]%Z] [])
  = (Raise (KeyError "all"), World [Ints [5; 7; 6]%Z] []) /\
  (let r := generateComplexFacesets "mesh.exo" "stacked.inp" triangle3 (FsArray 0)
              (World [Ints [5; 6]%Z] []) in
   fst r = Raise (AssertionError "Mismatch count between material ID and cells") /\
   trace (snd r) = []).
Proof.
  destruct (generateComplexFacesets_rejects_before_effects "mesh.exo" "stacked.inp" triangle3
              (World [Ints [5; 7; 6]%Z] [])) as (Hkey & _ & _).
  destruct (generateComplexFacesets_rejects_before_effects "mesh.exo" "stacked.inp" triangle3
              (World [Ints [5; 6]%Z] [])) as (_ & _ & Hshort).
  split.
  - apply Hkey. reflexivity.
  - apply (Hshort (FsArray 0) 0%nat [5; 6]%Z 5%Z).
    + reflexivity.
    + reflexivity.
    + reflexivity.
    + exists 2%Z. intros v. cbn. lia.
    + cbn. lia.
Defined.

End ClassifierFacts.

Section NeverRemoved.
Import Session.

Lemma grown_by_alloc P t0 a : preserves (grown_by P t0) (alloc a).
Proof. apply grown_by_same_trace. intros. apply trace_alloc. Qed.

Ltac grown_go :=
  repeat lazymatch goal with
    | |- preserves _ (mbind _ _) => apply preserves_bind; [| intros ?]
    | |- preserves _ (mret _) => apply preserves_ret
    | |- preserves _ (mraise _) => apply preserves_raise
    | |- preserves _ (mlift _) => apply preserves_lift
    | |- preserves _ (mfor _ _) => apply preserves_mfor; intros ? _
    | |- preserves _ (emit _) => apply grown_by_emit; reflexivity
    | |- preserves _ (load _) => apply grown_by_same_trace; intros; apply trace_load
    | |- preserves _ (load_ints _) => apply grown_by_same_trace; intros; apply trace_load_ints
    | |- preserves _ (load_pairs _) => apply grown_by_same_trace; intros; apply trace_load_pairs
    | |- preserves _ (shape0 _) => apply grown_by_same_trace; intros; apply trace_shape0
    | |- preserves _ (getitem _ _) => apply grown_by_same_trace; intros; apply trace_getitem
    | |- preserves _ (massert _ _) => apply grown_by_same_trace; intros; apply trace_massert
    | |- preserves _ (alloc _) => apply grown_by_alloc
    | |- preserves _ (generateLineConnectivity _ _) => apply grown_by_generateLineConnectivity
    | |- preserves _ (att_values _ _) => apply grown_by_att_values
    | |- preserves _ (match ?x with _ => _ end) => destruct x
    end.

Lemma not_remove_writeLineAVS t0 boundary outfile connections material_id node_atts cell_atts :
  preserves (grown_by (fun e => negb (is_remove e)) t0)
    (_writeLineAVS boundary outfile connections material_id node_atts cell_atts).
Proof. unfold _writeLineAVS, write_atts, check_atts. grown_go. Qed.

Lemma not_remove_write_facesets t0 ids acc :
  preserves (grown_by (fun e => negb (is_remove e)) t0) (write_facesets ids acc).
Proof.
  revert acc. induction ids as [|i ids IH]; intros acc; cbn [write_facesets].
  - apply preserves_ret.
  - apply preserves_bind; [| intros ?; apply IH].
    unfold write_faceset, call, call_as. grown_go.
Qed.

Lemma grown_by_start (P : event -> bool) (w : world) : grown_by P (trace w) w.
Proof. exists []. rewrite app_nil_r. auto. Qed.

(** X23.  [generateComplexFacesets], [buildUniformTriplane] and
    [buildRefinedTriplane] never remove a file, however they end: the
    line files they write stay on disk, and the clean-up list that
    [generateComplexFacesets] collects is not used. *)
Theorem scratch_files_are_never_removed :
  (forall (outfile mesh_file : string) (boundary : list point) (facesets : facesets_arg)
          (w : world),
     grown_by (fun e => negb (is_remove e)) (trace w)
       (snd (generateComplexFacesets outfile mesh_file boundary facesets w))) /\
  (forall (boundary : list point) (outfile : option string) (counterclockwise : bool)
          (connectivity : option nat) (min_edge : Q) (w : world),
     grown_by (fun e => negb (is_remove e)) (trace w)
       (snd (buildUniformTriplane boundary outfile counterclockwise connectivity min_edge w))) /\
  (forall (np_sqrt np_cos np_arcsin : Q -> Q) (boundary feature : list point)
          (outfile : string) (h : Q) (connectivity : option nat)
          (delta slope refine_dist : Q) (w : world),
     grown_by (fun e => negb (is_remove e)) (trace w)
       (snd (buildRefinedTriplane np_sqrt np_cos np_arcsin boundary feature outfile h
               connectivity delta slope refine_dist w))).
Proof.
  split; [| split].
  - intros outfile mesh_file boundary facesets w.
    assert (H : preserves (grown_by (fun e => negb (is_remove e)) (trace w))
                  (generateComplexFacesets outfile mesh_file boundary facesets)).
    { unfold generateComplexFacesets, classify_faces, normalized_attributes, surface_sides,
        top_split, np_deepcopy, np_sub_scalar, np_add_scalar, call, call_as.
      repeat lazymatch goal with
        | |- preserves _ (_writeLineAVS _ _ _ _ _ _) => apply not_remove_writeLineAVS
        | |- preserves _ (write_facesets _ _) => apply not_remove_write_facesets
        | _ => progress grown_go
        end. }
    apply H, grown_by_start.
  - intros boundary outfile counterclockwise connectivity min_edge w.
    assert (H : preserves (grown_by (fun e => negb (is_remove e)) (trace w))
                  (buildUniformTriplane boundary outfile counterclockwise connectivity
                     min_edge)).
    { unfold buildUniformTriplane, refine_pass, call, call_as.
      repeat lazymatch goal with
        | |- preserves _ (_writeLineAVS _ _ _ _ _ _) => apply not_remove_writeLineAVS
        | _ => progress grown_go
        end. }
    apply H, grown_by_start.
  - intros np_sqrt np_cos np_arcsin boundary feature outfile h connectivity delta slope
      refine_dist w.
    assert (H : preserves (grown_by (fun e => negb (is_remove e)) (trace w))
                  (buildRefinedTriplane np_sqrt np_cos np_arcsin boundary feature outfile h
                     connectivity delta slope refine_dist)).
    { unfold buildRefinedTriplane.
      repeat lazymatch goal with
        | |- preserves _ (_writeLineAVS _ _ _ _ _ _) => apply not_remove_writeLineAVS
        | _ => progress grown_go
        end. }
    apply H, grown_by_start.
Qed.

End NeverRemoved.

(** ** Attribute blocks *)

Section AttributeBlocks.
Import Session.
Variable h : list ndarray.

Lemma emits_on_assert (b : bool) (msg : string) : b = true -> emits_on h (massert b msg) tt [].
Proof. intros ->. apply emits_on_emits, emits_ret. Qed.

Lemma check_atts_emits (d : list (string * nat)) (vals : list (string * list Z))
    (count : nat) (msg : string -> string) :
  Forall2 (fun kl kv => fst kv = fst kl /\ h !! snd kl = Some (Ints (snd kv))) d vals ->
  Forall (fun kv => count <= length (snd kv)) vals ->
  emits_on h (check_atts d count msg) tt [].
Proof.
  unfold check_atts. intros H. induction H as [|[k l] [k' xs] d vals [_ Hl] _ IH];
    intros Hlen; cbn [mfor].
  - apply emits_on_emits, emits_ret.
  - inversion Hlen as [|? ? Hx Hrest]; subst. cbn [fst snd] in *.
    change (@nil event) with (@nil event ++ []).
    eapply emits_on_bind; [| apply IH, Hrest].
    change (@nil event) with (@nil event ++ []).
    eapply emits_on_bind; [apply emits_on_shape0_ints, Hl |].
    apply emits_on_assert. apply Nat.leb_le. exact Hx.
Qed.

Lemma att_values_emits (d : list (string * nat)) (vals : list (string * list Z)) (i : nat) :
  Forall2 (fun kl kv => fst kv = fst kl /\ h !! snd kl = Some (Ints (snd kv))) d vals ->
  Forall (fun kv => i < length (snd kv)) vals ->
  emits_on h (att_values d i) (map (fun kv => nth i (snd kv) 0%Z) vals) [].
Proof.
  intros H. induction H as [|[k l] [k' xs] d vals [_ Hl] _ IH]; intros Hlen;
    cbn [att_values map].
  - apply emits_on_emits, emits_ret.
  - inversion Hlen as [|? ? Hx Hrest]; subst. cbn [fst snd] in *.
    change (@nil event) with (@nil event ++ [] ++ [] ++ []).
    eapply emits_on_bind; [apply emits_on_load_ints, Hl |].
    eapply emits_on_bind; [apply emits_on_getitem, lookup_nth_lt, Hx |].
    eapply emits_on_bind; [apply IH, Hrest |].
    apply emits_on_emits, emits_ret.
Qed.

Lemma att_keys (d : list (string * nat)) (vals : list (string * list Z)) :
  Forall2 (fun kl kv => fst kv = fst kl /\ h !! snd kl = Some (Ints (snd kv))) d vals ->
  map (fun '(key, _) => key +:+ ", integer") d = map (fun kv => fst kv +:+ ", integer") vals
  /\ length d = length vals.
Proof.
  induction 1 as [|[k l] [k' xs] d vals [Hk _] _ [IH1 IH2]]; cbn in *; [auto |].
  subst. rewrite IH1, IH2. auto.
Qed.

Lemma write_atts_emits (outfile : string) (d : list (string * nat))
    (vals : list (string * list Z)) (count : nat) (msg : string -> string) :
  d <> [] ->
  Forall2 (fun kl kv => fst kv = fst kl /\ h !! snd kl = Some (Ints (snd kv))) d vals ->
  Forall (fun kv => count <= length (snd kv)) vals ->
  emits_on h (write_atts outfile d count msg) tt
           (map (FileWrite outfile) (avs_att_block vals count)).
Proof.
  intros Hne H Hlen. destruct (att_keys d vals H) as [Hkeys Hn].
  unfold write_atts, avs_att_block.
  destruct vals as [|kv vals']; [destruct d; [congruence | discriminate] |].
  set (vals := kv :: vals') in *.
  cbn [map]. rewrite Hkeys, Hn.
  change (FileWrite outfile (AttCount (length vals))
          :: FileWrite outfile (AttTypes (map (fun kv => fst kv +:+ ", integer") vals))
          :: map (FileWrite outfile)
               (map (fun i => AttRow (i + 1) (map (fun kv => nth i (snd kv) 0%Z) vals))
                    (seq 0 count)))
    with ([] ++ [FileWrite outfile (AttCount (length vals))]
          ++ [FileWrite outfile (AttTypes (map (fun kv => fst kv +:+ ", integer") vals))]
          ++ map (FileWrite outfile)
               (map (fun i => AttRow (i + 1) (map (fun kv => nth i (snd kv) 0%Z) vals))
                    (seq 0 count))).
  eapply emits_on_bind; [apply (check_atts_emits d vals); assumption |].
  eapply emits_on_bind; [apply emits_on_emits, emits_emit |].
  eapply emits_on_bind; [apply emits_on_emits, emits_emit |].
  rewrite map_map, <- flat_map_singleton.
  apply emits_on_mfor. intros i Hi. apply in_seq in Hi.
  change [FileWrite outfile (AttRow (i + 1) (map (fun kv => nth i (snd kv) 0%Z) vals))]
    with ([] ++ [FileWrite outfile (AttRow (i + 1) (map (fun kv => nth i (snd kv) 0%Z) vals))]).
  eapply emits_on_bind.
  - apply (att_values_emits d vals i H).
    eapply Forall_impl; [exact Hlen |]. cbn. intros; lia.
  - apply emits_on_emits, emits_emit.
Qed.

Lemma atts_block_emits (outfile : string) (atts : option (list (string * nat)))
    (vals : list (string * list Z)) (count : nat) (msg : string -> string) :
  atts_hold h atts vals ->
  Forall (fun kv => count <= length (snd kv)) vals ->
  emits_on h (match atts with
              | Some ((_ :: _) as d) => write_atts outfile d count msg
              | _ => mret tt
              end) tt
           (map (FileWrite outfile) (avs_att_block vals count)).
Proof.
  intros Hh Hlen. destruct atts as [[|kl rest]|]; cbn in Hh.
  - inversion Hh; subst. apply emits_on_emits, emits_ret.
  - apply (write_atts_emits outfile (kl :: rest) vals count msg); [discriminate | exact Hh | exact Hlen].
  - subst vals. apply emits_on_emits, emits_ret.
Qed.

End AttributeBlocks.

Section AttributeFile.
Import Session.

Lemma atts_length (h : list ndarray) (atts : option (list (string * nat)))
    (vals : list (string * list Z)) :
  atts_hold h atts vals ->
  match atts with Some d => length d | None => 0 end = length vals.
Proof.
  destruct atts as [d|]; cbn; [| intros ->; reflexivity].
  intros H. apply (Forall2_length _ _ _ H).
Qed.

Lemma run_writeLineAVS_atts
    (boundary : list point) (outfile : string) (c m : nat) (rows : list (Z * Z))
    (ids : list Z) (node_atts cell_atts : option (list (string * nat)))
    (node_vals cell_vals : list (string * list Z)) (w : world) :
  heap w !! c = Some (Pairs rows) ->
  heap w !! m = Some (Ints ids) ->
  length rows <= length ids ->
  atts_hold (heap w) node_atts node_vals ->
  atts_hold (heap w) cell_atts cell_vals ->
  Forall (fun kv => length boundary <= length (snd kv)) node_vals ->
  Forall (fun kv => length rows <= length (snd kv)) cell_vals ->
  _writeLineAVS boundary outfile (Some c) (Some m) node_atts cell_atts w
  = (Ok tt,
     {| heap := heap w;
        trace := trace w ++ avs_file_atts outfile boundary (Some ids) rows
                              node_vals cell_vals |}).
Proof.
  intros Hc Hm Hlen Hn Hcv Hnl Hcl.
  cut (emits_on (heap w) (_writeLineAVS boundary outfile (Some c) (Some m) node_atts cell_atts)
         tt (avs_file_atts outfile boundary (Some ids) rows node_vals cell_vals));
    [intros Hem; apply Hem; reflexivity |].
  unfold _writeLineAVS, avs_file_atts, avs_head.
  rewrite (atts_length _ _ _ Hn), (atts_length _ _ _ Hcv).
  rewrite !map_app.
  change ((FileOpen outfile
           :: map (FileWrite outfile)
                (Header (length boundary) (length rows) (length node_vals) (length cell_vals)
                 :: avs_nodes boundary ++ avs_cells (Some ids) rows))
          ++ map (FileWrite outfile) (avs_att_block node_vals (length boundary))
          ++ map (FileWrite outfile) (avs_att_block cell_vals (length rows))
          ++ map (FileWrite outfile) [Blank])
    with ([] ++ [] ++ [FileOpen outfile]
          ++ [FileWrite outfile
                (Header (length boundary) (length rows) (length node_vals) (length cell_vals))]
          ++ map (FileWrite outfile) (avs_nodes boundary ++ avs_cells (Some ids) rows)
          ++ map (FileWrite outfile) (avs_att_block node_vals (length boundary))
          ++ map (FileWrite outfile) (avs_att_block cell_vals (length rows))
          ++ map (FileWrite outfile) [Blank]).
  eapply emits_on_bind; [apply emits_on_shape0_pairs, Hc |].
  eapply emits_on_bind with (a := tt).
  { change (@nil event) with (@nil event ++ []).
    eapply emits_on_bind; [apply emits_on_shape0_ints, Hm |].
    apply emits_on_assert, Nat.leb_le, Hlen. }
  eapply emits_on_bind; [apply emits_on_emits, emits_emit |].
  eapply emits_on_bind; [apply emits_on_emits, emits_emit |].
  rewrite map_app, <- app_assoc.
  eapply emits_on_bind; [apply emits_on_emits, emits_node_lines |].
  eapply emits_on_bind.
  { apply (emits_cell_lines (heap w) outfile c rows (Some m) (Some ids) Hc).
    exists ids. auto. }
  eapply emits_on_bind; [apply atts_block_emits; eassumption |].
  eapply emits_on_bind; [apply atts_block_emits; eassumption |].
  apply emits_on_emits, emits_emit.
Qed.

Lemma run_check_atts_short (key : string) (l : nat) (rest : list (string * nat))
    (ts : list Z) (count : nat) (msg : string -> string) (w : world) :
  heap w !! l = Some (Ints ts) ->
  length ts < count ->
  check_atts ((key, l) :: rest) count msg w = (Raise (AssertionError (msg key)), w).
Proof.
  intros Hl Hlt. unfold check_atts. cbn [mfor].
  apply run_bind_raise.
  rewrite (run_bind _ _ (length ts) w) by (apply run_shape0_ints, Hl).
  cbv beta. unfold massert.
  destruct (Nat.leb_spec count (length ts)); [lia | reflexivity].
Qed.

Lemma run_writeLineAVS_short (boundary : list point) (outfile : string) (c m l : nat)
    (rows : list (Z * Z)) (ids ts : list Z) (key : string) (rest : list (string * nat))
    (w : world) :
  heap w !! c = Some (Pairs rows) ->
  heap w !! m = Some (Ints ids) ->
  length rows <= length ids ->
  heap w !! l = Some (Ints ts) ->
  length ts < length rows ->
  _writeLineAVS boundary outfile (Some c) (Some m) None (Some ((key, l) :: rest)) w
  = (Raise (AssertionError ("Length of cell attribute " +:+ key
                            +:+ " does not match length of elem array")),
     {| heap := heap w;
        trace := trace w ++ avs_head outfile boundary (Some ids) rows 0 (S (length rest)) |}).
Proof.
  intros Hc Hm Hlen Hl Hshort.
  assert (Hhead : emits_on (heap w)
            (nlines <- shape0 c ;;
             _ <- (n <- shape0 m ;;
                   massert (Nat.leb nlines n) "Mismatch count between material ID and cells") ;;
             _ <- emit (FileOpen outfile) ;;
             _ <- emit (FileWrite outfile
                          (Header (length boundary) nlines 0 (S (length rest)))) ;;
             _ <- mfor (enumerate boundary) (fun '(i, p) =>
                    emit (FileWrite outfile (NodeLine (i + 1) (fst p) (snd p)))) ;;
             _ <- mfor (seq 0 nlines) (fun i =>
                    mat_id <- (xs <- load_ints m ;; getitem xs i) ;;
                    rows <- load_pairs c ;;
                    row <- getitem rows i ;;
                    emit (FileWrite outfile (CellLine (i + 1) mat_id (fst row) (snd row)))) ;;
             mret nlines)
            (length rows)
            (avs_head outfile boundary (Some ids) rows 0 (S (length rest)))).
  { unfold avs_head.
    change (FileOpen outfile
            :: map (FileWrite outfile)
                 (Header (length boundary) (length rows) 0 (S (length rest))
                  :: avs_nodes boundary ++ avs_cells (Some ids) rows))
      with ([] ++ [] ++ [FileOpen outfile]
            ++ [FileWrite outfile (Header (length boundary) (length rows) 0 (S (length rest)))]
            ++ map (FileWrite outfile) (avs_nodes boundary ++ avs_cells (Some ids) rows)).
    eapply emits_on_bind; [apply emits_on_shape0_pairs, Hc |].
    eapply emits_on_bind with (a := tt).
    { change (@nil event) with (@nil event ++ []).
      eapply emits_on_bind; [apply emits_on_shape0_ints, Hm |].
      apply emits_on_assert, Nat.leb_le, Hlen. }
    eapply emits_on_bind; [apply emits_on_emits, emits_emit |].
    eapply emits_on_bind; [apply emits_on_emits, emits_emit |].
    rewrite map_app.
    eapply emits_on_bind; [apply emits_on_emits, emits_node_lines |].
    rewrite <- (app_nil_r (map (FileWrite outfile) (avs_cells (Some ids) rows))).
    eapply emits_on_bind.
    { apply (emits_cell_lines (heap w) outfile c rows (Some m) (Some ids) Hc).
      exists ids. auto. }
    apply emits_on_emits, emits_ret. }
  specialize (Hhead w eq_refl).
  unfold _writeLineAVS. unfold mbind in *. cbn [length] in *.
  destruct (shape0 c w) as [[n|e] w1]; [| discriminate].
  cbv beta iota in *.
  destruct ((let (r, s') := shape0 m w1 in
             match r with
             | Ok a => massert (Nat.leb n a) "Mismatch count between material ID and cells" s'
             | Raise e => (Raise e, s')
             end)) as [[[]|e] w2]; [| discriminate].
  destruct (emit (FileOpen outfile) w2) as [[[]|e] w3]; [| discriminate].
  destruct (emit (FileWrite outfile (Header (length boundary) n 0 (S (length rest)))) w3)
    as [[[]|e] w4]; [| discriminate].
  destruct (mfor (enumerate boundary) _ w4) as [[[]|e] w5]; [| discriminate].
  destruct (mfor (seq 0 n) _ w5) as [[[]|e] w6]; [| discriminate].
  unfold mret in Hhead. injection Hhead as -> ->.
  cbn [heap trace]. unfold write_atts. unfold mbind.
  unfold mret. cbv beta iota.
  rewrite (run_check_atts_short key l rest ts (length rows) _
             {| heap := heap w;
                trace := trace w ++ avs_head outfile boundary (Some ids) rows 0
                                      (S (length rest)) |} Hl Hshort).
  reflexivity.
Qed.


(** X24.  With attribute dicts of integer arrays that are long enough,
    [_writeLineAVS] writes the header with the number of node and of cell
    attributes, the node lines and the cell lines, and then a block for
    each dict that is not empty: the number of attributes, one
    declaration per key, and one row per node (per cell) with its number
    and the value of every attribute there, keys in dict order.  The
    node block comes before the cell block, an empty line closes the
    file, and no array is touched. *)
Theorem writeLineAVS_attribute_blocks
    (boundary : list point) (outfile : string) (c m : nat) (rows : list (Z * Z))
    (ids : list Z) (node_atts cell_atts : option (list (string * nat)))
    (node_vals cell_vals : list (string * list Z)) (w : world) :
  heap w !! c = Some (Pairs rows) ->
  heap w !! m = Some (Ints ids) ->
  length rows <= length ids ->
  atts_hold (heap w) node_atts node_vals ->
  atts_hold (heap w) cell_atts cell_vals ->
  Forall (fun kv => length boundary <= length (snd kv)) node_vals ->
  Forall (fun kv => length rows <= length (snd kv)) cell_vals ->
  _writeLineAVS boundary outfile (Some c) (Some m) node_atts cell_atts w
  = (Ok tt,
     {| heap := heap w;
        trace := trace w ++ avs_file_atts outfile boundary (Some ids) rows
                              node_vals cell_vals |}).
Proof. apply run_writeLineAVS_atts. Qed.

(** X25.  When the first cell attribute array has fewer entries than there
    are connections, [_writeLineAVS] raises the assertion that names this
    attribute.  By then the file is open and holds the header, the node
    lines and the cell lines; no attribute line and no closing line is
    written, and no array is touched. *)
Theorem writeLineAVS_short_attribute_leaves_partial_file
    (boundary : list point) (outfile : string) (c m l : nat)
    (rows : list (Z * Z)) (ids ts : list Z) (key : string) (rest : list (string * nat))
    (w : world) :
  heap w !! c = Some (Pairs rows) ->
  heap w !! m = Some (Ints ids) ->
  length rows <= length ids ->
  heap w !! l = Some (Ints ts) ->
  length ts < length rows ->
  _writeLineAVS boundary outfile (Some c) (Some m) None (Some ((key, l) :: rest)) w
  = (Raise (AssertionError ("Length of cell attribute " +:+ key
                            +:+ " does not match length of elem array")),
     {| heap := heap w;
        trace := trace w ++ avs_head outfile boundary (Some ids) rows 0 (S (length rest)) |}).
Proof. apply run_writeLineAVS_short. Qed.

Lemma top_split_calls (n : nat) :
  exists evs,
    emits (top_split n) (n + 1)%nat evs /\ forallb is_kernel_call evs = true.
Proof.
  eexists. split; [unfold top_split, call, call_as; emits_go | reflexivity].
Qed.

Lemma writeLineAVS_short_attribute_leaves_partial_file_witness :
  _writeLineAVS triangle3 "line.inp" (Some 0%nat) (Some 1%nat) None
    (Some [("ioutlet"%string, 2%nat)])
    (World [Pairs [(1, 2); (2, 3)]%Z; Ints [7; 8]%Z; Ints [1]%Z] [])
  = (Raise (AssertionError
              "Length of cell attribute ioutlet does not match length of elem array"),
     {| heap := [Pairs [(1, 2); (2, 3)]%Z; Ints [7; 8]%Z; Ints [1]%Z];
        trace := [FileOpen "line.inp";
                  FileWrite "line.inp" (Header 3 2 0 1);
                  FileWrite "line.inp" (NodeLine 1 0 0);
                  FileWrite "line.inp" (NodeLine 2 0 100);
                  FileWrite "line.inp" (NodeLine 3 100 0);
                  FileWrite "line.inp" (CellLine 1 7 1 2);
                  FileWrite "line.inp" (CellLine 2 8 2 3)] |}).
Proof.
  refine (writeLineAVS_short_attribute_leaves_partial_file triangle3 "line.inp" 0%nat 1%nat
            2%nat [(1, 2); (2, 3)]%Z [7; 8]%Z [1]%Z "ioutlet" []
            (World [Pairs [(1, 2); (2, 3)]%Z; Ints [7; 8]%Z; Ints [1]%Z] [])
            eq_refl eq_refl _ eq_refl _); cbn; lia.
Defined.

Lemma writeLineAVS_attribute_blocks_witness :
  _writeLineAVS triangle3 "line.inp" (Some 0%nat) (Some 1%nat) None
    (Some [("ioutlet"%string, 2%nat)])
    (World [Pairs [(1, 2); (2, 3)]%Z; Ints [7; 8]%Z; Ints [1; 2]%Z] [])
  = (Ok tt,
     {| heap := [Pairs [(1, 2); (2, 3)]%Z; Ints [7; 8]%Z; Ints [1; 2]%Z];
        trace := [FileOpen "line.inp";
                  FileWrite "line.inp" (Header 3 2 0 1);
                  FileWrite "line.inp" (NodeLine 1 0 0);
                  FileWrite "line.inp" (NodeLine 2 0 100);
                  FileWrite "line.inp" (NodeLine 3 100 0);
                  FileWrite "line.inp" (CellLine 1 7 1 2);
                  FileWrite "line.inp" (CellLine 2 8 2 3);
                  FileWrite "line.inp" (AttCount 1);
                  FileWrite "line.inp" (AttTypes ["ioutlet, integer"%string]);
                  FileWrite "line.inp" (AttRow 1 [1%Z]);
                  FileWrite "line.inp" (AttRow 2 [2%Z]);
                  FileWrite "line.inp" Blank] |}).
Proof.
  refine (writeLineAVS_attribute_blocks triangle3 "line.inp" 0%nat 1%nat
            [(1, 2); (2, 3)]%Z [7; 8]%Z None (Some [("ioutlet"%string, 2%nat)])
            [] [("ioutlet"%string, [1; 2]%Z)]
            (World [Pairs [(1, 2); (2, 3)]%Z; Ints [7; 8]%Z; Ints [1; 2]%Z] [])
            eq_refl eq_refl _ eq_refl _ _ _).
  - cbn. lia.
  - constructor; [split; reflexivity | constructor].
  - constructor.
  - constructor; [cbn; lia | constructor].
Defined.

(** X26.  Given a dict with the keys 'all' and 'top', ids under 'all'
    that become 1, ..., k once their least value is taken off, one id at
    least per boundary point, and a non-empty boundary.  When 'top' holds
    one value at least per boundary point, [generateComplexFacesets]
    returns, and the boundary file it writes first carries, after the
    cells, one cell attribute ioutlet with the 'top' value of every edge;
    all that follows is kernel calls.  When 'top' is shorter than the
    boundary, the call raises the assertion on the length of ioutlet with
    the boundary file cut off after its cell lines and the kernel not yet
    called. *)
Theorem generateComplexFacesets_top_attribute
    (outfile mesh_file : string) (boundary : list point) (d : gmap string nat)
    (a t : nat) (xs ts : list Z) (least : Z) (w : world) :
  d !! "all"%string = Some a ->
  d !! "top"%string = Some t ->
  heap w !! a = Some (Ints xs) ->
  heap w !! t = Some (Ints ts) ->
  np_min xs = Ok least ->
  (exists k, ids_are_1_to k (shifted_ids least xs)) ->
  boundary <> [] ->
  length boundary <= length xs ->
  let rows := polyline_rows (length boundary) true in
  let h' := heap w ++ [Ints xs; Ints (map (fun x => x - least)%Z xs);
                       Ints (shifted_ids least xs); Pairs rows] in
  let r := generateComplexFacesets outfile mesh_file boundary (FsDict d) w in
  (length boundary <= length ts ->
   exists calls,
     r = (Ok tt,
          {| heap := h';
             trace := trace w
                      ++ avs_file_atts "_boundary_line_colors.inp" boundary
                           (Some (shifted_ids least xs)) rows [] [("ioutlet"%string, ts)]
                      ++ calls |}) /\
     forallb is_kernel_call calls = true) /\
  (length ts < length boundary ->
   r = (Raise (AssertionError
                 "Length of cell attribute ioutlet does not match length of elem array"),
        {| heap := h';
           trace := trace w
                    ++ avs_head "_boundary_line_colors.inp" boundary
                         (Some (shifted_ids least xs)) rows 0 1 |})).
Proof.
  intros Hall Htop Ha Ht Hmin Hseq Hne Hlen. cbv zeta.
  apply sequential_check in Hseq.
  set (h3 := heap w ++ [Ints xs; Ints (map (fun x => x - least)%Z xs);
                        Ints (shifted_ids least xs)]).
  set (rows := polyline_rows (length boundary) true).
  assert (Hh' : heap w ++ [Ints xs; Ints (map (fun x => x - least)%Z xs);
                           Ints (shifted_ids least xs); Pairs rows] = h3 ++ [Pairs rows]).
  { unfold h3. rewrite <- app_assoc. reflexivity. }
  rewrite Hh'.
  assert (Hids : (h3 ++ [Pairs rows]) !! (length (heap w) + 2)%nat
                 = Some (Ints (shifted_ids least xs))).
  { apply lookup_app_l_Some. unfold h3. rewrite lookup_app_r by lia.
    replace (length (heap w) + 2 - length (heap w))%nat with 2%nat by lia. reflexivity. }
  assert (Ht' : (h3 ++ [Pairs rows]) !! t = Some (Ints ts)).
  { apply lookup_app_l_Some. unfold h3. apply lookup_app_l_Some, Ht. }
  assert (Hrows : length rows = length boundary).
  { unfold rows, polyline_rows. rewrite length_app, length_map, length_seq. cbn [length].
    destruct boundary; [congruence | cbn [length]; lia]. }
  assert (Hrl : length rows <= length (shifted_ids least xs)).
  { unfold shifted_ids. rewrite !length_map. lia. }
  assert (Hstart : generateComplexFacesets outfile mesh_file boundary (FsDict d) w
                   = (x <- _writeLineAVS boundary "_boundary_line_colors.inp"
                             (Some (length h3)) (Some (length (heap w) + 2)%nat)
                             None (Some [("ioutlet"%string, t)]) ;;
                      _ <- surface_sides mesh_file "_boundary_line_colors.inp" true ;;
                      ids <- load_ints (length (heap w) + 2)%nat ;;
                      faceset_count <- top_split (length (np_unique ids) + 2)%nat ;;
                      _all_facesets <- write_facesets (seq 1 faceset_count) [] ;;
                      call "lg" "sendline"
                        [AStr ("dump/exo/" +:+ outfile +:+ "/cmo_in///facesets &" +:+ newline
                               +:+ String.concat (" &" +:+ newline) _all_facesets)])
                       {| heap := h3 ++ [Pairs rows]; trace := trace w |}).
  { unfold generateComplexFacesets. unfold mbind at 1. rewrite Hall, Htop.
    unfold mret at 1. unfold classify_faces.
    rewrite (run_bind _ _ (length (heap w) + 2)%nat {| heap := h3; trace := trace w |}).
    2:{ rewrite (run_normalized_attributes a xs least w Ha Hmin).
        fold (shifted_ids least xs). rewrite Hseq. reflexivity. }
    cbv beta zeta.
    rewrite (run_bind _ _ _ _ _
               (run_generateLineConnectivity_rows boundary true
                  {| heap := h3; trace := trace w |} Hne)).
    cbv beta. cbn [heap trace]. fold rows. reflexivity. }
  rewrite Hstart. clear Hstart.
  split.
  - intros Hts.
    destruct (surface_sides_calls mesh_file "_boundary_line_colors.inp" true)
      as (evsS & HS & HkS).
    destruct (top_split_calls (length (np_unique (shifted_ids least xs)) + 2))
      as (evsT & HT & HkT).
    destruct write_faceset_calls as (f & Hf).
    pose proof (write_facesets_emits f (fun i => proj1 (Hf i))) as HF.
    exists (evsS ++ evsT
            ++ flat_map f (seq 1 (length (np_unique (shifted_ids least xs)) + 2 + 1))
            ++ [exodus_dump outfile
                  (map faceset_file
                     (seq 1 (length (np_unique (shifted_ids least xs)) + 2 + 1)))]).
    split.
    + rewrite (run_bind _ _ tt _ _
                 (run_writeLineAVS_atts boundary "_boundary_line_colors.inp"
                    (length h3) (length (heap w) + 2)%nat rows (shifted_ids least xs)
                    None (Some [("ioutlet"%string, t)]) [] [("ioutlet"%string, ts)]
                    {| heap := h3 ++ [Pairs rows]; trace := trace w |}
                    (lookup_snoc _ _) Hids Hrl eq_refl
                    ltac:(constructor; [split; [reflexivity | exact Ht'] | constructor])
                    ltac:(constructor)
                    ltac:(constructor; [cbn [snd]; lia | constructor]))).
      cbv beta. cbn [heap trace].
      rewrite (emits_run _ _ tt evsS _ HS). cbv beta. cbn [heap trace].
      rewrite (run_bind _ _ (shifted_ids least xs) _ _
                 (run_load_ints (length (heap w) + 2)%nat (shifted_ids least xs)
                    {| heap := h3 ++ [Pairs rows];
                       trace := (trace w ++ avs_file_atts "_boundary_line_colors.inp" boundary
                                              (Some (shifted_ids least xs)) rows []
                                              [("ioutlet"%string, ts)]) ++ evsS |}
                    Hids)).
      cbv beta.
      rewrite (emits_run _ _ _ evsT _ HT). cbv beta. cbn [heap trace].
      rewrite (emits_run _ _ _ _ _ (HF _ _)). cbv beta. cbn [app heap trace].
      unfold call, emit, mmodify, exodus_dump. cbn [heap trace].
      rewrite <- !app_assoc. reflexivity.
    + rewrite !forallb_app, HkS, HkT. rewrite forallb_flat_map by (intros i; apply Hf).
      reflexivity.
  - intros Hts.
    apply run_bind_raise.
    apply (run_writeLineAVS_short boundary "_boundary_line_colors.inp" (length h3)
             (length (heap w) + 2)%nat t rows (shifted_ids least xs) ts "ioutlet" []
             {| heap := h3 ++ [Pairs rows]; trace := trace w |}
             (lookup_snoc _ _) Hids Hrl Ht').
    lia.
Qed.

Lemma generateComplexFacesets_top_attribute_witness :
  (exists calls,
     generateComplexFacesets "mesh.exo" "stacked.inp" triangle3
       (FsDict {[ "all"%string := 0%nat; "top"%string := 1%nat ]})
       (World [Ints [5; 7; 6]%Z; Ints [1; 2; 1]%Z] [])
     = (Ok tt,
        {| heap := [Ints [5; 7; 6]%Z; Ints [1; 2; 1]%Z]
                   ++ [Ints [5; 7; 6]%Z; Ints (map (fun x => x - 5)%Z [5; 7; 6]%Z);
                       Ints (shifted_ids 5 [5; 7; 6]%Z); Pairs (polyline_rows 3 true)];
           trace := [] ++ avs_file_atts "_boundary_line_colors.inp" triangle3
                            (Some (shifted_ids 5 [5; 7; 6]%Z)) (polyline_rows 3 true) []
                            [("ioutlet"%string, [1; 2; 1]%Z)]
                    ++ calls |}) /\
     forallb is_kernel_call calls = true) /\
  generateComplexFacesets "mesh.exo" "stacked.inp" triangle3
    (FsDict {[ "all"%string := 0%nat; "top"%string := 1%nat ]})
    (World [Ints [5; 7; 6]%Z; Ints [1; 2]%Z] [])
  = (Raise (AssertionError
              "Length of cell attribute ioutlet does not match length of elem array"),
     {| heap := [Ints [5; 7; 6]%Z; Ints [1; 2]%Z]
                ++ [Ints [5; 7; 6]%Z; Ints (map (fun x => x - 5)%Z [5; 7; 6]%Z);
                    Ints (shifted_ids 5 [5; 7; 6]%Z); Pairs (polyline_rows 3 true)];
        trace := [] ++ avs_head "_boundary_line_colors.inp" triangle3
                         (Some (shifted_ids 5 [5; 7; 6]%Z)) (polyline_rows 3 true) 0 1 |}).
Proof.
  split.
  - apply (generateComplexFacesets_top_attribute "mesh.exo" "stacked.inp" triangle3
             {[ "all"%string := 0%nat; "top"%string := 1%nat ]} 0%nat 1%nat
             [5; 7; 6]%Z [1; 2; 1]%Z 5%Z (World [Ints [5; 7; 6]%Z; Ints [1; 2; 1]%Z] [])).
    + reflexivity.
    + reflexivity.
    + reflexivity.
    + reflexivity.
    + reflexivity.
    + exists 3%Z. intros v. cbn. lia.
    + discriminate.
    + cbn. lia.
    + cbn. lia.
  - apply (generateComplexFacesets_top_attribute "mesh.exo" "stacked.inp" triangle3
             {[ "all"%string := 0%nat; "top"%string := 1%nat ]} 0%nat 1%nat
             [5; 7; 6]%Z [1; 2]%Z 5%Z (World [Ints [5; 7; 6]%Z; Ints [1; 2]%Z] [])).
    + reflexivity.
    + reflexivity.
    + reflexivity.
    + reflexivity.
    + reflexivity.
    + exists 3%Z. intros v. cbn. lia.
    + discriminate.
    + cbn. lia.
    + cbn. lia.
Defined.

End AttributeFile.

(** ** [generateFaceSetsNaive] *)

Section NaiveFacts.
Import NaiveFacesets.

Lemma remove_all_absent (f : string) (l rest : list string) (s : session) :
  f ∉ disk s -> fst (remove_all (l ++ f :: rest) s) <> Returned.
Proof.
  revert s. induction l as [|g l IH]; intros s Hf; cbn [app remove_all].
  - destruct (decide (f ∈ disk s)); [contradiction | discriminate].
  - destruct (decide (g ∈ disk s)); [| discriminate].
    apply IH. cbn [disk]. intros H. apply elem_of_difference in H as [H _]. contradiction.
Qed.

Lemma remove_all_twice (f : string) (l1 l2 l3 : list string) (s : session) :
  fst (remove_all (l1 ++ f :: l2 ++ f :: l3) s) <> Returned.
Proof.
  revert s. induction l1 as [|g l1 IH]; intros s; cbn [app remove_all].
  - destruct (decide (f ∈ disk s)); [| discriminate].
    apply remove_all_absent. cbn [disk]. intros H.
    apply elem_of_difference in H as [_ H]. apply H, elem_of_singleton. reflexivity.
  - destruct (decide (g ∈ disk s)); [apply IH | discriminate].
Qed.

(** X27.  [generateFaceSetsNaive] never returns normally, whatever files
    exist and whatever the kernel does.  An argument that is not a mesh
    object raises ValueError with nothing done.  For a mesh object the
    clean-up list is extended with the characters of the control file's
    name, among them 'i' twice, so at the latest the second removal of
    the path i finds no such file. *)
Theorem generateFaceSetsNaive_never_returns
    (get_facesets3 : string) (lagrit : string -> gset string -> gset string)
    (stacked_mesh : pyobj) (outfile : string) (s : session) :
  fst (generateFaceSetsNaive get_facesets3 lagrit stacked_mesh outfile s) <> Returned /\
  (stacked_mesh = OtherObject ->
   generateFaceSetsNaive get_facesets3 lagrit stacked_mesh outfile s
   = (Raised (ValueError "stacked_mesh must be a PyLaGriT mesh object"), s)).
Proof.
  split.
  - destruct stacked_mesh as [name|]; [| discriminate].
    unfold generateFaceSetsNaive. cbv zeta.
    apply (remove_all_twice "i"
             ["fs1_bottom.avs"; "fs2_top.avs"; "fs3_sides_all.avs"]%string
             ["n"; "f"]%string
             (chars "le_tmp_get_facesets3.mlgi")).
  - intros ->. reflexivity.
Qed.

Lemma remove_all_log (paths : list string) (s : session) :
  exists removed,
    log (snd (remove_all paths s)) = log s ++ map Removed removed /\
    (forall p, In p removed -> In p paths) /\
    (forall p, p ∈ disk s -> ~ In p removed -> p ∈ disk (snd (remove_all paths s))).
Proof.
  revert s. induction paths as [|f paths IH]; intros s; cbn [remove_all].
  - exists []. cbn. rewrite app_nil_r. split; [reflexivity | split; [tauto | auto]].
  - destruct (decide (f ∈ disk s)).
    + destruct (IH {| disk := disk s ∖ {[ f ]}; log := log s ++ [Removed f] |})
        as (removed & Hlog & Hin & Hdisk).
      exists (f :: removed). cbn [log disk] in *. split; [| split].
      * rewrite Hlog, <- app_assoc. reflexivity.
      * intros p [<- | Hp]; [left; reflexivity | right; apply Hin, Hp].
      * intros p Hp Hnot. apply Hdisk.
        -- apply elem_of_difference. split; [exact Hp |].
           intros E. apply elem_of_singleton in E. apply Hnot. left. symmetry. exact E.
        -- intros Hr. apply Hnot. right. exact Hr.
    + exists []. cbn. rewrite app_nil_r. split; [reflexivity | split; [tauto | auto]].
Qed.

(** X28.  Provided the kernel does not delete it, the control file
    infile_tmp_get_facesets3.mlgi that [generateFaceSetsNaive] writes is
    still on disk when the call ends.  Until then the function has
    written that file, sent its four command lines in order (the third
    with the option spelt faceets), and removed only paths that are one
    of the three faceset files or a single character long. *)
Theorem generateFaceSetsNaive_leaves_control_file
    (get_facesets3 : string) (lagrit : string -> gset string -> gset string)
    (name outfile : string) (s : session) :
  (forall cmd d, "infile_tmp_get_facesets3.mlgi"%string ∈ d ->
                 "infile_tmp_get_facesets3.mlgi"%string ∈ lagrit cmd d) ->
  let r := generateFaceSetsNaive get_facesets3 lagrit (MeshObject name) outfile s in
  "infile_tmp_get_facesets3.mlgi"%string ∈ disk (snd r) /\
  exists removed,
    log (snd r)
    = log s
      ++ [Written "infile_tmp_get_facesets3.mlgi" get_facesets3;
          SendLine ("define CMO_PRISM " +:+ name);
          SendLine "infile infile_tmp_get_facesets3.mlgi";
          SendLine ("dump/exo/" +:+ outfile +:+ "/CMO_PRISM///faceets &");
          SendLine "fs1_bottom.avs fs2_top.avs fs3_sides_all.avs"]
      ++ map Removed removed /\
    forall p, In p removed ->
      In p ["fs1_bottom.avs"; "fs2_top.avs"; "fs3_sides_all.avs"]%string \/
      String.length p = 1.
Proof.
  intros Hkeep. cbv zeta. unfold generateFaceSetsNaive. cbv zeta.
  set (s4 := sendline lagrit "fs1_bottom.avs fs2_top.avs fs3_sides_all.avs" _).
  set (paths := _ ++ chars _).
  destruct (remove_all_log paths s4) as (removed & Hlog & Hin & Hdisk).
  assert (Hpaths : forall p, In p paths ->
            In p ["fs1_bottom.avs"; "fs2_top.avs"; "fs3_sides_all.avs"]%string \/
            String.length p = 1).
  { intros p Hp. unfold paths in Hp. apply in_app_iff in Hp as [Hp | Hp]; [left; exact Hp |].
    right. unfold chars in Hp. apply in_map_iff in Hp as (c & <- & _). reflexivity. }
  split.
  - apply Hdisk.
    + unfold s4, sendline. cbn [disk]. do 4 apply Hkeep.
      apply elem_of_union. left. apply elem_of_singleton. reflexivity.
    + intros Hrem. destruct (Hpaths _ (Hin _ Hrem)) as [H | H].
      * cbn in H. intuition discriminate.
      * discriminate H.
  - exists removed. split.
    + rewrite Hlog. unfold s4, sendline, write_file. cbn [log]. rewrite <- !app_assoc. reflexivity.
    + intros p Hp. apply Hpaths, Hin, Hp.
Qed.

Lemma generateFaceSetsNaive_leaves_control_file_witness :
  let r := generateFaceSetsNaive "dump / avs2 / fs1_bottom.avs"
             (fun _ d => d ∪ {[ "fs1_bottom.avs"%string; "fs2_top.avs"%string;
                                "fs3_sides_all.avs"%string ]})
             (MeshObject "mo1") "mesh.exo" (MkSession ∅ []) in
  "infile_tmp_get_facesets3.mlgi"%string ∈ disk (snd r) /\
  exists removed,
    log (snd r)
    = [] ++ [Written "infile_tmp_get_facesets3.mlgi" "dump / avs2 / fs1_bottom.avs";
             SendLine "define CMO_PRISM mo1";
             SendLine "infile infile_tmp_get_facesets3.mlgi";
             SendLine "dump/exo/mesh.exo/CMO_PRISM///faceets &";
             SendLine "fs1_bottom.avs fs2_top.avs fs3_sides_all.avs"]
      ++ map Removed removed /\
    forall p, In p removed ->
      In p ["fs1_bottom.avs"; "fs2_top.avs"; "fs3_sides_all.avs"]%string \/
      String.length p = 1.
Proof.
  apply (generateFaceSetsNaive_leaves_control_file "dump / avs2 / fs1_bottom.avs"
           (fun _ d => d ∪ {[ "fs1_bottom.avs"%string; "fs2_top.avs"%string;
                              "fs3_sides_all.avs"%string ]})
           "mo1" "mesh.exo" (MkSession ∅ [])).
  intros cmd d Hd. apply elem_of_union. left. exact Hd.
Defined.

End NaiveFacts.
